(** * Deep-RL-Stocks: the trading environment, the replay buffer and the
      DDPG training step, embedded from [models/environment.py] and
      [models/model.py].

    Conventions of the embedding.
    - A Python [int] is a [Z]; [//] and [%] by a positive divisor are
      [Z.div] and [Z.modulo] (both round towards minus infinity).
    - A Python [float] (and a numpy / torch scalar) is a rational [Q],
      and so a finite value.  Where the code takes float64 values into
      float32 tensors ([ReplayBuffer.sample]) and where it updates
      float32 parameters in place (the soft update of [DDPG.train]), the
      rounding to the nearest float is written out with [Float.round];
      elsewhere arithmetic is exact.
    - A Python [str] is a [string] whose characters are the code points
      below 256.
    - A call that can raise returns an [outcome]; attributes that an
      object may not have yet are [option] fields, and reading one that
      is missing raises [AttributeError]. *)

From Stdlib Require Import ZArith QArith Qabs Qround Lqa Lia String Ascii.
From Stdlib Require Import List Bool.
From stdpp Require Import base list.
Import ListNotations.

Local Open Scope string_scope.
Local Open Scope Z_scope.

(** ** Python run-time: exceptions, strings, [int()] *)

Module Py.

(** The exceptions the modelled code can raise.  Messages are kept only
    where the source writes them. *)
Inductive exn : Type :=
| ValueError (msg : string)
| IndexError
| AttributeError (attr : string)
| OverflowError
| DataNotFoundError
| Exception_ (msg : string).

Inductive outcome (A : Type) : Type :=
| Ret (a : A)
| Raise (e : exn).
Arguments Ret {A} a.
Arguments Raise {A} e.

#[export] Instance outcome_ret : MRet outcome := fun A a => Ret a.
#[export] Instance outcome_bind : MBind outcome := fun A B f m =>
  match m with
  | Ret a => f a
  | Raise e => Raise e
  end.

(** The exceptions raised as a bare [Exception]. *)
Definition is_exception (e : exn) : bool :=
  match e with
  | Exception_ _ => true
  | _ => false
  end.

(** [self.attr] for an attribute that may be unset. *)
Definition getattr {A} (name : string) (field : option A) : outcome A :=
  match field with
  | Some a => Ret a
  | None => Raise (AttributeError name)
  end.

(** [xs[i]] on a Python list, for a non-negative literal index. *)
Definition getitem {A} (xs : list A) (i : nat) : outcome A :=
  match xs !! i with
  | Some a => Ret a
  | None => Raise IndexError
  end.

(** [[f(x) for x in xs]]: the first failure aborts the comprehension. *)
Fixpoint comprehension {A B} (f : A -> outcome B) (xs : list A)
  : outcome (list B) :=
  match xs with
  | [] => Ret []
  | x :: rest =>
      y ← f x;
      ys ← comprehension f rest;
      Ret (y :: ys)
  end.

Definition code (c : ascii) : Z := Z.of_nat (nat_of_ascii c).

(** [re.split(r"[\-]", s)] *)
Fixpoint re_split_hyphen (s : string) : list string :=
  match s with
  | EmptyString => [EmptyString]
  | String c rest =>
      if Ascii.eqb c "-" then EmptyString :: re_split_hyphen rest
      else match re_split_hyphen rest with
           | tok :: toks => String c tok :: toks
           | [] => [String c EmptyString]
           end
  end.

Definition is_decimal (c : ascii) : bool :=
  (48 <=? code c) && (code c <=? 57).

(** Characters with the Unicode digit property below 256: the ten ASCII
    digits and the superscripts 2, 3 and 1 (U+00B2, U+00B3, U+00B9). *)
Definition is_digit_char (c : ascii) : bool :=
  is_decimal c || (code c =? 178) || (code c =? 179) || (code c =? 185).

(** [s.isdigit()]: at least one character, all of them digits. *)
Definition isdigit (s : string) : bool :=
  match s with
  | EmptyString => false
  | _ => forallb is_digit_char (list_ascii_of_string s)
  end.

(** White space as [int()] strips it: the six characters of C's
    [isspace] and, of the code points above 127, the two with the
    Unicode property. *)
Definition is_space (c : ascii) : bool :=
  let n := code c in
  ((9 <=? n) && (n <=? 13)) || (n =? 32) || (n =? 133) || (n =? 160).

Fixpoint lstrip (cs : list ascii) : list ascii :=
  match cs with
  | c :: rest => if is_space c then lstrip rest else cs
  | [] => []
  end.

Definition strip (cs : list ascii) : list ascii :=
  rev (lstrip (rev (lstrip cs))).

(** The digits of a base-10 literal; a single underscore may sit between
    two digits. *)
Fixpoint parse_digits (acc : Z) (after_digit : bool) (cs : list ascii)
  : option Z :=
  match cs with
  | [] => if after_digit then Some acc else None
  | c :: rest =>
      if is_decimal c then parse_digits (10 * acc + (code c - 48)) true rest
      else if Ascii.eqb c "_" then
             if after_digit then parse_digits acc false rest else None
           else None
  end.

(** [int(s)] on a string. *)
Definition int (s : string) : outcome Z :=
  let cs := strip (list_ascii_of_string s) in
  let '(negative, digits) :=
    match cs with
    | c :: rest =>
        if Ascii.eqb c "+" then (false, rest)
        else if Ascii.eqb c "-" then (true, rest)
        else (false, cs)
    | [] => (false, cs)
    end in
  match parse_digits 0 false digits with
  | Some n => Ret (if negative then - n else n)
  | None => Raise (ValueError "invalid literal for int() with base 10")
  end.

(** [float(b)] for a bool. *)
Definition float_of_bool (b : bool) : Q := if b then 1%Q else 0%Q.

End Py.

Export Py.

(** ** [datetime.date]: the proleptic Gregorian calendar of the standard
    library, as far as the environment uses it *)

Module Datetime.

Definition MINYEAR : Z := 1.
Definition MAXYEAR : Z := 9999.
Definition MAXORDINAL : Z := 3652059.

Definition is_leap (year : Z) : bool :=
  (year mod 4 =? 0) && (negb (year mod 100 =? 0) || (year mod 400 =? 0)).

Definition DAYS_IN_MONTH : list Z :=
  [31; 28; 31; 30; 31; 30; 31; 31; 30; 31; 30; 31].

Definition DAYS_BEFORE_MONTH : list Z :=
  [0; 31; 59; 90; 120; 151; 181; 212; 243; 273; 304; 334].

(** Tables are indexed by the month number, 1 to 12. *)
Definition table (t : list Z) (month : Z) : Z :=
  nth (Z.to_nat (month - 1)) t 0.

Definition days_in_month (year month : Z) : Z :=
  if (month =? 2) && is_leap year then 29 else table DAYS_IN_MONTH month.

Definition days_before_year (year : Z) : Z :=
  let y := year - 1 in
  y * 365 + y / 4 - y / 100 + y / 400.

Definition days_before_month (year month : Z) : Z :=
  table DAYS_BEFORE_MONTH month
  + (if (2 <? month) && is_leap year then 1 else 0).

Definition ymd2ord (year month day : Z) : Z :=
  days_before_year year + days_before_month year month + day.

Definition DI400Y : Z := 146097.
Definition DI100Y : Z := 36524.
Definition DI4Y : Z := 1461.

(** Ordinal to (year, month, day), with day 1 of year 1 as ordinal 1. *)
Definition ord2ymd (ordinal : Z) : Z * Z * Z :=
  let n := ordinal - 1 in
  let n400 := n / DI400Y in
  let n := n mod DI400Y in
  let year := n400 * 400 + 1 in
  let n100 := n / DI100Y in
  let n := n mod DI100Y in
  let n4 := n / DI4Y in
  let n := n mod DI4Y in
  let n1 := n / 365 in
  let n := n mod 365 in
  let year := year + n100 * 100 + n4 * 4 + n1 in
  if (n1 =? 4) || (n100 =? 4) then (year - 1, 12, 31)
  else
    let leapyear := (n1 =? 3) && (negb (n4 =? 24) || (n100 =? 3)) in
    let month := Z.shiftr (n + 50) 5 in
    let preceding :=
      table DAYS_BEFORE_MONTH month
      + (if (2 <? month) && leapyear then 1 else 0) in
    if n <? preceding then
      let month := month - 1 in
      let preceding :=
        preceding
        - (table DAYS_IN_MONTH month
           + (if (month =? 2) && leapyear then 1 else 0)) in
      (year, month, n - preceding + 1)
    else (year, month, n - preceding + 1).

(** The integers from 1 to [n], and a check that [ord2ymd] takes the
    ordinal of every day of a year back to that day. *)
Definition upto (n : Z) : list Z := map Z.of_nat (seq 1 (Z.to_nat n)).

Definition returns_to (y m d : Z) : bool :=
  let '(y', m', d') := ord2ymd (ymd2ord y m d) in
  (y' =? y) && (m' =? m) && (d' =? d).

Definition year_returns (y : Z) : bool :=
  forallb (fun m => forallb (returns_to y m) (upto (days_in_month y m)))
    (upto 12).

Record date : Type := mk_date { year : Z; month : Z; day : Z }.

Definition fits_c_int (n : Z) : bool :=
  (- 2147483648 <=? n) && (n <=? 2147483647).

(** [datetime.date(year, month, day)] *)
Definition date_new (y m d : Z) : outcome date :=
  if negb (fits_c_int y && fits_c_int m && fits_c_int d) then
    Raise OverflowError
  else if negb ((MINYEAR <=? y) && (y <=? MAXYEAR)) then
    Raise (ValueError "year is out of range")
  else if negb ((1 <=? m) && (m <=? 12)) then
    Raise (ValueError "month must be in 1..12")
  else if negb ((1 <=? d) && (d <=? days_in_month y m)) then
    Raise (ValueError "day is out of range for month")
  else Ret (mk_date y m d).

Definition toordinal (d : date) : Z := ymd2ord (year d) (month d) (day d).

Definition fromordinal (n : Z) : date :=
  let '(y, m, d) := ord2ymd n in mk_date y m d.

(** [(d2 - d1).days] *)
Definition days_between (d2 d1 : date) : Z := toordinal d2 - toordinal d1.

(** [d + datetime.timedelta(days)] *)
Definition add_days (d : date) (days : Z) : outcome date :=
  let o := toordinal d + days in
  if (0 <? o) && (o <=? MAXORDINAL) then Ret (fromordinal o)
  else Raise OverflowError.

Definition digit_char (n : Z) : ascii := ascii_of_nat (Z.to_nat (48 + n mod 10)).

Definition two_digits (n : Z) : string :=
  String (digit_char (n / 10)) (String (digit_char n) EmptyString).

Definition four_digits (n : Z) : string :=
  String (digit_char (n / 1000)) (String (digit_char (n / 100))
    (two_digits n)).

(** [str(d)], the ISO form YYYY-MM-DD. *)
Definition isoformat (d : date) : string :=
  (four_digits (year d) ++ "-" ++ two_digits (month d) ++ "-"
   ++ two_digits (day d))%string.

End Datetime.

(** ** numpy arrays of one dimension *)

Module Np.

(** [xs * ys], elementwise; an array of one entry is broadcast, any other
    mismatch of shapes is an error. *)
Definition broadcast (op : Q -> Q -> Q) (xs ys : list Q)
  : outcome (list Q) :=
  if (length xs =? length ys)%nat then Ret (zip_with op xs ys)
  else match xs, ys with
       | [x], _ => Ret (map (op x) ys)
       | _, [y] => Ret (map (fun x => op x y) xs)
       | _, _ => Raise (ValueError "operands could not be broadcast together")
       end.

Definition mul : list Q -> list Q -> outcome (list Q) := broadcast Qmult.
Definition add : list Q -> list Q -> outcome (list Q) := broadcast Qplus.

(** [xs.clip(lo, hi)] *)
Definition clip (lo hi : Q) (xs : list Q) : list Q :=
  map (fun x => if Qle_bool x lo then lo else if Qle_bool hi x then hi else x)
      xs.

(** [np.sum(xs)] *)
Definition sum (xs : list Q) : Q := fold_left Qplus xs 0%Q.

End Np.

(** ** Binary floating point: rounding to the nearest float

    A float is kept as the rational it stands for, so the infinities and
    NaN have no place here: [finite] says that rounding a value stays
    within the largest float, and what is stated about rounded values is
    stated for finite ones. *)

Module Float.

(** [2 ** e] for an exponent of either sign. *)
Definition pow2 (e : Z) : Q :=
  if 0 <=? e then inject_Z (2 ^ e) else Qinv (inject_Z (2 ^ (- e))).

(** The exponent of the binade of a positive [a]: the largest [e] with
    [2 ** e <= a]. *)
Definition ilog2 (a : Q) : Z :=
  if Qle_bool 1 a then Z.log2 (Qfloor a)
  else - Z.log2_up (Qceiling (Qinv a)).

(** The integer nearest to [s], the even one of two that are as near. *)
Definition rint (s : Q) : Z :=
  let f := Qfloor s in
  match (2 * (s - inject_Z f) ?= 1)%Q with
  | Lt => f
  | Gt => f + 1
  | Eq => if Z.even f then f else f + 1
  end.

Section Format.

(** A format has [prec] bits of precision; its least positive value is
    [2 ** emin] and its values lie below [2 ** emax]. *)
Variable prec : Z.
Variable emin : Z.
Variable emax : Z.

(** The value of the format nearest to [x], ties to the even mantissa;
    below the normal range the spacing stays [2 ** emin]. *)
Definition round (x : Q) : Q :=
  if Qeq_bool x 0 then 0%Q
  else
    let a := Qabs x in
    let q := Z.max (ilog2 a - prec + 1) emin in
    let m := rint (a / pow2 q) in
    Qred (inject_Z (if Qle_bool 0 x then m else - m) * pow2 q).

(** Rounding [x] does not overflow. *)
Definition finite (x : Q) : Prop := (Qabs (round x) < pow2 emax)%Q.

(** [x] is a finite value of the format. *)
Definition representable (x : Q) : Prop := (round x == x)%Q /\ finite x.

End Format.

End Float.

(** binary32, the [torch.float32] of the tensors. *)
Module Float32.
Definition round : Q -> Q := Float.round 24 (-149).
Definition finite : Q -> Prop := Float.finite 24 (-149) 128.
Definition representable : Q -> Prop := Float.representable 24 (-149) 128.
End Float32.

(** binary64, the Python [float]. *)
Module Float64.
Definition round : Q -> Q := Float.round 53 (-1074).
Definition finite : Q -> Prop := Float.finite 53 (-1074) 1024.
Definition representable : Q -> Prop := Float.representable 53 (-1074) 1024.
End Float64.

(** ** The portfolio state ([State], imported by the environment) *)

Module State.

Record t : Type := mk {
  stock_names : list string;
  cash : Q;
  holdings : list Q;
  current_date : string;
  current_time : string
}.

Section Prices.

(** The price table behind [get_stock_prices]: the prices of the stocks at
    a date and a time of day, when the data has that row. *)
Variable price_data : string -> string -> option (list Q).

(** Modelled from the spec: [State.get_stock_prices] is not among the
    sources; it looks the prices up and fails when the date and time have
    no recorded price. *)
Definition get_stock_prices (s : t) (date time : string)
  : outcome (list Q) :=
  match price_data date time with
  | Some prices => Ret prices
  | None => Raise DataNotFoundError
  end.

(** Modelled from the spec: [State.advance_state] is not among the
    sources; it replaces cash, holdings, date and time in place. *)
Definition advance_state (s : t) (new_cash : Q) (new_holdings : list Q)
  (new_date new_time : string) : t :=
  mk (stock_names s) new_cash new_holdings new_date new_time.

(** Modelled from the spec: [State.reset] is not among the sources; it
    reinitialises the same fields in place. *)
Definition reset (s : t) (starting_money : Q) (starting_shares : list Q)
  (date time : string) : t :=
  mk (stock_names s) starting_money starting_shares date time.

(** Modelled from the spec: [State.calculate_portfolio_value] is not among
    the sources; cash plus the holdings valued at the prices of the
    state's current date and time. *)
Definition calculate_portfolio_value (s : t) : outcome Q :=
  prices ← get_stock_prices s (current_date s) (current_time s);
  values ← Np.mul (holdings s) prices;
  Ret (cash s + Np.sum values)%Q.

End Prices.

End State.

(** ** [StockEnv] *)

Module StockEnv.

Import Datetime.

Record t : Type := mk {
  random_start : bool;
  valid_dates : list string;
  number_of_stocks : Z;
  stock_names : list string;
  max_epochs : option Z;
  start_date : option string;
  end_date : option string;
  starting_amount_lower : Z;
  starting_amount_upper : Z;
  starting_amount : Q;
  epochs : option Z;
  state : option State.t
}.

Definition set_dates (e : t) (m : Z) (s1 s2 : string) : t :=
  mk (random_start e) (valid_dates e) (number_of_stocks e) (stock_names e)
     (Some m) (Some s1) (Some s2)
     (starting_amount_lower e) (starting_amount_upper e) (starting_amount e)
     (epochs e) (state e).

Definition set_epochs (e : t) (n : Z) : t :=
  mk (random_start e) (valid_dates e) (number_of_stocks e) (stock_names e)
     (max_epochs e) (start_date e) (end_date e)
     (starting_amount_lower e) (starting_amount_upper e) (starting_amount e)
     (Some n) (state e).

Definition set_state (e : t) (s : State.t) : t :=
  mk (random_start e) (valid_dates e) (number_of_stocks e) (stock_names e)
     (max_epochs e) (start_date e) (end_date e)
     (starting_amount_lower e) (starting_amount_upper e) (starting_amount e)
     (epochs e) (Some s).

Definition set_starting_amount (e : t) (a : Q) : t :=
  mk (random_start e) (valid_dates e) (number_of_stocks e) (stock_names e)
     (max_epochs e) (start_date e) (end_date e)
     (starting_amount_lower e) (starting_amount_upper e) a
     (epochs e) (state e).

(** The same environment over another calendar file. *)
Definition with_valid_dates (e : t) (dates : list string) : t :=
  mk (random_start e) dates (number_of_stocks e) (stock_names e)
     (max_epochs e) (start_date e) (end_date e)
     (starting_amount_lower e) (starting_amount_upper e) (starting_amount e)
     (epochs e) (state e).

Definition set_amounts (e : t) (lower upper : Z) : t :=
  mk (random_start e) (valid_dates e) (number_of_stocks e) (stock_names e)
     (max_epochs e) (start_date e) (end_date e)
     lower upper (inject_Z upper) (epochs e) (state e).

(** What a method hands back when its result is [None] or a bool. *)
Inductive pyval : Type := PyNone | PyBool (b : bool).

(** [x in self.valid_dates] *)
Definition contains (dates : list string) (x : string) : bool :=
  existsb (String.eqb x) dates.

(** [datetime.date(arr[2], arr[0], arr[1])] on the integers of a split
    date string. *)
Definition date_of_tokens (arr : list Z) : outcome date :=
  y ← getitem arr 2;
  m ← getitem arr 0;
  d ← getitem arr 1;
  date_new y m d.

(** A date string read the way every method of the class reads one:
    split at the hyphens, [int] of every token, then
    [datetime.date(arr[2], arr[0], arr[1])]. *)
Definition parse_date (s : string) : outcome date :=
  arr ← comprehension int (re_split_hyphen s);
  date_of_tokens arr.

(** The date [d] has the first token of [s] as its month, the second as
    its day and the third as its year. *)
Definition month_day_year (s : string) (d : date) : Prop :=
  exists tm td ty,
    re_split_hyphen s !! 0%nat = Some tm
    /\ re_split_hyphen s !! 1%nat = Some td
    /\ re_split_hyphen s !! 2%nat = Some ty
    /\ int tm = Ret (month d) /\ int td = Ret (day d)
    /\ int ty = Ret (year d).

(** The [for x, y in zip(start_arr, end_arr)] loop of [initialize_date]:
    [inl b] when the loop runs to its end with [date_is_valid = b],
    [inr b] when it leaves the method through [return date_is_valid]. *)
Fixpoint validate_tokens (pairs : list (string * string))
  (date_is_valid : bool) : outcome (bool + bool) :=
  match pairs with
  | [] => Ret (inl date_is_valid)
  | (x, y) :: rest =>
      let date_is_valid := isdigit x && isdigit y && date_is_valid in
      if date_is_valid then
        a ← int x;
        if a >? 0 then
          b ← int y;
          validate_tokens rest (b >? 0)
        else validate_tokens rest false
      else Ret (inr date_is_valid)
  end.

Definition initialize_date (self : t) (start_date end_date : string)
  : outcome (pyval * t) :=
  let start_arr := re_split_hyphen start_date in
  let end_arr := re_split_hyphen end_date in
  r ← validate_tokens (zip start_arr end_arr) true;
  match r with
  | inr b => Ret (PyBool b, self)
  | inl date_is_valid =>
      date1 ← comprehension int (re_split_hyphen start_date);
      date2 ← comprehension int (re_split_hyphen end_date);
      date1_obj ← date_of_tokens date1;
      date2_obj ← date_of_tokens date2;
      let epochs := days_between date2_obj date1_obj in
      if negb (date_is_valid && (epochs >=? 0)) then
        Raise (ValueError "Date is not valid")
      else Ret (PyNone, set_dates self (epochs * 2) start_date end_date)
  end.

(** [str(date_obj + datetime.timedelta(n // 2))] *)
Definition date_string (date_obj : date) (n : Z) : outcome string :=
  d ← add_days date_obj (n / 2);
  Ret (isoformat d).

(** The [while] loop of [increment_date], entered with the current [incr]
    and [adjusted_date].  Every round adds one to [incr] and the loop is
    left, by [raise], once [incr] is 20, so 19 rounds are all it can make;
    [fuel] counts them down. *)
Fixpoint search_valid_date (fuel : nat) (dates : list string)
  (date_obj : date) (epochs incr : Z) (adjusted_date : string)
  : outcome Z :=
  if contains dates adjusted_date then Ret incr
  else match fuel with
       | O => Raise (Exception_ "fuel")
       | S fuel =>
           let incr := incr + 1 in
           adjusted_date ← date_string date_obj (epochs + incr);
           if incr >=? 20 then
             Raise (Exception_ (adjusted_date ++ " is out of range"))
           else
             search_valid_date fuel dates date_obj epochs incr adjusted_date
       end.

(** The two lines that [increment_date] and [get_date_and_time] share:
    [start_arr = list(map(lambda x: int(x), re.split(r"[\-]", self.start_date)))]
    and [datetime.date(start_arr[2], start_arr[0], start_arr[1])]. *)
Definition start_date_obj (self : t) : outcome date :=
  start_date ← getattr "start_date" (start_date self);
  parse_date start_date.

Definition increment_date (self : t) : outcome t :=
  let incr := 1 in
  date_obj ← start_date_obj self;
  s ← getitem (stock_names self) 0;
  epochs ← getattr "epochs" (epochs self);
  adjusted_date ← date_string date_obj (epochs + incr);
  incr ← search_valid_date 19 (valid_dates self) date_obj epochs incr
          adjusted_date;
  Ret (set_epochs self (epochs + incr)).

(** The date string [increment_date] looks at for the increment [incr]. *)
Definition date_ahead (self : t) (incr : Z) : outcome string :=
  date_obj ← start_date_obj self;
  epochs ← getattr "epochs" (epochs self);
  date_string date_obj (epochs + incr).

(** Every increment from [from] up to, and without, [to] leads to a date
    string that the calendar [dates] does not have. *)
Definition all_invalid (dates : list string) (date_obj : date)
  (epochs from to : Z) : Prop :=
  forall j, from <= j < to ->
    exists s, date_string date_obj (epochs + j) = Ret s
              /\ contains dates s = false.

(** The same, decided for the [n] increments from [from] on. *)
Fixpoint check_invalid (dates : list string) (date_obj : date)
  (epochs from : Z) (n : nat) : bool :=
  match n with
  | O => true
  | S n =>
      match date_string date_obj (epochs + from) with
      | Ret s => negb (contains dates s)
      | Raise _ => false
      end
      && check_invalid dates date_obj epochs (from + 1) n
  end.

Definition is_done (self : t) : outcome bool :=
  epochs ← getattr "epochs" (epochs self);
  max_epochs ← getattr "max_epochs" (max_epochs self);
  Ret (epochs >=? max_epochs).

Definition get_date_and_time (self : t) : outcome (string * string) :=
  epochs ← getattr "epochs" (epochs self);
  let time := if epochs mod 2 =? 0 then "Open" else "Close" in
  date_obj ← start_date_obj self;
  date_obj ← add_days date_obj (epochs / 2);
  Ret (isoformat date_obj, time).

Definition calculate_reward (self : t) (holdings : list Q)
  (remaining_money : Q) (stock_prices_new : list Q) : outcome Q :=
  values ← Np.mul holdings stock_prices_new;
  Ret (remaining_money + Np.sum values - starting_amount self)%Q.

(** The values [random.randint] hands out during one [reset]. *)
Record draws : Type := mk_draws {
  drawn_money : Z;
  drawn_shares : list Z;
  drawn_epoch : Z
}.

(** [random.randint(a, b)] with [drawn] as the value the generator
    yields; an empty range is an error. *)
Definition randint (a b drawn : Z) : outcome Z :=
  if a <=? b then Ret drawn else Raise (ValueError "empty range for randrange()").

(** [int(x)] on a float: truncation towards zero. *)
Definition int_of_float (x : Q) : Z := Z.quot (Qnum x) (Zpos (Qden x)).

Definition initialize_starting_epoch (rnd : draws) (self : t)
  (start_date end_date : string) : outcome t :=
  self ←
    (if random_start self then
       date1 ← comprehension int (re_split_hyphen start_date);
       date2 ← comprehension int (re_split_hyphen end_date);
       date1_obj ← date_of_tokens date1;
       date2_obj ← date_of_tokens date2;
       e ← randint (-1)
             (int_of_float
                (inject_Z (days_between date2_obj date1_obj) * (2 # 10))%Q)
             (drawn_epoch rnd);
       Ret (set_epochs self e)
     else Ret (set_epochs self (-1)));
  increment_date self.

Section Market.

Variable price_data : string -> string -> option (list Q).

(** [State.get_new_holdings] is not among the sources: from the state, the
    action and the current prices it yields the new holdings and the
    remaining money. *)
Variable get_new_holdings :
  State.t -> list Q -> list Q -> outcome (list Q * Q).

Definition step (self : t) (action : list Q)
  : outcome (State.t * Q * bool * t) :=
  '(current_date, current_time) ← get_date_and_time self;
  st ← getattr "state" (state self);
  stock_prices_old ←
    State.get_stock_prices price_data st current_date current_time;
  '(holdings, remaining_money) ← get_new_holdings st action stock_prices_old;
  self ← increment_date self;
  '(new_date, new_time) ← get_date_and_time self;
  stock_prices_new ←
    State.get_stock_prices price_data st new_date new_time;
  let st := State.advance_state st remaining_money holdings new_date new_time in
  let self := set_state self st in
  reward ← calculate_reward self holdings remaining_money stock_prices_new;
  done ← is_done self;
  Ret (st, reward, done, self).

(** [follows a b]: the environment [b] comes from [a] by some number of
    [step] calls, each of which returned. *)
Inductive follows : t -> t -> Prop :=
| follows_here (a : t) : follows a a
| follows_step (a b c : t) (action : list Q) (st : State.t) (reward : Q)
    (done : bool) :
    follows a b -> step b action = Ret (st, reward, done, c) -> follows a c.

Fixpoint randints (a b : Z) (n : nat) (drawn : list Z) : outcome (list Z) :=
  match n with
  | O => Ret []
  | S n =>
      x ← randint a b (hd 0 drawn);
      xs ← randints a b n (tl drawn);
      Ret (x :: xs)
  end.

Definition reset (rnd : draws) (self : t) (init : bool)
  : outcome (State.t * t) :=
  '(starting_money, starting_shares) ←
    (if random_start self then
       m ← randint (starting_amount_lower self) (starting_amount_upper self)
             (drawn_money rnd);
       sh ← randints 0 10 (Z.to_nat (number_of_stocks self))
              (drawn_shares rnd);
       Ret (m, sh)
     else
       Ret (starting_amount_upper self,
            repeat 0 (Z.to_nat (number_of_stocks self))));
  let starting_money := inject_Z starting_money in
  let starting_shares := map inject_Z starting_shares in
  sd ← getattr "start_date" (start_date self);
  ed ← getattr "end_date" (end_date self);
  self ← initialize_starting_epoch rnd self sd ed;
  '(current_date, current_time) ← get_date_and_time self;
  st ←
    (if init then
       Ret (State.mk (stock_names self) starting_money starting_shares
              current_date current_time)
     else
       old ← getattr "state" (state self);
       Ret (State.reset old starting_money starting_shares
              current_date current_time));
  let self := set_state self st in
  v ← State.calculate_portfolio_value price_data st;
  let self := set_starting_amount self v in
  Ret (st, self).

(** [StockEnv(stock_names, start_date, end_date, ...)], with [csv_dates]
    the [Date] column that [pd.read_csv] finds in the calendar file.  The
    value of [initialize_date] is paired with a string and dropped.  The
    starting amounts are not assigned before [initialize_date] has run,
    which does not read them; the record holds zeros until then.  The
    [action_space] of the gym library is left out. *)
Definition __init__ (csv_dates : list string) (rnd : draws)
  (stock_names : list string) (start_date end_date : string)
  (starting_amount_lower starting_amount_upper : Z) (random_start : bool)
  : outcome t :=
  let self :=
    mk random_start csv_dates (Z.of_nat (length stock_names)) stock_names
       None None None 0 0 0%Q None None in
  '(_, self) ← initialize_date self start_date end_date;
  let self := set_amounts self starting_amount_lower starting_amount_upper in
  '(_, self) ← reset rnd self true;
  Ret self.

(** [calculate_portfolio_value] of the environment: that of its state. *)
Definition calculate_portfolio_value (self : t) : outcome Q :=
  st ← getattr "state" (state self);
  State.calculate_portfolio_value price_data st.

(** A run of [step] calls, one per action, each on the environment the
    one before has left; the flag is the [done] of the last call, or
    [None] when there was no call. *)
Fixpoint steps (self : t) (last : option bool) (actions : list (list Q))
  : outcome (option bool * t) :=
  match actions with
  | [] => Ret (last, self)
  | action :: rest =>
      '(_, _, done, self) ← step self action;
      steps self (Some done) rest
  end.

End Market.

(** The exceptions of the date check and of the calls it makes. *)
Definition date_error (e : exn) : Prop :=
  (exists msg, e = ValueError msg) \/ e = IndexError \/ e = OverflowError.

(** A date written MM-DD-YYYY, the form the constructor reads. *)
Definition format_mdy (d : date) : string :=
  (two_digits (month d) ++ "-" ++ two_digits (day d) ++ "-"
   ++ four_digits (year d))%string.

(** A token that [initialize_date] lets through its loop: digits only,
    standing for a positive number. *)
Definition numeric_token (tok : string) : Prop :=
  isdigit tok = true /\ exists n, int tok = Ret n /\ 0 < n.

(** A date of the calendar of [datetime]. *)
Definition valid_date (d : date) : Prop :=
  MINYEAR <= year d <= MAXYEAR /\ 1 <= month d <= 12
  /\ 1 <= day d <= days_in_month (year d) (month d).

End StockEnv.

(** ** [ReplayBuffer] *)

Module ReplayBuffer.

Record t : Type := mk {
  max_size : nat;
  ptr : nat;
  size : nat;
  action : list (list Q);
  state : list (list Q);
  next_state : list (list Q);
  reward : list Q;
  not_done : list Q
}.

(** [np.zeros((rows, cols))] *)
Definition zeros (rows cols : nat) : list (list Q) :=
  repeat (repeat 0%Q cols) rows.

Definition __init__ (state_dim action_dim max_size : nat) : t :=
  mk max_size 0 0
     (zeros max_size action_dim) (zeros max_size state_dim)
     (zeros max_size state_dim) (repeat 0%Q max_size) (repeat 0%Q max_size).

(** A vector as it lands in a row of [width] entries: as it is when the
    shapes agree, repeated when it has a single entry, refused otherwise. *)
Definition broadcast_to (width : nat) (v : list Q) : outcome (list Q) :=
  if (length v =? width)%nat then Ret v
  else match v with
       | [x] => Ret (repeat x width)
       | _ => Raise (ValueError "could not broadcast input array")
       end.

(** [arr[i] = v] for a row of a two-dimensional array. *)
Definition set_row (arr : list (list Q)) (i : nat) (v : list Q)
  : outcome (list (list Q)) :=
  match arr !! i with
  | None => Raise IndexError
  | Some row =>
      v ← broadcast_to (length row) v;
      Ret (<[i := v]> arr)
  end.

(** [arr[i] = x] for a scalar stored in a column of width one. *)
Definition set_cell (arr : list Q) (i : nat) (x : Q) : outcome (list Q) :=
  match arr !! i with
  | None => Raise IndexError
  | Some _ => Ret (<[i := x]> arr)
  end.

(** On a buffer of capacity zero the first assignment already raises, so
    the remainder by [max_size] is only taken of a positive capacity. *)
Definition add (self : t) (state action next_state : list Q)
  (reward done : Q) : outcome t :=
  next_state' ← set_row (ReplayBuffer.next_state self) (ptr self) next_state;
  action' ← set_row (ReplayBuffer.action self) (ptr self) action;
  state' ← set_row (ReplayBuffer.state self) (ptr self) state;
  reward' ← set_cell (ReplayBuffer.reward self) (ptr self) reward;
  not_done' ← set_cell (not_done self) (ptr self) (1 - done)%Q;
  let ptr' := ((ptr self + 1) mod max_size self)%nat in
  let size' := Nat.min (size self + 1) (max_size self) in
  Ret (mk (max_size self) ptr' size' action' state' next_state' reward'
          not_done').

(** The arguments of one [add], and a run of [add] calls. *)
Record transition : Type := mk_transition {
  t_state : list Q;
  t_action : list Q;
  t_next_state : list Q;
  t_reward : Q;
  t_done : Q
}.

Definition add_transition (self : t) (tr : transition) : outcome t :=
  add self (t_state tr) (t_action tr) (t_next_state tr) (t_reward tr)
    (t_done tr).

Fixpoint adds (self : t) (trs : list transition) : outcome t :=
  match trs with
  | [] => Ret self
  | tr :: rest =>
      self ← add_transition self tr;
      adds self rest
  end.

(** What the five arrays hold at index [i]. *)
Definition entry (self : t) (i : nat)
  : option (list Q * list Q * list Q * Q * Q) :=
  s ← state self !! i;
  a ← action self !! i;
  n ← next_state self !! i;
  r ← reward self !! i;
  d ← not_done self !! i;
  Some (s, a, n, r, d).

(** What [add] leaves in the arrays for a transition of the buffer's
    dimensions. *)
Definition stored (tr : transition) : list Q * list Q * list Q * Q * Q :=
  (t_state tr, t_action tr, t_next_state tr, t_reward tr, (1 - t_done tr)%Q).

Definition fits (state_dim action_dim : nat) (tr : transition) : Prop :=
  length (t_state tr) = state_dim /\ length (t_action tr) = action_dim
  /\ length (t_next_state tr) = state_dim.

(** The shape of a buffer of the given dimensions: five arrays of
    [max_size] rows, rows of the widths fixed at construction, the write
    pointer inside the arrays and [size] within the capacity. *)
Record shaped (state_dim action_dim : nat) (self : t) : Prop := mk_shaped {
  shaped_state : length (state self) = max_size self;
  shaped_action : length (action self) = max_size self;
  shaped_next_state : length (next_state self) = max_size self;
  shaped_reward : length (reward self) = max_size self;
  shaped_not_done : length (not_done self) = max_size self;
  shaped_state_rows : Forall (fun row => length row = state_dim) (state self);
  shaped_action_rows :
    Forall (fun row => length row = action_dim) (action self);
  shaped_next_state_rows :
    Forall (fun row => length row = state_dim) (next_state self);
  shaped_ptr : (ptr self < max_size self)%nat;
  shaped_size : (size self <= max_size self)%nat
}.

(** A vector that an assignment to a row of [width] entries takes: one of
    that width, or one of a single entry. *)
Definition lands (width : nat) (v : list Q) : Prop :=
  length v = width \/ length v = 1%nat.

(** One sampled batch: five arrays with a row per drawn index. *)
Record batch : Type := mk_batch {
  b_state : list (list Q);
  b_action : list (list Q);
  b_next_state : list (list Q);
  b_reward : list (list Q);
  b_not_done : list (list Q)
}.

(** [arr[ind]] *)
Definition take {A} (arr : list A) (ind : list nat) : outcome (list A) :=
  comprehension (getitem arr) ind.

(** A float64 value, as the arrays hold them, within the range of
    float32. *)
Definition float_in_range (x : Q) : Prop :=
  Float64.representable x /\ Float32.finite x.

(** Every number of the transition is such a value, and so is
    [1 - done]. *)
Definition in_floats (tr : transition) : Prop :=
  Forall float_in_range (t_state tr) /\ Forall float_in_range (t_action tr)
  /\ Forall float_in_range (t_next_state tr)
  /\ float_in_range (t_reward tr) /\ float_in_range (1 - t_done tr).

(** [torch.FloatTensor(arr)]: the float64 rows copied into float32. *)
Definition FloatTensor (arr : list (list Q)) : list (list Q) :=
  map (map Float32.round) arr.

(** [sample(batch_size)], with [ind] the [batch_size] indices that
    [np.random.randint(0, self.size, size=batch_size)] draws: over an
    empty range it raises, unless no index is asked for. *)
Definition sample (self : t) (ind : list nat) : outcome batch :=
  if (size self =? 0)%nat && negb (length ind =? 0)%nat
  then Raise (ValueError "low >= high")
  else
    s ← take (state self) ind;
    a ← take (action self) ind;
    n ← take (next_state self) ind;
    r ← take (reward self) ind;
    d ← take (not_done self) ind;
    Ret (mk_batch (FloatTensor s) (FloatTensor a) (FloatTensor n)
           (FloatTensor (map (fun x => [x]) r))
           (FloatTensor (map (fun x => [x]) d))).

End ReplayBuffer.

(** ** The networks and [DDPG] *)

Module DDPG.

(** A parameter tensor, flattened, and a batch of rows. *)
Abbreviation tensor := (list Q).
Abbreviation rows := (list (list Q)).

Record Linear : Type := mk_linear { weight : tensor; bias : tensor }.

Record Actor : Type := mk_actor {
  a_l1 : Linear; a_l2 : Linear; a_l3 : Linear;
  a_prelu1 : tensor; a_prelu2 : tensor;
  a_max_action : Q
}.

Record Critic : Type := mk_critic {
  c_l1 : Linear; c_prelu1 : tensor;
  c_l2 : Linear; c_prelu2 : tensor;
  c_l3 : Linear
}.

(** [parameters()], in the order the layers are registered. *)
Definition Actor_parameters (n : Actor) : list tensor :=
  [weight (a_l1 n); bias (a_l1 n); weight (a_l2 n); bias (a_l2 n);
   weight (a_l3 n); bias (a_l3 n); a_prelu1 n; a_prelu2 n].

Definition Critic_parameters (n : Critic) : list tensor :=
  [weight (c_l1 n); bias (c_l1 n); c_prelu1 n; weight (c_l2 n);
   bias (c_l2 n); c_prelu2 n; weight (c_l3 n); bias (c_l3 n)].

(** Writing a list of tensors back into the parameters, as the in-place
    [copy_] on each of them does. *)
Definition Actor_assign (n : Actor) (ps : list tensor) : Actor :=
  match ps with
  | [w1; b1; w2; b2; w3; b3; p1; p2] =>
      mk_actor (mk_linear w1 b1) (mk_linear w2 b2) (mk_linear w3 b3) p1 p2
        (a_max_action n)
  | _ => n
  end.

Definition Critic_assign (n : Critic) (ps : list tensor) : Critic :=
  match ps with
  | [w1; b1; p1; w2; b2; p2; w3; b3] =>
      mk_critic (mk_linear w1 b1) p1 (mk_linear w2 b2) p2 (mk_linear w3 b3)
  | _ => n
  end.

(** Elementwise arithmetic on tensors of one shape. *)
Definition scale (k : Q) (x : rows) : rows := map (map (Qmult k)) x.
Definition scale_r (x : rows) (k : Q) : rows :=
  map (map (fun v => Qmult v k)) x.
Definition tmul (x y : rows) : rows := zip_with (zip_with Qmult) x y.
Definition tadd (x y : rows) : rows := zip_with (zip_with Qplus) x y.

(** [torch.cat([state, action], 1)] *)
Definition cat (state action : rows) : rows := zip_with app state action.

(** Two networks whose parameters have the same shapes. *)
Definition same_shapes (ps qs : list tensor) : Prop :=
  Forall2 (fun p q => length p = length q) ps qs.

(** [self.tau * param.data + (1 - self.tau) * target_param.data] for one
    entry of a float32 tensor: [1 - self.tau] is a Python float, a scalar
    is taken to float32 where it meets the tensor, and the two products
    and the sum are each rounded to float32. *)
Definition soft_update_entry (tau p t : Q) : Q :=
  let a := Float32.round (Float32.round tau * p) in
  let b := Float32.round (Float32.round (Float64.round (1 - tau)) * t) in
  Float32.round (a + b).

Definition soft_update (tau : Q) (param target_param : tensor) : tensor :=
  zip_with (soft_update_entry tau) param target_param.

(** The values of one such update are floats and stay finite: [tau] is a
    Python float, [p] and [t] are float32 values, and no step of the
    computation overflows. *)
Definition in_floats (tau p t : Q) : Prop :=
  Float64.representable tau /\ Float32.representable p
  /\ Float32.representable t
  /\ Float32.finite tau /\ Float64.finite (1 - tau)
  /\ Float32.finite (Float64.round (1 - tau))
  /\ Float32.finite (Float32.round tau * p)
  /\ Float32.finite (Float32.round (Float64.round (1 - tau)) * t)
  /\ Float32.finite
       (Float32.round (Float32.round tau * p)
        + Float32.round (Float32.round (Float64.round (1 - tau)) * t)).

(** [t'] lies strictly between [p] and [t], or is equal to both when they
    are equal. *)
Definition between (p t t' : Q) : Prop :=
  (p < t -> p < t' /\ t' < t)%Q
  /\ (t < p -> t < t' /\ t' < p)%Q
  /\ (p == t -> t' == p /\ t' == t)%Q.

(** The parameters [target'] have the shapes of [target], and every
    entry of [target'] is the soft update of the entries of [live] and
    [target] at its place. *)
Definition tracks (tau : Q) (live target target' : list tensor) : Prop :=
  same_shapes target' target
  /\ forall i j T t,
       target !! i = Some T -> T !! j = Some t ->
       exists P p T' t',
         live !! i = Some P /\ P !! j = Some p
         /\ target' !! i = Some T' /\ T' !! j = Some t'
         /\ (in_floats tau p t -> t' = soft_update_entry tau p t).

(** The update as the specification words it: every entry of [target']
    is [tau * p + (1 - tau) * t] for the entries [p] of [live] and [t] of
    [target] at its place, and for [tau] strictly between 0 and 1 it lies
    strictly between the two, or is equal to both when they are equal. *)
Definition tracks_claimed (tau : Q) (live target target' : list tensor)
  : Prop :=
  forall i j P T p t,
    live !! i = Some P -> target !! i = Some T ->
    P !! j = Some p -> T !! j = Some t ->
    exists T' t',
      target' !! i = Some T' /\ T' !! j = Some t'
      /\ (t' == tau * p + (1 - tau) * t)%Q
      /\ ((0 < tau)%Q -> (tau < 1)%Q -> between p t t').

(** At the two ends of [tau]: with [tau] one every entry of [target'] is
    the entry of [live] at its place, with [tau] zero that of [target],
    for entries that are float32 values. *)
Definition takes_ends (tau : Q) (live target target' : list tensor)
  : Prop :=
  forall i j P T p t,
    live !! i = Some P -> target !! i = Some T ->
    P !! j = Some p -> T !! j = Some t ->
    exists T' t',
      target' !! i = Some T' /\ T' !! j = Some t'
      /\ (Float32.representable p -> Float32.representable t ->
          ((tau == 1)%Q -> (t' == p)%Q) /\ ((tau == 0)%Q -> (t' == t)%Q)).

Section Layers.

(** The layers of the numerical library: [nn.Linear], [nn.PReLU] and
    [torch.tanh], each applied to a batch. *)
Variable linear : Linear -> rows -> rows.
Variable prelu : tensor -> rows -> rows.
Variable tanh : rows -> rows.

Definition Actor_forward (self : Actor) (state : rows) : rows :=
  let a := prelu (a_prelu1 self) (linear (a_l1 self) state) in
  let a := prelu (a_prelu2 self) (linear (a_l2 self) a) in
  let a := scale (a_max_action self) (tanh (linear (a_l3 self) a)) in
  a.

Definition Critic_forward (self : Critic) (state action : rows) : rows :=
  let sa := cat state action in
  let q := prelu (c_prelu1 self) (linear (c_l1 self) sa) in
  let q := prelu (c_prelu2 self) (linear (c_l2 self) q) in
  let q := linear (c_l3 self) q in
  q.

Definition Critic_Q1 (self : Critic) (state action : rows) : rows :=
  let sa := cat state action in
  let q1 := prelu (c_prelu1 self) (linear (c_l1 self) sa) in
  let q1 := prelu (c_prelu2 self) (linear (c_l2 self) q1) in
  let q1 := linear (c_l3 self) q1 in
  q1.

(** The state of an Adam optimizer, and one [zero_grad(); backward();
    step()] round on each network: the new parameters come from the old
    ones, the optimizer state and whatever the loss is computed from. *)
Variable optimizer : Type.
Variable critic_step :
  optimizer -> Critic -> rows -> rows -> rows -> Critic * optimizer.
Variable actor_step :
  optimizer -> Actor -> Critic -> rows -> Actor * optimizer.

Record t : Type := mk {
  actor : Actor;
  actor_target : Actor;
  actor_optimizer : optimizer;
  critic : Critic;
  critic_target : Critic;
  critic_optimizer : optimizer;
  max_action : Q;
  discount : Q;
  tau : Q;
  policy_noise : Q;
  noise_clip : Q;
  policy_freq : Z;
  total_it : Z
}.

Definition select_action (self : t) (state : rows) : rows :=
  Actor_forward (actor self) state.

(** The [with torch.no_grad()] block of [train]. *)
Definition target_Q (self : t) (b : ReplayBuffer.batch) : rows :=
  let next_action :=
    Actor_forward (actor_target self) (ReplayBuffer.b_state b) in
  let target_Q :=
    Critic_forward (critic_target self) (ReplayBuffer.b_next_state b)
      next_action in
  tadd (ReplayBuffer.b_reward b)
       (tmul (scale_r (ReplayBuffer.b_not_done b) (discount self)) target_Q).

(** The same block as the specification words it, with the target actor
    applied to [next_state]. *)
Definition target_Q_claimed (self : t) (b : ReplayBuffer.batch) : rows :=
  let target_action :=
    Actor_forward (actor_target self) (ReplayBuffer.b_next_state b) in
  let target_Q :=
    Critic_forward (critic_target self) (ReplayBuffer.b_next_state b)
      target_action in
  tadd (ReplayBuffer.b_reward b)
       (tmul (scale_r (ReplayBuffer.b_not_done b) (discount self)) target_Q).

Definition train (self : t) (replay_buffer : ReplayBuffer.t)
  (ind : list nat) : outcome t :=
  let total_it := total_it self + 1 in
  b ← ReplayBuffer.sample replay_buffer ind;
  let target := target_Q self b in
  let '(critic', critic_optimizer') :=
    critic_step (critic_optimizer self) (critic self)
      (ReplayBuffer.b_state b) (ReplayBuffer.b_action b) target in
  let '(actor', actor_optimizer') :=
    actor_step (actor_optimizer self) (actor self) critic'
      (ReplayBuffer.b_state b) in
  let critic_target' :=
    Critic_assign (critic_target self)
      (zip_with (soft_update (tau self)) (Critic_parameters critic')
         (Critic_parameters (critic_target self))) in
  let actor_target' :=
    Actor_assign (actor_target self)
      (zip_with (soft_update (tau self)) (Actor_parameters actor')
         (Actor_parameters (actor_target self))) in
  Ret (mk actor' actor_target' actor_optimizer' critic' critic_target'
          critic_optimizer' (max_action self) (discount self) (tau self)
          (policy_noise self) (noise_clip self) (policy_freq self) total_it).

End Layers.

Arguments actor {optimizer} _.
Arguments actor_target {optimizer} _.
Arguments actor_optimizer {optimizer} _.
Arguments critic {optimizer} _.
Arguments critic_target {optimizer} _.
Arguments critic_optimizer {optimizer} _.
Arguments max_action {optimizer} _.
Arguments discount {optimizer} _.
Arguments tau {optimizer} _.
Arguments policy_noise {optimizer} _.
Arguments noise_clip {optimizer} _.
Arguments policy_freq {optimizer} _.
Arguments total_it {optimizer} _.

(** [save] and [load].  The files are a list of names with their
    contents, the latest written first; a file holds the [state_dict] of a
    network, its tensors under the names of its parameters, or the state
    of an optimizer.  A tensor is kept flattened here, so that its shape
    is its length. *)
Section Persist.

Variable optimizer : Type.

Inductive blob : Type :=
| StateDict (entries : list (string * tensor))
| OptimizerState (o : optimizer).

Definition files : Type := list (string * blob).

Inductive torch_error : Type :=
| FileNotFoundError
| RuntimeError
| KeyError.

Inductive loaded (A : Type) : Type :=
| Loaded (a : A)
| Failed (e : torch_error).
Arguments Loaded {A} a.
Arguments Failed {A} e.

#[local] Instance loaded_bind : MBind loaded := fun A B f m =>
  match m with
  | Loaded a => f a
  | Failed e => Failed e
  end.

(** [torch.save(obj, name)] and [torch.load(name)] *)
Definition torch_save (obj : blob) (name : string) (fs : files) : files :=
  (name, obj) :: fs.

Fixpoint torch_load (name : string) (fs : files) : loaded blob :=
  match fs with
  | [] => Failed FileNotFoundError
  | (n, obj) :: rest =>
      if String.eqb n name then Loaded obj else torch_load name rest
  end.

(** [state_dict()] of the two networks. *)
Definition Actor_state_dict (n : Actor) : list (string * tensor) :=
  [("l1.weight", weight (a_l1 n)); ("l1.bias", bias (a_l1 n));
   ("l2.weight", weight (a_l2 n)); ("l2.bias", bias (a_l2 n));
   ("l3.weight", weight (a_l3 n)); ("l3.bias", bias (a_l3 n));
   ("prelu1.weight", a_prelu1 n); ("prelu2.weight", a_prelu2 n)].

Definition Critic_state_dict (n : Critic) : list (string * tensor) :=
  [("l1.weight", weight (c_l1 n)); ("l1.bias", bias (c_l1 n));
   ("prelu1.weight", c_prelu1 n);
   ("l2.weight", weight (c_l2 n)); ("l2.bias", bias (c_l2 n));
   ("prelu2.weight", c_prelu2 n);
   ("l3.weight", weight (c_l3 n)); ("l3.bias", bias (c_l3 n))].

Fixpoint find_key (key : string) (d : list (string * tensor))
  : option tensor :=
  match d with
  | [] => None
  | (k, v) :: rest => if String.eqb k key then Some v else find_key key rest
  end.

(** The tensors that [load_state_dict] copies into the parameters [own]:
    every parameter must be in the dictionary, with the shape it has. *)
Fixpoint copy_entries (own : list (string * tensor))
  (d : list (string * tensor)) : loaded (list tensor) :=
  match own with
  | [] => Loaded []
  | (k, old) :: rest =>
      match find_key k d with
      | None => Failed RuntimeError
      | Some v =>
          if (length v =? length old)%nat then
            vs ← copy_entries rest d;
            Loaded (v :: vs)
          else Failed RuntimeError
      end
  end.

(** [load_state_dict(d)], strict: a key of [d] that names no parameter is
    an error as well. *)
Definition load_entries (own : list (string * tensor))
  (d : list (string * tensor)) : loaded (list tensor) :=
  if forallb (fun kv => existsb (String.eqb (fst kv)) (map fst own)) d
  then copy_entries own d
  else Failed RuntimeError.

Definition Actor_load_state_dict (n : Actor) (obj : blob) : loaded Actor :=
  match obj with
  | StateDict d =>
      ps ← load_entries (Actor_state_dict n) d;
      Loaded (Actor_assign n ps)
  | OptimizerState _ => Failed RuntimeError
  end.

Definition Critic_load_state_dict (n : Critic) (obj : blob)
  : loaded Critic :=
  match obj with
  | StateDict d =>
      ps ← load_entries (Critic_state_dict n) d;
      Loaded (Critic_assign n ps)
  | OptimizerState _ => Failed RuntimeError
  end.

(** [load_state_dict] of an optimizer: its state is taken over whole; a
    dictionary without [param_groups] is a [KeyError]. *)
Definition optimizer_load_state_dict (obj : blob) : loaded optimizer :=
  match obj with
  | OptimizerState o => Loaded o
  | StateDict _ => Failed KeyError
  end.

Definition save (self : t optimizer) (filename : string) (fs : files)
  : files :=
  let fs :=
    torch_save (StateDict (Critic_state_dict (critic self)))
      (filename ++ "_critic") fs in
  let fs :=
    torch_save (OptimizerState (critic_optimizer self))
      (filename ++ "_critic_optimizer") fs in
  let fs :=
    torch_save (StateDict (Actor_state_dict (actor self)))
      (filename ++ "_actor") fs in
  torch_save (OptimizerState (actor_optimizer self))
    (filename ++ "_actor_optimizer") fs.

Definition load (self : t optimizer) (filename : string) (fs : files)
  : loaded (t optimizer) :=
  obj ← torch_load (filename ++ "_critic") fs;
  critic' ← Critic_load_state_dict (critic self) obj;
  obj ← torch_load (filename ++ "_critic_optimizer") fs;
  critic_optimizer' ← optimizer_load_state_dict obj;
  let critic_target' := critic' in
  obj ← torch_load (filename ++ "_actor") fs;
  actor' ← Actor_load_state_dict (actor self) obj;
  obj ← torch_load (filename ++ "_actor_optimizer") fs;
  actor_optimizer' ← optimizer_load_state_dict obj;
  let actor_target' := actor' in
  Loaded (mk optimizer actor' actor_target' actor_optimizer' critic'
            critic_target' critic_optimizer' (max_action self)
            (discount self) (tau self) (policy_noise self) (noise_clip self)
            (policy_freq self) (total_it self)).

End Persist.

Arguments Loaded {A} a.
Arguments Failed {A} e.

End DDPG.

(** ** The training loop of [run] *)

Module Run.

Definition NUMBER_OF_ITERATIONS : Z := 50000.
Definition MAX_LIMIT : Z := 10.
Definition START_TIMESTEPS : Z := 2500.
Definition BATCH_SIZE : Z := 128.
Definition STD_GAUSSIAN_EXPLORATION_NOISE : Q := 1 # 10.

(** [float(done) if episode_timesteps < env.max_epochs else 0] *)
Definition done_bool (done : bool) (episode_timesteps max_epochs : Z) : Q :=
  if episode_timesteps <? max_epochs then float_of_bool done else 0%Q.

(** The same flag as the specification words it: zero while the episode is
    short of its maximum length, the flag of the environment after. *)
Definition done_bool_claimed (done : bool)
  (episode_timesteps max_epochs : Z) : Q :=
  if episode_timesteps <? max_epochs then 0%Q else float_of_bool done.

Section Loop.

Variable price_data : string -> string -> option (list Q).
Variable get_new_holdings :
  State.t -> list Q -> list Q -> outcome (list Q * Q).

(** [State.to_numpy] is not among the sources: the state as a vector. *)
Variable to_numpy : State.t -> list Q.

Variable linear : DDPG.Linear -> DDPG.rows -> DDPG.rows.
Variable prelu : DDPG.tensor -> DDPG.rows -> DDPG.rows.
Variable tanh : DDPG.rows -> DDPG.rows.
Variable optimizer : Type.
Variable critic_step :
  optimizer -> DDPG.Critic -> DDPG.rows -> DDPG.rows -> DDPG.rows ->
  DDPG.Critic * optimizer.
Variable actor_step :
  optimizer -> DDPG.Actor -> DDPG.Critic -> DDPG.rows ->
  DDPG.Actor * optimizer.

Abbreviation policy_t := (DDPG.t optimizer).

(** The local variables of [run] that live across iterations.  [state] is
    not among them: it names the object [env.state], which [reset] and
    [step] update in place and hand back. *)
Record locals : Type := mk {
  env : StockEnv.t;
  policy : policy_t;
  replay_buffer : ReplayBuffer.t;
  done : bool;
  episode_reward : Q;
  episode_timesteps : Z;
  episode_num : Z
}.

(** What the random generators yield during one iteration: the action
    drawn from the action space, the exploration noise, the [BATCH_SIZE]
    indices of the sampled batch and the draws of a [reset]. *)
Record chance : Type := mk_chance {
  sampled_action : list Z;
  noise : list Q;
  train_ind : list nat;
  reset_draws : StockEnv.draws
}.

(** The action of iteration [t]; a vector is passed to the actor as a
    batch of one row. *)
Definition choose_action (t : Z) (c : chance) (l : locals)
  : outcome (list Q) :=
  if t <? START_TIMESTEPS then Ret (map inject_Z (sampled_action c))
  else
    st ← getattr "state" (StockEnv.state (env l));
    let a :=
      hd [] (DDPG.select_action linear prelu tanh optimizer (policy l)
               [to_numpy st]) in
    a ← Np.add a (noise c);
    let a := Np.clip (inject_Z (- MAX_LIMIT)) (inject_Z MAX_LIMIT) a in
    Ret (map (fun x => inject_Z (StockEnv.int_of_float x)) a).

(** The body of [for t in range(NUMBER_OF_ITERATIONS)], without the
    progress bar. *)
Definition iteration (t : Z) (c : chance) (l : locals) : outcome locals :=
  let episode_timesteps := episode_timesteps l + 1 in
  action ← choose_action t c l;
  '(next_state, reward, done, env) ←
    StockEnv.step price_data get_new_holdings (env l) action;
  max_epochs ← getattr "max_epochs" (StockEnv.max_epochs env);
  let done_bool := done_bool done episode_timesteps max_epochs in
  st ← getattr "state" (StockEnv.state env);
  replay_buffer ←
    ReplayBuffer.add (replay_buffer l) (to_numpy st) action
      (to_numpy next_state) reward done_bool;
  let episode_reward := (episode_reward l + reward)%Q in
  policy ←
    (if t >=? START_TIMESTEPS then
       DDPG.train linear prelu tanh optimizer critic_step actor_step
         (policy l) replay_buffer (train_ind c)
     else Ret (policy l));
  if done then
    '(_, env) ← StockEnv.reset price_data (reset_draws c) env false;
    Ret (mk env policy replay_buffer false 0%Q 0 (episode_num l + 1))
  else
    Ret (mk env policy replay_buffer done episode_reward episode_timesteps
            (episode_num l)).

(** The iterations [t], [t + 1], ... of the loop, one per entry of the
    list of random outcomes. *)
Fixpoint iterations (t : Z) (cs : list chance) (l : locals)
  : outcome locals :=
  match cs with
  | [] => Ret l
  | c :: rest =>
      l ← iteration t c l;
      iterations (t + 1) rest l
  end.

End Loop.

Arguments env {optimizer} _.
Arguments policy {optimizer} _.
Arguments replay_buffer {optimizer} _.
Arguments done {optimizer} _.
Arguments episode_reward {optimizer} _.
Arguments episode_timesteps {optimizer} _.
Arguments episode_num {optimizer} _.

(** ** [append_portfolio_value] and [test] *)

Section Test.

Variable price_data : string -> string -> option (list Q).
Variable get_new_holdings :
  State.t -> list Q -> list Q -> outcome (list Q * Q).
Variable to_numpy : State.t -> list Q.
Variable linear : DDPG.Linear -> DDPG.rows -> DDPG.rows.
Variable prelu : DDPG.tensor -> DDPG.rows -> DDPG.rows.
Variable tanh : DDPG.rows -> DDPG.rows.
Variable optimizer : Type.
Variable critic_step :
  optimizer -> DDPG.Critic -> DDPG.rows -> DDPG.rows -> DDPG.rows ->
  DDPG.Critic * optimizer.
Variable actor_step :
  optimizer -> DDPG.Actor -> DDPG.Critic -> DDPG.rows ->
  DDPG.Actor * optimizer.

(** [round(value, 2)] on a float, left to the numerical library. *)
Variable round2 : Q -> Q.

(** The data frame of [test]: its rows in order, each with its index
    label and its [Portfolio Value]; the column [Date] is never filled. *)
Definition frame : Type := list (string * Q).

Definition append_portfolio_value (df : frame) (env : StockEnv.t)
  : outcome frame :=
  value ← StockEnv.calculate_portfolio_value price_data env;
  '(date, time) ← StockEnv.get_date_and_time env;
  let time := if String.eqb time "Open" then "09:30AM" else "04:00PM" in
  let datetime := (date ++ " " ++ time)%string in
  Ret (df ++ [(datetime, round2 value)])%list.

(** The variables of [test] that live across the rounds of its loop; the
    policy and the buffer are the arguments, updated in place. *)
Record test_locals : Type := mk_test {
  test_env : StockEnv.t;
  test_policy : DDPG.t optimizer;
  test_replay_buffer : ReplayBuffer.t;
  test_done : bool;
  test_episode_reward : Q;
  test_df : frame
}.

(** The body of [while not done]. *)
Definition test_round (c : chance) (l : test_locals) : outcome test_locals :=
  st ← getattr "state" (StockEnv.state (test_env l));
  let a :=
    hd [] (DDPG.select_action linear prelu tanh optimizer (test_policy l)
             [to_numpy st]) in
  a ← Np.add a (noise c);
  let action := Np.clip (inject_Z (- MAX_LIMIT)) (inject_Z MAX_LIMIT) a in
  '(next_state, reward, done, env) ←
    StockEnv.step price_data get_new_holdings (test_env l) action;
  let done_bool := float_of_bool done in
  st ← getattr "state" (StockEnv.state env);
  replay_buffer ←
    ReplayBuffer.add (test_replay_buffer l) (to_numpy st) action
      (to_numpy next_state) reward done_bool;
  let episode_reward := (test_episode_reward l + reward)%Q in
  policy ←
    DDPG.train linear prelu tanh optimizer critic_step actor_step
      (test_policy l) replay_buffer (train_ind c);
  df ← append_portfolio_value (test_df l) env;
  Ret (mk_test env policy replay_buffer done episode_reward df).

(** [while not done], with the random outcomes of its rounds, one per
    round: [None] when these are used up and the loop is still running,
    the outcome of the loop otherwise. *)
Fixpoint test_loop (cs : list chance) (l : test_locals)
  : option (outcome test_locals) :=
  if test_done l then Some (Ret l)
  else match cs with
       | [] => None
       | c :: rest =>
           match test_round c l with
           | Ret l => test_loop rest l
           | Raise e => Some (Raise e)
           end
       end.

(** [test(stock_names, start_date, end_date, policy, replay_buffer)], up
    to the frame that [to_csv] writes. *)
Definition test (csv_dates : list string) (rnd : StockEnv.draws)
  (stock_names : list string) (start_date end_date : string)
  (policy : DDPG.t optimizer) (replay_buffer : ReplayBuffer.t)
  (cs : list chance) : option (outcome test_locals) :=
  let setup :=
    env ← StockEnv.__init__ price_data csv_dates rnd stock_names start_date
            end_date 10000 50000 false;
    '(state, env) ← StockEnv.reset price_data rnd env false;
    let episode_reward := 0%Q in
    df ← append_portfolio_value [] env;
    Ret (mk_test env policy replay_buffer false episode_reward df) in
  match setup with
  | Ret l => test_loop cs l
  | Raise e => Some (Raise e)
  end.

End Test.

Arguments test_env {optimizer} _.
Arguments test_policy {optimizer} _.
Arguments test_replay_buffer {optimizer} _.
Arguments test_done {optimizer} _.
Arguments test_episode_reward {optimizer} _.
Arguments test_df {optimizer} _.

End Run.

(** ** A small market to run the definitions on *)

Module Fixture.

(** The trading days of the first days of January 2020. *)
Definition calendar : list string :=
  ["2020-01-02"; "2020-01-03"; "2020-01-06"; "2020-01-07"; "2020-01-08";
   "2020-01-09"; "2020-01-10"].

(** One stock, at 100 when the market opens and 102 when it closes, on
    every day of [calendar]. *)
Definition price_data (date time : string) : option (list Q) :=
  if StockEnv.contains calendar date then
    if String.eqb time "Open" then Some [100%Q] else Some [102%Q]
  else None.

(** Modelled from the spec: [State.get_new_holdings] is not among the
    sources; the new holdings are the old ones plus the action, and the
    remaining cash is the old cash minus the sum of action times price. *)
Definition get_new_holdings (s : State.t) (action prices : list Q)
  : outcome (list Q * Q) :=
  holdings ← Np.add (State.holdings s) action;
  cost ← Np.mul action prices;
  Ret (holdings, (State.cash s - Np.sum cost)%Q).

Definition to_numpy (s : State.t) : list Q := State.cash s :: State.holdings s.

Definition no_draws : StockEnv.draws := StockEnv.mk_draws 0 [] 0.

(** [StockEnv(["SPY"], start_date, end_date, 10000, 10000)] *)
Definition make_env (start_date end_date : string) : outcome StockEnv.t :=
  StockEnv.__init__ price_data calendar no_draws ["SPY"] start_date end_date
    10000 10000 false.

(** The environment over 2 to 11 January 2020, as constructed. *)
Definition env0 : StockEnv.t :=
  StockEnv.mk false calendar 1 ["SPY"] (Some 18) (Some "01-02-2020")
    (Some "01-11-2020") 10000 10000 10000%Q (Some 0)
    (Some (State.mk ["SPY"] 10000%Q [0%Q] "2020-01-02" "Open")).

(** The environment over 3 to 6 January 2020, a Friday to a Monday. *)
Definition weekend_env : StockEnv.t :=
  StockEnv.mk false calendar 1 ["SPY"] (Some 6) (Some "01-03-2020")
    (Some "01-06-2020") 10000 10000 10000%Q (Some 0)
    (Some (State.mk ["SPY"] 10000%Q [0%Q] "2020-01-03" "Open")).

(** A calendar with no trading day from 2 to 11 January, then the
    twelfth: ten days, twenty increments, after the second at opening. *)
Definition gap_calendar : list string := ["2019-12-31"; "2020-01-12"].

Definition gap_env : StockEnv.t :=
  StockEnv.mk false gap_calendar 1 ["SPY"] (Some 40) (Some "01-02-2020")
    (Some "01-22-2020") 10000 10000 10000%Q (Some 0)
    (Some (State.mk ["SPY"] 10000%Q [0%Q] "2020-01-02" "Open")).

(** Layers that add up each row, an optimizer without state, and networks
    without weights: enough to run [train]. *)
Definition linear (l : DDPG.Linear) (x : DDPG.rows) : DDPG.rows :=
  map (fun row => [Np.sum row]) x.
Definition prelu (w : DDPG.tensor) (x : DDPG.rows) : DDPG.rows := x.
Definition tanh (x : DDPG.rows) : DDPG.rows := x.
Definition critic_step (o : unit) (c : DDPG.Critic) (s a q : DDPG.rows)
  : DDPG.Critic * unit := (c, o).
Definition actor_step (o : unit) (a : DDPG.Actor) (c : DDPG.Critic)
  (s : DDPG.rows) : DDPG.Actor * unit := (a, o).

Definition layer (w b : Q) : DDPG.Linear := DDPG.mk_linear [w] [b].

Definition live_actor : DDPG.Actor :=
  DDPG.mk_actor (layer 1 1) (layer 1 1) (layer 1 1) [1%Q] [1%Q] 10.
Definition target_actor : DDPG.Actor :=
  DDPG.mk_actor (layer 0 0) (layer 0 0) (layer 0 0) [0%Q] [0%Q] 10.
Definition live_critic : DDPG.Critic :=
  DDPG.mk_critic (layer 1 1) [1%Q] (layer 1 1) [1%Q] (layer 1 1).
Definition target_critic : DDPG.Critic :=
  DDPG.mk_critic (layer 0 0) [0%Q] (layer 0 0) [0%Q] (layer 0 0).

Definition agent : DDPG.t unit :=
  DDPG.mk unit live_actor target_actor tt live_critic target_critic tt
    10 (95 # 100) (5 # 1000) (2 # 10) (5 # 10) 2 0.

(** A buffer of four slots for states of two entries and actions of one,
    and transitions to put into it. *)
Definition buffer0 : ReplayBuffer.t := ReplayBuffer.__init__ 2 1 4.

Definition transition (n : Z) : ReplayBuffer.transition :=
  ReplayBuffer.mk_transition [inject_Z n; 0%Q] [1%Q] [inject_Z (n + 1); 1%Q]
    (inject_Z n) 0.

(** A batch of one transition whose state and next state differ. *)
Definition one_batch : ReplayBuffer.batch :=
  ReplayBuffer.mk_batch [[1%Q]] [[0%Q]] [[2%Q]] [[0%Q]] [[1%Q]].

(** The locals of [run] on entry to the loop, over [weekend_env]. *)
Definition locals0 :=
  Run.mk unit weekend_env agent buffer0 false 0%Q 0 0.

Definition chance0 : Run.chance :=
  Run.mk_chance [5] [0%Q] [0%nat] no_draws.

(** The locals of the loop over [weekend_env] after its first iteration:
    Friday at closing, one transition stored. *)
Definition locals1 : Run.locals unit :=
  Run.mk unit
    (StockEnv.mk false calendar 1 ["SPY"] (Some 6) (Some "01-03-2020")
       (Some "01-06-2020") 10000 10000 10000%Q (Some 1)
       (Some (State.mk ["SPY"] 9500%Q [5%Q] "2020-01-03" "Close")))
    agent
    (ReplayBuffer.mk 4 1 1 [[5%Q]; [0%Q]; [0%Q]; [0%Q]]
       [[9500%Q; 5%Q]; [0%Q; 0%Q]; [0%Q; 0%Q]; [0%Q; 0%Q]]
       [[9500%Q; 5%Q]; [0%Q; 0%Q]; [0%Q; 0%Q]; [0%Q; 0%Q]]
       [10%Q; 0%Q; 0%Q; 0%Q] [1%Q; 0%Q; 0%Q; 0%Q])
    false 10%Q 1 0.

(** [env0] after the step that buys five shares at opening. *)
Definition state0 : State.t :=
  State.mk ["SPY"] 10000%Q [0%Q] "2020-01-02" "Open".
Definition state1 : State.t :=
  State.mk ["SPY"] 9500%Q [5%Q] "2020-01-02" "Close".
Definition env1 : StockEnv.t :=
  StockEnv.mk false calendar 1 ["SPY"] (Some 18) (Some "01-02-2020")
    (Some "01-11-2020") 10000 10000 10000%Q (Some 1) (Some state1).

(** [env1] after a step that holds, into Friday at opening. *)
Definition state2 : State.t :=
  State.mk ["SPY"] 9500%Q [5%Q] "2020-01-03" "Open".
Definition env2 : StockEnv.t :=
  StockEnv.mk false calendar 1 ["SPY"] (Some 18) (Some "01-02-2020")
    (Some "01-11-2020") 10000 10000 10000%Q (Some 2) (Some state2).

(** [weekend_env] on Friday at closing, and the start dates of the two
    environments as [datetime.date] has them. *)
Definition friday_env : StockEnv.t :=
  StockEnv.mk false calendar 1 ["SPY"] (Some 6) (Some "01-03-2020")
    (Some "01-06-2020") 10000 10000 10000%Q (Some 1)
    (Some (State.mk ["SPY"] 9500%Q [5%Q] "2020-01-03" "Close")).
Definition friday : Datetime.date := Datetime.mk_date 2020 1 3.
Definition thursday : Datetime.date := Datetime.mk_date 2020 1 2.

(** [buffer0] after one [add], and the locals of the loop after its
    second iteration. *)
Definition buffer1 : ReplayBuffer.t :=
  Eval vm_compute in
    match ReplayBuffer.add_transition buffer0 (transition 1) with
    | Ret b => b
    | Raise _ => buffer0
    end.

Definition locals2 : Run.locals unit :=
  Eval vm_compute in
    match Run.iteration price_data get_new_holdings to_numpy linear prelu
            tanh unit critic_step actor_step 1 chance0 locals1 with
    | Ret l => l
    | Raise _ => locals1
    end.

(** [weekend_env] after the two steps that end its episode: five shares
    bought on Friday at opening and held into Monday. *)
Definition weekend_end : StockEnv.t :=
  Eval vm_compute in
    match StockEnv.steps price_data get_new_holdings weekend_env None
            [[5%Q]; [0%Q]] with
    | Ret (_, e) => e
    | Raise _ => weekend_env
    end.

(** A transition with numbers that float32 does not have: a state of
    50000.37, as a float64, and a reward of 2 ** 24 + 1. *)
Definition cash_50000_37 : Q :=
  Eval vm_compute in Float64.round (5000037 # 100).

Definition wide_reward : ReplayBuffer.transition :=
  ReplayBuffer.mk_transition [cash_50000_37; 0%Q] [1%Q]
    [cash_50000_37; 0%Q] 16777217 0.

(** A transition whose state has three entries: one too many for
    [buffer0]. *)
Definition wide_transition : ReplayBuffer.transition :=
  ReplayBuffer.mk_transition [1%Q; 2%Q; 3%Q] [1%Q] [1%Q; 2%Q] 0 0.

(** The locals of [run] after the last iteration of the warm-up and the
    first one that trains, from [locals0]. *)
Definition locals_trained : Run.locals unit :=
  Eval vm_compute in
    match Run.iterations price_data get_new_holdings to_numpy linear prelu
            tanh unit critic_step actor_step 2499 [chance0; chance0]
            locals0 with
    | Ret l => l
    | Raise _ => locals0
    end.

(** An agent with the weights of [agent] the other way round, at its
    seventh iteration. *)
Definition other_agent : DDPG.t unit :=
  DDPG.mk unit target_actor live_actor tt target_critic live_critic tt
    10 (9 # 10) (1 # 100) (2 # 10) (5 # 10) 2 7.

(** An agent with a [tau] of one half whose target weights are the
    float32 value next above its live weights, and that agent after one
    [train] on [buffer1]. *)
Definition above_one : Q := 8388609 # 8388608.
Definition above_layer : DDPG.Linear :=
  DDPG.mk_linear [above_one] [above_one].
Definition half_agent : DDPG.t unit :=
  DDPG.mk unit live_actor
    (DDPG.mk_actor above_layer above_layer above_layer [above_one]
       [above_one] 10)
    tt live_critic
    (DDPG.mk_critic above_layer [above_one] above_layer [above_one]
       above_layer)
    tt 10 (95 # 100) (1 # 2) (2 # 10) (5 # 10) 2 0.

Definition half_agent1 : DDPG.t unit :=
  Eval vm_compute in
    match DDPG.train linear prelu tanh unit critic_step actor_step
            half_agent buffer1 [0%nat] with
    | Ret a => a
    | Raise _ => half_agent
    end.

(** [agent] with a [tau] of one, and after one [train] on [buffer1]. *)
Definition copying_agent : DDPG.t unit :=
  DDPG.mk unit live_actor target_actor tt live_critic target_critic tt
    10 (95 # 100) 1 (2 # 10) (5 # 10) 2 0.

Definition copying_agent1 : DDPG.t unit :=
  Eval vm_compute in
    match DDPG.train linear prelu tanh unit critic_step actor_step
            copying_agent buffer1 [0%nat] with
    | Ret a => a
    | Raise _ => copying_agent
    end.

(** A stand-in for [torch.tanh] that stays between -1 and 1. *)
Definition squash (x : DDPG.rows) : DDPG.rows := map (Np.clip (- (1)) 1) x.

(** [round(value, 2)] in a market of whole prices and whole shares. *)
Definition round2 (value : Q) : Q := value.

End Fixture.

(** * Properties *)

(** ** The run-time on small inputs *)

Example split_three : re_split_hyphen "01-11-2020" = ["01"; "11"; "2020"].
Proof. reflexivity. Qed.

Example int_examples :
  int "0012" = Ret 12 /\ int " +1_0 " = Ret 10 /\ int "-7" = Ret (-7)
  /\ int "1__0" = Raise (ValueError "invalid literal for int() with base 10")
  /\ int "" = Raise (ValueError "invalid literal for int() with base 10").
Proof. repeat split; reflexivity. Qed.

Example ordinals :
  Datetime.ymd2ord 2020 1 1 = 737425
  /\ Datetime.ord2ymd 737425 = (2020, 1, 1)
  /\ Datetime.ord2ymd 737484 = (2020, 2, 29)
  /\ Datetime.ord2ymd 3652059 = (9999, 12, 31)
  /\ Datetime.ord2ymd 1 = (1, 1, 1)
  /\ Datetime.isoformat (Datetime.fromordinal 737790) = "2020-12-31".
Proof. repeat split; reflexivity. Qed.

(** ** The outcome monad *)

Lemma bind_Ret {A B} (m : outcome A) (f : A -> outcome B) (b : B) :
  mbind f m = Ret b -> exists a, m = Ret a /\ f a = Ret b.
Proof. destruct m as [a|e]; simpl; [eauto | discriminate]. Qed.

Lemma bind_Raise {A B} (m : outcome A) (f : A -> outcome B) (e : exn) :
  mbind f m = Raise e ->
  m = Raise e \/ exists a, m = Ret a /\ f a = Raise e.
Proof. destruct m as [a|e']; simpl; [eauto | intros [= ->]; auto]. Qed.

Lemma bind_of_Ret {A B} (a : A) (f : A -> outcome B) :
  mbind f (Ret a) = f a.
Proof. reflexivity. Qed.

(** Splits a hypothesis [x ← m; k = Ret b] into its two halves. *)
Tactic Notation "bind_inv" hyp(H) :=
  let a := fresh "v" in
  let Ha := fresh "Hv" in
  apply bind_Ret in H; destruct H as (a & Ha & H).

Tactic Notation "bind_inv" hyp(H) "as" ident(a) ident(Ha) :=
  apply bind_Ret in H; destruct H as (a & Ha & H).

Lemma getattr_Ret {A} name (field : option A) (a : A) :
  getattr name field = Ret a -> field = Some a.
Proof. destruct field; simpl; congruence. Qed.

(** ** The calendar: ordinals and dates *)

Section DatetimeFacts.

Import Datetime.

Lemma in_upto n x : 1 <= x <= n -> In x (upto n).
Proof.
  intros Hx. unfold upto. apply in_map_iff. exists (Z.to_nat x).
  split; [lia|]. apply in_seq. lia.
Qed.

Lemma is_leap_400 y : is_leap (y + 400) = is_leap y.
Proof.
  unfold is_leap.
  replace ((y + 400) mod 4) with (y mod 4)
    by (change 400 with (100 * 4); now rewrite Z.mod_add).
  replace ((y + 400) mod 100) with (y mod 100)
    by (change 400 with (4 * 100); now rewrite Z.mod_add).
  replace ((y + 400) mod 400) with (y mod 400)
    by (change 400 with (1 * 400) at 2; now rewrite Z.mod_add).
  reflexivity.
Qed.

Lemma days_before_year_400 y :
  days_before_year (y + 400) = days_before_year y + DI400Y.
Proof.
  unfold days_before_year, DI400Y. cbv zeta.
  replace (y + 400 - 1) with (y - 1 + 400) by lia.
  replace ((y - 1 + 400) / 4) with ((y - 1) / 4 + 100)
    by (change 400 with (100 * 4); now rewrite Z.div_add).
  replace ((y - 1 + 400) / 100) with ((y - 1) / 100 + 4)
    by (change 400 with (4 * 100); now rewrite Z.div_add).
  replace ((y - 1 + 400) / 400) with ((y - 1) / 400 + 1)
    by (change 400 with (1 * 400) at 2; now rewrite Z.div_add).
  lia.
Qed.

Lemma days_in_month_400 y m : days_in_month (y + 400) m = days_in_month y m.
Proof. unfold days_in_month. now rewrite is_leap_400. Qed.

Lemma ymd2ord_400 y m d : ymd2ord (y + 400) m d = ymd2ord y m d + DI400Y.
Proof.
  unfold ymd2ord, days_before_month.
  rewrite days_before_year_400, is_leap_400. lia.
Qed.

Lemma ord2ymd_400 n :
  ord2ymd (n + DI400Y)
  = let '(y, m, d) := ord2ymd n in (y + 400, m, d).
Proof.
  unfold ord2ymd. cbv zeta.
  replace ((n + DI400Y - 1) / DI400Y) with ((n - 1) / DI400Y + 1)
    by (replace (n + DI400Y - 1) with (n - 1 + 1 * DI400Y) by lia;
        now rewrite Z.div_add).
  replace ((n + DI400Y - 1) mod DI400Y) with ((n - 1) mod DI400Y)
    by (replace (n + DI400Y - 1) with (n - 1 + 1 * DI400Y) by lia;
        now rewrite Z.mod_add).
  repeat match goal with
         | |- context [if ?c then _ else _] => destruct c
         end; f_equal; try (f_equal; lia); lia.
Qed.

(** The four hundred years of the first cycle, day by day. *)
Lemma first_cycle_returns : forallb year_returns (upto 400) = true.
Proof. vm_compute. reflexivity. Qed.

Lemma returns_to_true y m d :
  returns_to y m d = true -> ord2ymd (ymd2ord y m d) = (y, m, d).
Proof.
  unfold returns_to. destruct (ord2ymd (ymd2ord y m d)) as [[y' m'] d'].
  rewrite !andb_true_iff. intros [[Hy Hm] Hd].
  apply Z.eqb_eq in Hy, Hm, Hd. congruence.
Qed.

Lemma ord2ymd_first_cycle y m d :
  1 <= y <= 400 -> 1 <= m <= 12 -> 1 <= d <= days_in_month y m ->
  ord2ymd (ymd2ord y m d) = (y, m, d).
Proof.
  intros Hy Hm Hd. apply returns_to_true.
  pose proof first_cycle_returns as H.
  rewrite List.forallb_forall in H. specialize (H y (in_upto _ _ Hy)).
  unfold year_returns in H.
  rewrite List.forallb_forall in H. specialize (H m (in_upto _ _ Hm)).
  rewrite List.forallb_forall in H. exact (H d (in_upto _ _ Hd)).
Qed.

Lemma ord2ymd_cycles (k : nat) y m d :
  1 <= y <= 400 -> 1 <= m <= 12 -> 1 <= d <= days_in_month y m ->
  ord2ymd (ymd2ord (y + 400 * Z.of_nat k) m d)
  = (y + 400 * Z.of_nat k, m, d).
Proof.
  intros Hy Hm Hd. induction k as [|k IH].
  - rewrite Z.mul_0_r, Z.add_0_r. now apply ord2ymd_first_cycle.
  - replace (y + 400 * Z.of_nat (S k)) with (y + 400 * Z.of_nat k + 400)
      by lia.
    rewrite ymd2ord_400, ord2ymd_400, IH. reflexivity.
Qed.

(** [ord2ymd] undoes [ymd2ord] on every date of the calendar. *)
Lemma ord2ymd_ymd2ord y m d :
  1 <= y -> 1 <= m <= 12 -> 1 <= d <= days_in_month y m ->
  ord2ymd (ymd2ord y m d) = (y, m, d).
Proof.
  intros Hy Hm Hd.
  pose proof (Z.div_mod (y - 1) 400 ltac:(lia)) as Hdiv.
  pose proof (Z.mod_pos_bound (y - 1) 400 ltac:(lia)) as Hmod.
  pose proof (Z.div_pos (y - 1) 400 ltac:(lia) ltac:(lia)) as Hq.
  assert (y = ((y - 1) mod 400 + 1) + 400 * Z.of_nat (Z.to_nat ((y - 1) / 400)))
    as Hsplit by lia.
  assert (days_in_month ((y - 1) mod 400 + 1) m = days_in_month y m) as Hdim.
  { rewrite Hsplit at 2.
    generalize (Z.to_nat ((y - 1) / 400)). intros k.
    induction k as [|k IH].
    - now rewrite Z.mul_0_r, Z.add_0_r.
    - replace ((y - 1) mod 400 + 1 + 400 * Z.of_nat (S k))
        with ((y - 1) mod 400 + 1 + 400 * Z.of_nat k + 400) by lia.
      now rewrite days_in_month_400. }
  rewrite Hsplit. apply ord2ymd_cycles; [lia | exact Hm | now rewrite Hdim].
Qed.

(** Every date of the calendar has its ordinal between 1 and the last. *)
Lemma ymd2ord_range y m d :
  MINYEAR <= y <= MAXYEAR -> 1 <= m <= 12 -> 1 <= d <= days_in_month y m ->
  1 <= ymd2ord y m d <= MAXORDINAL.
Proof.
  unfold MINYEAR, MAXYEAR, MAXORDINAL. intros Hy Hm Hd.
  assert (1 <= days_before_month y m + d
          <= 365 + (if is_leap y then 1 else 0)) as Hin_year.
  { unfold days_before_month, days_in_month in *.
    assert (m = 1 \/ m = 2 \/ m = 3 \/ m = 4 \/ m = 5 \/ m = 6 \/ m = 7
            \/ m = 8 \/ m = 9 \/ m = 10 \/ m = 11 \/ m = 12) as Hcases by lia.
    remember (is_leap y) as leap eqn:Hleap. clear Hleap.
    unfold table, DAYS_BEFORE_MONTH, DAYS_IN_MONTH in *.
    repeat (destruct Hcases as [->|Hcases]); try subst m;
      destruct leap; simpl in *; lia. }
  unfold ymd2ord.
  destruct (Z.eq_dec y 9999) as [->|Hne].
  - change (is_leap 9999) with false in Hin_year.
    change (days_before_year 9999) with 3651694. lia.
  - unfold days_before_year. cbv zeta.
    destruct (is_leap y); Z.to_euclidean_division_equations; lia.
Qed.

Lemma fromordinal_toordinal (dt : date) :
  1 <= year dt -> 1 <= month dt <= 12 ->
  1 <= day dt <= days_in_month (year dt) (month dt) ->
  fromordinal (toordinal dt) = dt.
Proof.
  intros Hy Hm Hd. unfold fromordinal, toordinal.
  rewrite ord2ymd_ymd2ord by assumption. now destruct dt.
Qed.

End DatetimeFacts.

(** ** ReplayBuffer: the ring of transitions *)

Section ReplayBufferFacts.

Import ReplayBuffer.

Lemma set_row_Ret arr i v arr' :
  set_row arr i v = Ret arr' ->
  exists row v', arr !! i = Some row /\ broadcast_to (length row) v = Ret v'
                 /\ arr' = <[i := v']> arr.
Proof.
  unfold set_row. destruct (arr !! i) as [row|] eqn:E; [|discriminate].
  intros H. bind_inv H. injection H as <-. eauto.
Qed.

Lemma set_cell_Ret arr i x arr' :
  set_cell arr i x = Ret arr' ->
  (i < length arr)%nat /\ arr' = <[i := x]> arr.
Proof.
  unfold set_cell. destruct (arr !! i) eqn:E; [|discriminate].
  intros [= <-]. split; [|reflexivity]. eapply lookup_lt_Some; eauto.
Qed.

Lemma broadcast_to_exact width v :
  length v = width -> broadcast_to width v = Ret v.
Proof. intros <-. unfold broadcast_to. now rewrite Nat.eqb_refl. Qed.

Lemma broadcast_to_length width v v' :
  broadcast_to width v = Ret v' -> length v' = width.
Proof.
  unfold broadcast_to. destruct (Nat.eqb_spec (length v) width).
  - now intros [= <-].
  - destruct v as [|x [|? ?]]; try discriminate.
    intros [= <-]. apply repeat_length.
Qed.

Lemma set_row_exact arr i v row :
  arr !! i = Some row -> length v = length row ->
  set_row arr i v = Ret (<[i := v]> arr).
Proof.
  intros E L. unfold set_row. rewrite E. now rewrite broadcast_to_exact.
Qed.

Lemma set_cell_in_range arr i x :
  (i < length arr)%nat -> set_cell arr i x = Ret (<[i := x]> arr).
Proof.
  intros L. unfold set_cell.
  destruct (lookup_lt_is_Some_2 arr i L) as [y ->]. reflexivity.
Qed.

(** One [add] that returns: where it wrote and how the counters moved. *)
Lemma add_Ret self s a n r d self' :
  add self s a n r d = Ret self' ->
  (ptr self < length (reward self))%nat
  /\ (exists s' a' n',
        ReplayBuffer.state self' = <[ptr self := s']> (ReplayBuffer.state self)
        /\ action self' = <[ptr self := a']> (action self)
        /\ next_state self' = <[ptr self := n']> (next_state self)
        /\ entry self' (ptr self) = Some (s', a', n', r, (1 - d)%Q))
  /\ reward self' = <[ptr self := r]> (reward self)
  /\ not_done self' = <[ptr self := (1 - d)%Q]> (not_done self)
  /\ ptr self' = ((ptr self + 1) mod max_size self)%nat
  /\ size self' = Nat.min (size self + 1) (max_size self)
  /\ max_size self' = max_size self.
Proof.
  unfold add. intros H.
  bind_inv H. bind_inv H. bind_inv H. bind_inv H. bind_inv H.
  injection H as <-. simpl.
  apply set_row_Ret in Hv as (rn & n' & En & Bn & ->).
  apply set_row_Ret in Hv0 as (ra & a' & Ea & Ba & ->).
  apply set_row_Ret in Hv1 as (rs & s' & Es & Bs & ->).
  apply set_cell_Ret in Hv2 as (Lr & ->).
  apply set_cell_Ret in Hv3 as (Ld & ->).
  split; [exact Lr|]. split.
  - exists s', a', n'. repeat split; try reflexivity.
    unfold entry. simpl.
    rewrite !list_lookup_insert_eq by (eauto using lookup_lt_Some).
    reflexivity.
  - repeat split; reflexivity.
Qed.

Lemma adds_app self trs1 trs2 :
  adds self (trs1 ++ trs2) = (self' ← adds self trs1; adds self' trs2).
Proof.
  revert self. induction trs1 as [|tr trs1 IH]; intros self; simpl.
  - reflexivity.
  - destruct (add_transition self tr); simpl; [apply IH | reflexivity].
Qed.

Lemma zeros_rows rows cols :
  Forall (fun row => length row = cols) (zeros rows cols).
Proof.
  unfold zeros. induction rows as [|rows IH]; simpl; constructor.
  - apply repeat_length.
  - exact IH.
Qed.

Lemma init_shaped state_dim action_dim cap :
  (0 < cap)%nat -> shaped state_dim action_dim (__init__ state_dim action_dim cap).
Proof.
  intros Hcap. unfold __init__.
  constructor; simpl; auto using zeros_rows;
    unfold zeros; rewrite ?repeat_length; lia.
Qed.

Lemma Forall_insert_row (w : nat) (arr : list (list Q)) i v :
  Forall (fun row => length row = w) arr -> length v = w ->
  Forall (fun row => length row = w) (<[i := v]> arr).
Proof.
  intros Harr Hv. apply Forall_lookup. intros j row Hj.
  rewrite Forall_lookup in Harr.
  destruct (decide (i = j)) as [->|Hne].
  - destruct (decide (j < length arr)%nat) as [Hlt|Hge].
    + rewrite list_lookup_insert_eq in Hj by exact Hlt. congruence.
    + rewrite list_insert_ge in Hj by lia. eauto.
  - rewrite list_lookup_insert_ne in Hj by exact Hne. eauto.
Qed.

(** On a buffer of the right shape an [add] of a fitting transition
    returns, and this is the buffer it returns. *)
Lemma add_fits state_dim action_dim self tr :
  shaped state_dim action_dim self -> fits state_dim action_dim tr ->
  add_transition self tr =
    Ret (mk (max_size self) ((ptr self + 1) mod max_size self)
            (Nat.min (size self + 1) (max_size self))
            (<[ptr self := t_action tr]> (action self))
            (<[ptr self := t_state tr]> (ReplayBuffer.state self))
            (<[ptr self := t_next_state tr]> (next_state self))
            (<[ptr self := t_reward tr]> (reward self))
            (<[ptr self := (1 - t_done tr)%Q]> (not_done self))).
Proof.
  intros [Ls La Ln Lr Ld Ws Wa Wn Hp Hs] (Fs & Fa & Fn).
  unfold add_transition, add.
  assert (row_at : forall (w : nat) (arr : list (list Q)),
             length arr = max_size self ->
             Forall (fun row => length row = w) arr ->
             exists row, arr !! ptr self = Some row /\ length row = w).
  { intros w arr L W.
    destruct (lookup_lt_is_Some_2 arr (ptr self)) as [row E]; [lia|].
    exists row. split; [exact E|].
    rewrite Forall_lookup in W. eauto. }
  destruct (row_at _ _ Ln Wn) as (rn & En & Hn).
  destruct (row_at _ _ La Wa) as (ra & Ea & Ha).
  destruct (row_at _ _ Ls Ws) as (rs & Es & Hs').
  rewrite (set_row_exact _ _ _ _ En) by congruence. simpl.
  rewrite (set_row_exact _ _ _ _ Ea) by congruence. simpl.
  rewrite (set_row_exact _ _ _ _ Es) by congruence. simpl.
  rewrite set_cell_in_range by lia. simpl.
  rewrite set_cell_in_range by lia. simpl.
  reflexivity.
Qed.

Lemma add_shaped state_dim action_dim self tr self' :
  shaped state_dim action_dim self -> fits state_dim action_dim tr ->
  add_transition self tr = Ret self' -> shaped state_dim action_dim self'.
Proof.
  intros Hsh Hfit. rewrite (add_fits _ _ _ _ Hsh Hfit). intros [= <-].
  destruct Hsh as [Ls La Ln Lr Ld Ws Wa Wn Hp Hs].
  destruct Hfit as (Fs & Fa & Fn).
  constructor; simpl; rewrite ?length_insert; auto using Forall_insert_row.
  - apply Nat.mod_upper_bound. lia.
  - apply Nat.le_min_r.
Qed.

(** Two adds less than a capacity apart write to different slots. *)
Lemma slots_differ (cap j n : nat) :
  (0 < cap)%nat -> (j < n)%nat -> (n < j + cap)%nat ->
  (j mod cap)%nat <> (n mod cap)%nat.
Proof.
  intros Hcap Hjn Hn E.
  pose proof (Nat.div_mod_eq j cap) as Dj.
  pose proof (Nat.div_mod_eq n cap) as Dn.
  rewrite E in Dj.
  destruct (Nat.le_gt_cases (n / cap) (j / cap)) as [Hq|Hq].
  - pose proof (Nat.mul_le_mono_l _ _ cap Hq). lia.
  - pose proof (Nat.mul_le_mono_l _ _ cap Hq) as Hm.
    rewrite Nat.mul_succ_r in Hm. lia.
Qed.

Lemma entry_insert_ne self tr i :
  i <> ptr self ->
  entry (mk (max_size self) ((ptr self + 1) mod max_size self)
            (Nat.min (size self + 1) (max_size self))
            (<[ptr self := t_action tr]> (action self))
            (<[ptr self := t_state tr]> (ReplayBuffer.state self))
            (<[ptr self := t_next_state tr]> (next_state self))
            (<[ptr self := t_reward tr]> (reward self))
            (<[ptr self := (1 - t_done tr)%Q]> (not_done self))) i
  = entry self i.
Proof.
  intros Hne. unfold entry. simpl.
  rewrite !list_lookup_insert_ne by congruence. reflexivity.
Qed.

(** After any run of fitting adds on a fresh buffer: the counters, and
    the contents of every slot written within the last [cap] adds. *)
Lemma adds_ring state_dim action_dim cap trs :
  (0 < cap)%nat -> Forall (fits state_dim action_dim) trs ->
  exists b,
    adds (__init__ state_dim action_dim cap) trs = Ret b
    /\ shaped state_dim action_dim b
    /\ max_size b = cap
    /\ ptr b = (length trs mod cap)%nat
    /\ size b = Nat.min (length trs) cap
    /\ forall j tr, trs !! j = Some tr -> (length trs <= j + cap)%nat ->
         entry b (j mod cap) = Some (stored tr).
Proof.
  intros Hcap. induction trs as [|tr trs IH] using rev_ind; intros Hfit.
  - exists (__init__ state_dim action_dim cap). simpl.
    split; [reflexivity|]. split; [now apply init_shaped|].
    split; [reflexivity|]. split; [symmetry; now apply Nat.mod_small|].
    split; [reflexivity|]. intros j tr Hj. discriminate.
  - apply Forall_app in Hfit as [Hfit Htr]. inversion_clear Htr as [|? ? Htr' _].
    destruct (IH Hfit) as (b & Hb & Hsh & Hmax & Hptr & Hsize & Hcontent).
    rewrite adds_app, Hb. simpl.
    pose proof (add_fits _ _ _ _ Hsh Htr') as Hadd.
    rewrite Hadd. simpl.
    eexists. split; [reflexivity|].
    split; [eapply add_shaped; eauto|].
    simpl. rewrite length_app. simpl.
    split; [exact Hmax|]. split.
    { rewrite Hptr, Hmax. now rewrite Nat.Div0.add_mod_idemp_l. }
    split; [lia|].
    intros j tr' Hj Hlen.
    destruct (decide (j = length trs)) as [->|Hne].
    + rewrite lookup_app_r in Hj by lia.
      rewrite Nat.sub_diag in Hj. injection Hj as <-.
      rewrite <- Hptr. unfold entry. simpl.
      destruct Hsh as [Ls La Ln Lr Ld Ws Wa Wn Hp Hs].
      rewrite !list_lookup_insert_eq by lia. reflexivity.
    + assert (j < length trs)%nat as Hlt.
      { apply lookup_lt_Some in Hj. rewrite length_app in Hj. simpl in Hj. lia. }
      rewrite lookup_app_l in Hj by exact Hlt.
      rewrite entry_insert_ne.
      * apply (Hcontent j tr' Hj). lia.
      * rewrite Hptr. apply slots_differ; lia.
Qed.

End ReplayBufferFacts.

(** C4.  Ring buffer.  Take any run of [add] calls on a fresh buffer of
    capacity [cap], and one more [add] after it.  That [add] writes its
    transition at the current write pointer, moves the pointer on modulo
    the capacity and sets [size] to [min (size + 1) cap]; every other slot
    keeps its entry.  So [size] never exceeds the capacity, it is the
    capacity once more than [cap] transitions went in, slot 0 keeps the
    first transition as long as no more than [cap] were added, and the add
    number [cap + 1] finds the pointer at 0 and replaces it. *)
Theorem add_ring_buffer (state_dim action_dim cap : nat)
  (trs : list ReplayBuffer.transition) (tr : ReplayBuffer.transition) :
  (0 < cap)%nat ->
  Forall (ReplayBuffer.fits state_dim action_dim) trs ->
  ReplayBuffer.fits state_dim action_dim tr ->
  exists b b',
    ReplayBuffer.adds (ReplayBuffer.__init__ state_dim action_dim cap) trs
      = Ret b
    /\ ReplayBuffer.add_transition b tr = Ret b'
    /\ ReplayBuffer.entry b' (ReplayBuffer.ptr b)
       = Some (ReplayBuffer.stored tr)
    /\ (forall i, i <> ReplayBuffer.ptr b ->
          ReplayBuffer.entry b' i = ReplayBuffer.entry b i)
    /\ ReplayBuffer.ptr b = (length trs mod cap)%nat
    /\ ReplayBuffer.ptr b' = ((ReplayBuffer.ptr b + 1) mod cap)%nat
    /\ ReplayBuffer.size b = Nat.min (length trs) cap
    /\ ReplayBuffer.size b' = Nat.min (ReplayBuffer.size b + 1) cap
    /\ (ReplayBuffer.size b <= cap)%nat
    /\ (forall k, (0 < k)%nat -> length trs = (cap + k)%nat ->
          ReplayBuffer.size b = cap)
    /\ (forall first, trs !! 0%nat = Some first ->
          (length trs <= cap)%nat ->
          ReplayBuffer.entry b 0 = Some (ReplayBuffer.stored first))
    /\ (length trs = cap -> ReplayBuffer.ptr b = 0%nat
          /\ ReplayBuffer.entry b' 0 = Some (ReplayBuffer.stored tr)).
Proof.
  intros Hcap Hfit Htr.
  destruct (adds_ring state_dim action_dim cap trs Hcap Hfit)
    as (b & Hb & Hsh & Hmax & Hptr & Hsize & Hcontent).
  pose proof (add_fits _ _ _ _ Hsh Htr) as Hadd.
  eexists b, _. split; [exact Hb|]. split; [exact Hadd|].
  assert (ReplayBuffer.ptr b < cap)%nat as Hlt.
  { rewrite Hptr. apply Nat.mod_upper_bound. lia. }
  assert (Hwritten :
    ReplayBuffer.entry
      (ReplayBuffer.mk (ReplayBuffer.max_size b)
         ((ReplayBuffer.ptr b + 1) mod ReplayBuffer.max_size b)
         (Nat.min (ReplayBuffer.size b + 1) (ReplayBuffer.max_size b))
         (<[ReplayBuffer.ptr b := ReplayBuffer.t_action tr]>
            (ReplayBuffer.action b))
         (<[ReplayBuffer.ptr b := ReplayBuffer.t_state tr]>
            (ReplayBuffer.state b))
         (<[ReplayBuffer.ptr b := ReplayBuffer.t_next_state tr]>
            (ReplayBuffer.next_state b))
         (<[ReplayBuffer.ptr b := ReplayBuffer.t_reward tr]>
            (ReplayBuffer.reward b))
         (<[ReplayBuffer.ptr b := (1 - ReplayBuffer.t_done tr)%Q]>
            (ReplayBuffer.not_done b))) (ReplayBuffer.ptr b)
    = Some (ReplayBuffer.stored tr)).
  { unfold ReplayBuffer.entry. simpl.
    destruct Hsh as [Ls La Ln Lr Ld Ws Wa Wn Hp Hs].
    rewrite !list_lookup_insert_eq by lia. reflexivity. }
  split; [exact Hwritten|].
  split; [intros i Hi; now apply entry_insert_ne|].
  simpl. rewrite Hmax.
  split; [exact Hptr|]. split; [reflexivity|].
  split; [exact Hsize|]. split; [reflexivity|].
  split; [lia|]. split; [intros k Hk Hlen; lia|].
  split.
  - intros first Hfirst Hlen.
    rewrite <- (Nat.mod_small 0 cap Hcap). apply Hcontent; [exact Hfirst | lia].
  - intros Hlen.
    assert (ReplayBuffer.ptr b = 0%nat) as Hzero.
    { rewrite Hptr, Hlen. apply Nat.Div0.mod_same. }
    split; [exact Hzero|].
    match goal with
    | |- ReplayBuffer.entry ?x _ = _ =>
        transitivity (ReplayBuffer.entry x (ReplayBuffer.ptr b));
        [f_equal; symmetry; exact Hzero | exact Hwritten]
    end.
Qed.

(** ** StockEnv: stepping through the calendar *)

Section CalendarFacts.

Import StockEnv.

Variable dates : list string.
Variable date_obj : Datetime.date.
Variable epochs : Z.

Local Abbreviation all_invalid :=
  (StockEnv.all_invalid dates date_obj epochs).

Lemma search_finds fuel incr adjusted k s :
  date_string date_obj (epochs + incr) = Ret adjusted ->
  incr <= k < 20 -> k - incr <= Z.of_nat fuel ->
  all_invalid incr k ->
  date_string date_obj (epochs + k) = Ret s -> contains dates s = true ->
  search_valid_date fuel dates date_obj epochs incr adjusted = Ret k.
Proof.
  revert incr adjusted.
  induction fuel as [|fuel IH]; intros incr adjusted Hadj Hk Hfuel Hinv Hs Hvalid.
  - assert (incr = k) as -> by lia.
    simpl. rewrite Hadj in Hs. injection Hs as ->. now rewrite Hvalid.
  - destruct (Z.eq_dec incr k) as [->|Hne].
    + simpl. rewrite Hadj in Hs. injection Hs as ->. now rewrite Hvalid.
    + destruct (Hinv incr ltac:(lia)) as (s0 & Hs0 & Hbad).
      rewrite Hadj in Hs0. injection Hs0 as <-.
      simpl. rewrite Hbad.
      assert (exists s1, date_string date_obj (epochs + (incr + 1)) = Ret s1)
        as [s1 Hs1].
      { destruct (Z.eq_dec (incr + 1) k) as [<-|Hne'].
        - eauto.
        - destruct (Hinv (incr + 1) ltac:(lia)) as (s1 & Hs1 & _). eauto. }
      rewrite Hs1. simpl.
      destruct (Z.geb_spec (incr + 1) 20); [lia|].
      apply IH; try assumption; try lia.
      intros j Hj. apply Hinv. lia.
Qed.

Lemma search_exhausted fuel incr adjusted s20 :
  date_string date_obj (epochs + incr) = Ret adjusted ->
  1 <= incr <= 19 -> 20 - incr <= Z.of_nat fuel ->
  all_invalid incr 20 ->
  date_string date_obj (epochs + 20) = Ret s20 ->
  search_valid_date fuel dates date_obj epochs incr adjusted
  = Raise (Exception_ (s20 ++ " is out of range")).
Proof.
  revert incr adjusted.
  induction fuel as [|fuel IH]; intros incr adjusted Hadj Hincr Hfuel Hinv H20.
  - lia.
  - destruct (Hinv incr ltac:(lia)) as (s0 & Hs0 & Hbad).
    rewrite Hadj in Hs0. injection Hs0 as <-.
    simpl. rewrite Hbad.
    destruct (Z.eq_dec (incr + 1) 20) as [E|Hne].
    + rewrite E, H20. simpl. reflexivity.
    + destruct (Hinv (incr + 1) ltac:(lia)) as (s1 & Hs1 & _).
      rewrite Hs1. simpl.
      destruct (Z.geb_spec (incr + 1) 20); [lia|].
      apply IH; try assumption; try lia.
      intros j Hj. apply Hinv. lia.
Qed.

Lemma search_sound fuel incr adjusted k :
  date_string date_obj (epochs + incr) = Ret adjusted ->
  search_valid_date fuel dates date_obj epochs incr adjusted = Ret k ->
  incr <= k
  /\ exists s, date_string date_obj (epochs + k) = Ret s
               /\ contains dates s = true.
Proof.
  revert incr adjusted.
  induction fuel as [|fuel IH]; intros incr adjusted Hadj H; simpl in H;
    destruct (contains dates adjusted) eqn:Hc.
  - injection H as <-. split; [lia | eauto].
  - discriminate.
  - injection H as <-. split; [lia | eauto].
  - bind_inv H.
    destruct (incr + 1 >=? 20); [discriminate|].
    destruct (IH _ _ Hv H) as (Hle & s & Hs & Hvalid).
    split; [lia | eauto].
Qed.

Lemma string_length_append (s1 s2 : string) :
  String.length (s1 ++ s2) = (String.length s1 + String.length s2)%nat.
Proof. induction s1 as [|c s1 IH]; simpl; [reflexivity | now rewrite IH]. Qed.

(** Two calendars that agree on the dates of the increments 1 to 19 send
    the search the same way. *)
Lemma search_ext dates' fuel incr adjusted :
  1 <= incr <= 19 ->
  date_string date_obj (epochs + incr) = Ret adjusted ->
  (forall j s, 1 <= j <= 19 -> date_string date_obj (epochs + j) = Ret s ->
     contains dates' s = contains dates s) ->
  search_valid_date fuel dates' date_obj epochs incr adjusted
  = search_valid_date fuel dates date_obj epochs incr adjusted.
Proof.
  intros Hincr Hadj Hagree. revert incr adjusted Hincr Hadj.
  induction fuel as [|fuel IH]; intros incr adjusted Hincr Hadj; simpl;
    rewrite (Hagree incr adjusted Hincr Hadj);
    destruct (contains dates adjusted); try reflexivity.
  destruct (date_string date_obj (epochs + (incr + 1))) as [s1|e1] eqn:E1;
    simpl; [|reflexivity].
  destruct (Z.geb_spec (incr + 1) 20); [reflexivity|].
  apply IH; [lia | exact E1].
Qed.

Lemma out_of_range_message s : (s ++ " is out of range")%string <> "fuel".
Proof.
  intros E. apply (f_equal String.length) in E.
  rewrite string_length_append in E. simpl in E. lia.
Qed.

(** The loop never runs out of the rounds it was given. *)
Lemma search_fuel fuel incr adjusted :
  1 <= incr <= 19 -> 20 - incr <= Z.of_nat fuel ->
  search_valid_date fuel dates date_obj epochs incr adjusted
  <> Raise (Exception_ "fuel").
Proof.
  revert incr adjusted.
  induction fuel as [|fuel IH]; intros incr adjusted Hincr Hfuel; [lia|].
  simpl. destruct (contains dates adjusted); [discriminate|].
  destruct (date_string date_obj (epochs + (incr + 1))) as [s1|e1] eqn:E1;
    simpl.
  - destruct (Z.geb_spec (incr + 1) 20).
    + intros [= E]. exact (out_of_range_message _ E).
    + apply IH; lia.
  - unfold date_string in E1.
    destruct (Datetime.add_days date_obj ((epochs + (incr + 1)) / 2))
      eqn:E2; simpl in E1; [discriminate|].
    unfold Datetime.add_days in E2.
    destruct (_ && _) in E2; [discriminate|].
    injection E2 as <-. injection E1 as <-. discriminate.
Qed.

End CalendarFacts.

Section IncrementDateFacts.

Import StockEnv.

Lemma getitem_nonempty {A} (xs : list A) :
  xs <> [] -> exists x, getitem xs 0 = Ret x.
Proof. destruct xs as [|x xs]; [congruence | intros _; exists x; reflexivity]. Qed.

(** [increment_date] lands on the first increment, among 1 to 19, whose
    date the calendar has. *)
Lemma increment_date_finds self d e k s :
  start_date_obj self = Ret d -> stock_names self <> [] ->
  epochs self = Some e -> 1 <= k <= 19 ->
  all_invalid (valid_dates self) d e 1 k ->
  date_string d (e + k) = Ret s -> contains (valid_dates self) s = true ->
  increment_date self = Ret (set_epochs self (e + k)).
Proof.
  intros Hd Hnames He Hk Hinv Hs Hvalid.
  unfold increment_date. rewrite Hd, bind_of_Ret.
  destruct (getitem_nonempty _ Hnames) as [name ->]. rewrite bind_of_Ret.
  rewrite He. unfold getattr. rewrite bind_of_Ret.
  assert (exists adj, date_string d (e + 1) = Ret adj) as [adj Hadj].
  { destruct (Z.eq_dec k 1) as [->|Hne]; [eauto|].
    destruct (Hinv 1 ltac:(lia)) as (adj & Hadj & _). eauto. }
  rewrite Hadj, bind_of_Ret.
  rewrite (search_finds _ _ _ 19 1 adj k s); try assumption; try lia.
  reflexivity.
Qed.

(** With no such increment, and the twentieth date still on the calendar
    of [datetime], it raises, naming that twentieth date. *)
Lemma increment_date_exhausted self d e s20 :
  start_date_obj self = Ret d -> stock_names self <> [] ->
  epochs self = Some e ->
  all_invalid (valid_dates self) d e 1 20 ->
  date_string d (e + 20) = Ret s20 ->
  increment_date self = Raise (Exception_ (s20 ++ " is out of range")).
Proof.
  intros Hd Hnames He Hinv H20.
  unfold increment_date. rewrite Hd, bind_of_Ret.
  destruct (getitem_nonempty _ Hnames) as [name ->]. rewrite bind_of_Ret.
  rewrite He. unfold getattr. rewrite bind_of_Ret.
  destruct (Hinv 1 ltac:(lia)) as (adj & Hadj & _).
  rewrite Hadj, bind_of_Ret.
  rewrite (search_exhausted _ _ _ 19 1 adj s20); try assumption; try lia.
  reflexivity.
Qed.

Lemma increment_date_Ret self self' :
  increment_date self = Ret self' ->
  exists d e k s,
    start_date_obj self = Ret d /\ epochs self = Some e /\ 1 <= k
    /\ self' = set_epochs self (e + k)
    /\ date_string d (e + k) = Ret s
    /\ contains (valid_dates self) s = true.
Proof.
  unfold increment_date. intros H.
  bind_inv H. bind_inv H. bind_inv H. bind_inv H. bind_inv H.
  injection H as <-.
  apply getattr_Ret in Hv1.
  destruct (search_sound _ _ _ _ _ _ _ Hv2 Hv3) as (Hle & s & Hs & Hvalid).
  exists v, v1, v3, s. auto 10.
Qed.

Lemma comprehension_raise {A B} (f : A -> outcome B) xs e :
  (forall x e, f x = Raise e -> is_exception e = false) ->
  comprehension f xs = Raise e -> is_exception e = false.
Proof.
  intros Hf. induction xs as [|x xs IH]; simpl; [discriminate|].
  intros H. apply bind_Raise in H as [H|(y & _ & H)]; [eauto|].
  apply bind_Raise in H as [H|(ys & _ & H)]; [eauto | discriminate].
Qed.

Lemma int_raise s e : int s = Raise e -> is_exception e = false.
Proof.
  unfold int.
  destruct (match strip (list_ascii_of_string s) with
            | [] => _ | c :: rest => _ end) as [negative digits].
  destruct (parse_digits 0 false digits); [discriminate|].
  now intros [= <-].
Qed.

Lemma getitem_raise {A} (xs : list A) i e :
  getitem xs i = Raise e -> is_exception e = false.
Proof. unfold getitem. destruct (xs !! i); [discriminate | now intros [= <-]]. Qed.

Lemma getattr_raise {A} name (field : option A) e :
  getattr name field = Raise e -> is_exception e = false.
Proof. destruct field; simpl; [discriminate | now intros [= <-]]. Qed.

Lemma date_new_raise y m d e :
  Datetime.date_new y m d = Raise e -> is_exception e = false.
Proof.
  unfold Datetime.date_new.
  repeat (destruct (negb _); [now intros [= <-]|]). discriminate.
Qed.

Lemma date_of_tokens_raise arr e :
  date_of_tokens arr = Raise e -> is_exception e = false.
Proof.
  unfold date_of_tokens. intros H.
  apply bind_Raise in H as [H|(y & _ & H)]; [eauto using getitem_raise|].
  apply bind_Raise in H as [H|(m & _ & H)]; [eauto using getitem_raise|].
  apply bind_Raise in H as [H|(d & _ & H)]; [eauto using getitem_raise|].
  eauto using date_new_raise.
Qed.

Lemma start_date_obj_raise self e :
  start_date_obj self = Raise e -> is_exception e = false.
Proof.
  unfold start_date_obj. intros H.
  apply bind_Raise in H as [H|(sd & _ & H)]; [eauto using getattr_raise|].
  unfold parse_date in H.
  apply bind_Raise in H as [H|(arr & _ & H)].
  - eapply comprehension_raise; [|exact H]. apply int_raise.
  - eauto using date_of_tokens_raise.
Qed.

Lemma date_string_raise d n e :
  date_string d n = Raise e -> is_exception e = false.
Proof.
  unfold date_string, Datetime.add_days.
  destruct (_ && _); simpl; [discriminate | now intros [= <-]].
Qed.

(** [increment_date] never stops for want of rounds: its 19 are enough. *)
Lemma increment_date_fuel self :
  increment_date self <> Raise (Exception_ "fuel").
Proof.
  unfold increment_date. intros H.
  apply bind_Raise in H as [H|(d & _ & H)];
    [apply start_date_obj_raise in H; discriminate|].
  apply bind_Raise in H as [H|(name & _ & H)];
    [apply getitem_raise in H; discriminate|].
  apply bind_Raise in H as [H|(e & _ & H)];
    [apply getattr_raise in H; discriminate|].
  apply bind_Raise in H as [H|(adj & _ & H)];
    [apply date_string_raise in H; discriminate|].
  apply bind_Raise in H as [H|(k & _ & H)]; [|discriminate].
  revert H. apply search_fuel; lia.
Qed.

End IncrementDateFacts.

Section CalendarTheorems.

Import StockEnv.

Lemma get_date_and_time_set_epochs self d n s :
  start_date_obj self = Ret d -> date_string d n = Ret s ->
  get_date_and_time (set_epochs self n)
  = Ret (s, if n mod 2 =? 0 then "Open" else "Close").
Proof.
  intros Hd Hs. unfold get_date_and_time. simpl.
  change (start_date_obj (set_epochs self n)) with (start_date_obj self).
  rewrite Hd, bind_of_Ret.
  unfold date_string in Hs.
  destruct (Datetime.add_days d (n / 2)) as [d'|]; simpl in *; [|discriminate].
  now injection Hs as <-.
Qed.

(** C6.  A call of [increment_date] that returns has strictly increased
    [epochs], and the date the environment is on afterwards is one of
    [valid_dates].  It does return, on the first increment among 1 to 19
    whose date is valid, when there is one; when there is none (the search
    reaches increment 20) it raises the out-of-range exception. *)
Theorem increment_date_advances (self : t) :
  (forall self', increment_date self = Ret self' ->
     exists e e' date time,
       epochs self = Some e /\ epochs self' = Some e' /\ e < e'
       /\ get_date_and_time self' = Ret (date, time)
       /\ contains (valid_dates self') date = true)
  /\ (forall d e k s,
        start_date_obj self = Ret d -> stock_names self <> [] ->
        epochs self = Some e -> 1 <= k <= 19 ->
        all_invalid (valid_dates self) d e 1 k ->
        date_string d (e + k) = Ret s ->
        contains (valid_dates self) s = true ->
        increment_date self = Ret (set_epochs self (e + k)))
  /\ (forall d e s20,
        start_date_obj self = Ret d -> stock_names self <> [] ->
        epochs self = Some e ->
        all_invalid (valid_dates self) d e 1 20 ->
        date_string d (e + 20) = Ret s20 ->
        increment_date self
        = Raise (Exception_ (s20 ++ " is out of range"))).
Proof.
  split; [|split].
  - intros self' H.
    apply increment_date_Ret in H
      as (d & e & k & s & Hd & He & Hk & -> & Hs & Hvalid).
    exists e, (e + k), s, (if (e + k) mod 2 =? 0 then "Open" else "Close").
    split; [exact He|]. split; [reflexivity|]. split; [lia|].
    split; [now apply get_date_and_time_set_epochs with d | exact Hvalid].
  - intros d e k s. apply increment_date_finds.
  - intros d e s20. apply increment_date_exhausted.
Qed.

(** C10.  [increment_date] looks the calendar up for the increments 1 to
    19 only: a calendar that differs from [valid_dates] on other dates,
    that of increment 20 among them, leads to the same result.  So when
    none of the dates of increments 1 to 19 is valid the call raises its
    out-of-range exception, also when the date of increment 20 is a valid
    trading date. *)
Theorem increment_date_stops_before_20 (self : t) (d : Datetime.date)
  (e : Z) :
  start_date_obj self = Ret d ->
  epochs self = Some e ->
  (forall dates',
     (forall j s, 1 <= j <= 19 -> date_string d (e + j) = Ret s ->
        contains dates' s = contains (valid_dates self) s) ->
     increment_date (with_valid_dates self dates')
     = (self' ← increment_date self; Ret (with_valid_dates self' dates')))
  /\ (forall s20,
        stock_names self <> [] ->
        all_invalid (valid_dates self) d e 1 20 ->
        date_string d (e + 20) = Ret s20 ->
        contains (valid_dates self) s20 = true ->
        increment_date self
        = Raise (Exception_ (s20 ++ " is out of range"))).
Proof.
  intros Hd He. split.
  - intros dates' Hagree. unfold increment_date.
    change (start_date_obj (with_valid_dates self dates'))
      with (start_date_obj self).
    rewrite Hd, !bind_of_Ret. simpl stock_names.
    destruct (getitem (stock_names self) 0) as [name|]; [|reflexivity].
    rewrite !bind_of_Ret. simpl epochs. rewrite He. unfold getattr.
    rewrite !bind_of_Ret.
    destruct (date_string d (e + 1)) as [adj|] eqn:Hadj; [|reflexivity].
    rewrite !bind_of_Ret. simpl valid_dates.
    rewrite (search_ext (valid_dates self) d e dates' 19 1 adj);
      [|lia|exact Hadj|exact Hagree].
    destruct (search_valid_date 19 (valid_dates self) d e 1 adj);
      reflexivity.
  - intros s20 Hnames Hinv H20 _.
    now apply increment_date_exhausted with d e.
Qed.

End CalendarTheorems.

(** ** StockEnv: the date range *)

Section DateRangeFacts.

Import StockEnv Datetime.

Lemma validate_tokens_early pairs valid b :
  validate_tokens pairs valid = Ret (inr b) -> b = false.
Proof.
  revert valid. induction pairs as [|[x y] pairs IH]; intros valid; simpl.
  - discriminate.
  - destruct (isdigit x && isdigit y && valid) eqn:E.
    + intros H. bind_inv H. destruct (v >? 0).
      * bind_inv H. eauto.
      * eauto.
    + now intros [= <-].
Qed.

(** What [initialize_date] has done when it comes back with [None]. *)
Lemma initialize_date_accepts self s1 s2 self' :
  initialize_date self s1 s2 = Ret (PyNone, self') ->
  exists d1 d2,
    parse_date s1 = Ret d1 /\ parse_date s2 = Ret d2
    /\ 0 <= days_between d2 d1
    /\ self' = set_dates self (days_between d2 d1 * 2) s1 s2.
Proof.
  unfold initialize_date. intros H. bind_inv H.
  destruct v as [valid|b]; [|discriminate].
  bind_inv H. bind_inv H. bind_inv H. bind_inv H.
  destruct (negb _) eqn:E in H; [discriminate|].
  injection H as <-.
  exists v1, v2. unfold parse_date. rewrite Hv0, Hv1. simpl.
  split; [exact Hv2|]. split; [exact Hv3|]. split; [|reflexivity].
  apply negb_false_iff, andb_true_iff in E as [_ E]. lia.
Qed.

Lemma date_new_Ret y m d dt :
  date_new y m d = Ret dt ->
  dt = mk_date y m d /\ MINYEAR <= y <= MAXYEAR /\ 1 <= m <= 12
  /\ 1 <= d <= days_in_month y m.
Proof.
  unfold date_new.
  destruct (negb (fits_c_int y && fits_c_int m && fits_c_int d));
    [discriminate|].
  destruct (negb ((MINYEAR <=? y) && (y <=? MAXYEAR))) eqn:Ey; [discriminate|].
  destruct (negb ((1 <=? m) && (m <=? 12))) eqn:Em; [discriminate|].
  destruct (negb ((1 <=? d) && (d <=? days_in_month y m))) eqn:Ed;
    [discriminate|].
  intros [= <-].
  apply negb_false_iff, andb_true_iff in Ey as [? ?].
  apply negb_false_iff, andb_true_iff in Em as [? ?].
  apply negb_false_iff, andb_true_iff in Ed as [? ?].
  repeat split; lia.
Qed.

Lemma comprehension_lookup {A B} (f : A -> outcome B) xs ys i y :
  comprehension f xs = Ret ys -> ys !! i = Some y ->
  exists x, xs !! i = Some x /\ f x = Ret y.
Proof.
  revert ys i. induction xs as [|x xs IH]; intros ys i; simpl.
  - intros [= <-]. discriminate.
  - intros H. bind_inv H. bind_inv H. injection H as <-.
    destruct i as [|i]; simpl.
    + intros [= <-]. eauto.
    + intros Hi. eauto.
Qed.

Lemma getitem_Ret {A} (xs : list A) i x :
  getitem xs i = Ret x -> xs !! i = Some x.
Proof. unfold getitem. destruct (xs !! i); congruence. Qed.

(** A date string that parses: its first token is the month, its second
    the day and its third the year of the date it stands for. *)
Lemma parse_date_Ret s dt :
  parse_date s = Ret dt ->
  exists tm td ty,
    re_split_hyphen s !! 0%nat = Some tm
    /\ re_split_hyphen s !! 1%nat = Some td
    /\ re_split_hyphen s !! 2%nat = Some ty
    /\ int tm = Ret (month dt) /\ int td = Ret (day dt)
    /\ int ty = Ret (year dt)
    /\ MINYEAR <= year dt <= MAXYEAR /\ 1 <= month dt <= 12
    /\ 1 <= day dt <= days_in_month (year dt) (month dt).
Proof.
  unfold parse_date, date_of_tokens. intros H.
  bind_inv H. bind_inv H. bind_inv H. bind_inv H.
  apply getitem_Ret in Hv0, Hv1, Hv2.
  destruct (comprehension_lookup _ _ _ _ _ Hv Hv0) as (ty & Hty & Ey).
  destruct (comprehension_lookup _ _ _ _ _ Hv Hv1) as (tm & Htm & Em).
  destruct (comprehension_lookup _ _ _ _ _ Hv Hv2) as (td & Htd & Ed).
  apply date_new_Ret in H as (-> & Hy & Hm & Hd). simpl.
  exists tm, td, ty. auto 12.
Qed.

(** C8.  When [initialize_date] accepts two date strings, each is read
    with its first token as the month, its second as the day and its
    third as the year: these are the dates whose distance gives
    [max_epochs], and the start date read this way is the one
    [get_date_and_time] counts the days from, so that at epoch 0 the
    environment is on the date YYYY-MM-DD made of the third, first and
    second token of the start string. *)
Theorem dates_read_month_day_year (self : t) (s1 s2 : string) (self' : t) :
  initialize_date self s1 s2 = Ret (PyNone, self') ->
  exists d1 d2,
    month_day_year s1 d1 /\ month_day_year s2 d2
    /\ 1 <= month d1 <= 12 /\ 1 <= month d2 <= 12
    /\ 1 <= day d1 <= days_in_month (year d1) (month d1)
    /\ 1 <= day d2 <= days_in_month (year d2) (month d2)
    /\ max_epochs self'
       = Some (2 * (ymd2ord (year d2) (month d2) (day d2)
                    - ymd2ord (year d1) (month d1) (day d1)))
    /\ (forall e,
          get_date_and_time (set_epochs self' e)
          = (d ← add_days d1 (e / 2);
             Ret (isoformat d, if e mod 2 =? 0 then "Open" else "Close")))
    /\ get_date_and_time (set_epochs self' 0)
       = Ret ((four_digits (year d1) ++ "-" ++ two_digits (month d1) ++ "-"
               ++ two_digits (day d1))%string, "Open").
Proof.
  intros H.
  apply initialize_date_accepts in H as (d1 & d2 & H1 & H2 & _ & ->).
  pose proof (parse_date_Ret _ _ H1)
    as (tm1 & td1 & ty1 & ? & ? & ? & ? & ? & ? & Hy1 & Hm1 & Hd1).
  pose proof (parse_date_Ret _ _ H2)
    as (tm2 & td2 & ty2 & ? & ? & ? & ? & ? & ? & Hy2 & Hm2 & Hd2).
  assert (forall e,
             get_date_and_time
               (set_epochs (set_dates self (days_between d2 d1 * 2) s1 s2) e)
             = (d ← add_days d1 (e / 2);
                Ret (isoformat d, if e mod 2 =? 0 then "Open" else "Close")))
    as Hnow.
  { intros e. unfold get_date_and_time, start_date_obj. simpl.
    rewrite H1. reflexivity. }
  exists d1, d2.
  split; [exists tm1, td1, ty1; auto 10|].
  split; [exists tm2, td2, ty2; auto 10|].
  split; [exact Hm1|]. split; [exact Hm2|].
  split; [exact Hd1|]. split; [exact Hd2|].
  split; [simpl; unfold days_between, toordinal; f_equal; lia|].
  split; [exact Hnow|].
  rewrite Hnow. unfold add_days. change (0 / 2) with 0.
  rewrite Z.add_0_r.
  pose proof (ymd2ord_range _ _ _ Hy1 Hm1 Hd1) as Hrange.
  fold (toordinal d1) in Hrange.
  destruct (Z.ltb_spec 0 (toordinal d1)); [|lia].
  destruct (Z.leb_spec (toordinal d1) MAXORDINAL); [|lia].
  simpl. unfold MINYEAR in Hy1.
  rewrite fromordinal_toordinal by (assumption || lia).
  reflexivity.
Qed.

(** C7, on the code.  A date string with a token that is not a number,
    or with a month of zero, makes [initialize_date] return [False]: it
    raises nothing and sets nothing.  The constructor drops that value and
    goes on to [reset], which stops on the attribute [start_date] that was
    never set.  An end date before the start date does raise the error of
    the date check. *)
Theorem initialize_date_returns_false :
  (forall self,
     initialize_date self "ab-01-2020" "01-11-2020" = Ret (PyBool false, self))
  /\ (forall self,
        initialize_date self "00-01-2020" "01-11-2020"
        = Ret (PyBool false, self))
  /\ (forall price_data csv rnd names lower upper,
        __init__ price_data csv rnd names "ab-01-2020" "01-11-2020" lower
          upper false
        = Raise (AttributeError "start_date"))
  /\ (forall self,
        initialize_date self "01-11-2020" "01-01-2020"
        = Raise (ValueError "Date is not valid")).
Proof.
  split; [reflexivity|]. split; [reflexivity|]. split; [reflexivity|].
  intros self. vm_compute. reflexivity.
Qed.

(** C3.  [is_done] is true exactly when [epochs >= max_epochs];
    [initialize_date], when it accepts the two strings, sets [max_epochs]
    to twice the number of days from the parsed start date to the parsed
    end date; and for "01-01-2020" and "01-11-2020", ten days apart, that
    is 20. *)
Theorem is_done_max_epochs :
  (forall self e m,
     epochs self = Some e -> max_epochs self = Some m ->
     exists b, is_done self = Ret b /\ (b = true <-> e >= m))
  /\ (forall self s1 s2 self',
        initialize_date self s1 s2 = Ret (PyNone, self') ->
        exists d1 d2,
          parse_date s1 = Ret d1 /\ parse_date s2 = Ret d2
          /\ max_epochs self' = Some (2 * days_between d2 d1))
  /\ (forall self,
        parse_date "01-01-2020" = Ret (mk_date 2020 1 1)
        /\ parse_date "01-11-2020" = Ret (mk_date 2020 1 11)
        /\ days_between (mk_date 2020 1 11) (mk_date 2020 1 1) = 10
        /\ exists self',
             initialize_date self "01-01-2020" "01-11-2020"
             = Ret (PyNone, self')
             /\ max_epochs self' = Some 20).
Proof.
  split; [|split].
  - intros self e m He Hm. exists (e >=? m).
    unfold is_done. rewrite He, Hm. simpl.
    split; [reflexivity|]. rewrite Z.geb_leb, Z.leb_le. lia.
  - intros self s1 s2 self' H.
    apply initialize_date_accepts in H as (d1 & d2 & H1 & H2 & _ & ->).
    exists d1, d2. simpl. rewrite Z.mul_comm. auto.
  - intros self. split; [reflexivity|]. split; [reflexivity|].
    split; [reflexivity|].
    eexists. split; [vm_compute; reflexivity | reflexivity].
Qed.

End DateRangeFacts.

(** ** StockEnv: the reward of a step *)

Section RewardFacts.

Import StockEnv.

Variable price_data : string -> string -> option (list Q).
Variable get_new_holdings :
  State.t -> list Q -> list Q -> outcome (list Q * Q).

Local Abbreviation step := (StockEnv.step price_data get_new_holdings).
Local Abbreviation reset := (StockEnv.reset price_data).
Local Abbreviation follows := (StockEnv.follows price_data get_new_holdings).

(** One [step] that returns, read off the code: the state it hands back
    is the environment's, it carries the money and holdings of the action
    and the date and time after the advance; the reward is computed from
    these and the prices of that date and time. *)
Lemma step_Ret self action st' reward done self' :
  step self action = Ret (st', reward, done, self') ->
  exists new_date new_time prices values,
    get_date_and_time self' = Ret (new_date, new_time)
    /\ state self' = Some st'
    /\ State.current_date st' = new_date
    /\ State.current_time st' = new_time
    /\ State.get_stock_prices price_data st' new_date new_time = Ret prices
    /\ Np.mul (State.holdings st') prices = Ret values
    /\ reward
       = (State.cash st' + Np.sum values - starting_amount self)%Q
    /\ starting_amount self' = starting_amount self
    /\ is_done self' = Ret done.
Proof.
  unfold StockEnv.step. intros H.
  bind_inv H as now Hnow. destruct now as [current_date current_time].
  bind_inv H as st Hst. bind_inv H as old_prices Hold.
  bind_inv H as bought Hbought. destruct bought as [holdings money].
  bind_inv H as self1 Hinc.
  bind_inv H as after Hafter. destruct after as [new_date new_time].
  bind_inv H as prices Hprices. bind_inv H as r Hr. bind_inv H as dn Hdn.
  injection H as <- <- <- <-.
  apply increment_date_Ret in Hinc as (d & e & k & s & Hd & He & Hk & -> & _).
  unfold calculate_reward in Hr. bind_inv Hr as values Hvalues.
  injection Hr as <-.
  exists new_date, new_time, prices, values. simpl.
  split; [exact Hafter|]. split; [reflexivity|]. split; [reflexivity|].
  split; [reflexivity|]. split; [exact Hprices|]. split; [exact Hvalues|].
  split; [reflexivity|]. split; [reflexivity|]. exact Hdn.
Qed.

Lemma follows_starting_amount a b :
  follows a b -> starting_amount b = starting_amount a.
Proof.
  induction 1 as [a|a b c action st reward done _ IH Hstep].
  - reflexivity.
  - apply step_Ret in Hstep
      as (? & ? & ? & ? & _ & _ & _ & _ & _ & _ & _ & Hsame & _).
    congruence.
Qed.

(** What [reset] records: the value of the portfolio it has just set up. *)
Lemma reset_Ret rnd self init st0 self1 :
  reset rnd self init = Ret (st0, self1) ->
  state self1 = Some st0
  /\ State.calculate_portfolio_value price_data st0
     = Ret (starting_amount self1).
Proof.
  unfold StockEnv.reset. intros H.
  bind_inv H as start Hstart. destruct start as [money shares].
  bind_inv H as sd Hsd. bind_inv H as ed Hed. bind_inv H as self2 Hepoch.
  bind_inv H as now Hnow. destruct now as [current_date current_time].
  bind_inv H as st Hst. bind_inv H as value Hvalue.
  injection H as <- <-. simpl.
  split; [reflexivity | exact Hvalue].
Qed.

(** C2.  The reward [step] returns is the cash of the state after the
    step, plus the sum of its holdings times the prices at the date and
    time the environment has advanced to, minus the portfolio value that
    the last [reset] recorded: profit and loss since the start of the
    episode, however many steps lie in between. *)
Theorem step_reward rnd self0 init st0 self1 self action st' reward done
  self' :
  reset rnd self0 init = Ret (st0, self1) ->
  follows self1 self ->
  step self action = Ret (st', reward, done, self') ->
  exists V0 new_date new_time new_prices values,
    State.calculate_portfolio_value price_data st0 = Ret V0
    /\ get_date_and_time self' = Ret (new_date, new_time)
    /\ state self' = Some st'
    /\ State.get_stock_prices price_data st' new_date new_time
       = Ret new_prices
    /\ Np.mul (State.holdings st') new_prices = Ret values
    /\ reward = (State.cash st' + Np.sum values - V0)%Q.
Proof.
  intros Hreset Hfollows Hstep.
  apply reset_Ret in Hreset as (_ & HV0).
  apply follows_starting_amount in Hfollows.
  apply step_Ret in Hstep
    as (new_date & new_time & prices & values
        & Hdt & Hst & _ & _ & Hp & Hmul & -> & _ & _).
  exists (starting_amount self1), new_date, new_time, prices, values.
  rewrite Hfollows. auto 10.
Qed.

End RewardFacts.

(** ** Floats: rounding to the nearest *)

Section FloatFacts.

Lemma Qle_bool_ext a x y : (x == y)%Q -> Qle_bool a x = Qle_bool a y.
Proof.
  intros H.
  destruct (Qle_bool a x) eqn:E1, (Qle_bool a y) eqn:E2; try reflexivity.
  - apply Qle_bool_iff in E1. setoid_rewrite H in E1.
    apply Qle_bool_iff in E1. congruence.
  - apply Qle_bool_iff in E2. setoid_rewrite <- H in E2.
    apply Qle_bool_iff in E2. congruence.
Qed.

Lemma Qeq_bool_ext a x y : (x == y)%Q -> Qeq_bool x a = Qeq_bool y a.
Proof.
  intros H.
  destruct (Qeq_bool x a) eqn:E1, (Qeq_bool y a) eqn:E2; try reflexivity.
  - apply Qeq_bool_iff in E1. setoid_rewrite H in E1.
    apply Qeq_bool_iff in E1. congruence.
  - apply Qeq_bool_iff in E2. setoid_rewrite <- H in E2.
    apply Qeq_bool_iff in E2. congruence.
Qed.

Lemma rint_comp x y : (x == y)%Q -> Float.rint x = Float.rint y.
Proof.
  intros H. unfold Float.rint.
  rewrite (Qfloor_comp _ _ H).
  rewrite (Qcompare_comp (2 * (x - inject_Z (Qfloor y)))%Q
             (2 * (y - inject_Z (Qfloor y)))%Q
             ltac:(now setoid_rewrite H) 1%Q 1%Q (Qeq_refl 1)).
  reflexivity.
Qed.

Lemma ilog2_comp x y : (x == y)%Q -> Float.ilog2 x = Float.ilog2 y.
Proof.
  intros H. unfold Float.ilog2.
  rewrite (Qle_bool_ext 1 _ _ H).
  rewrite (Qfloor_comp _ _ H).
  rewrite (Qceiling_comp (/ x)%Q (/ y)%Q ltac:(now setoid_rewrite H)).
  reflexivity.
Qed.

(** Rounding looks at the value of a rational, not at how it is
    written. *)
Lemma round_comp prec emin x y :
  (x == y)%Q -> Float.round prec emin x = Float.round prec emin y.
Proof.
  intros H. unfold Float.round.
  rewrite (Qeq_bool_ext 0 _ _ H).
  destruct (Qeq_bool y 0); [reflexivity|].
  assert (Ha : (Qabs x == Qabs y)%Q) by now setoid_rewrite H.
  rewrite (ilog2_comp _ _ Ha).
  rewrite (rint_comp
             (Qabs x
              / Float.pow2 (Z.max (Float.ilog2 (Qabs y) - prec + 1) emin))%Q
             (Qabs y
              / Float.pow2 (Z.max (Float.ilog2 (Qabs y) - prec + 1) emin))%Q)
    by now setoid_rewrite Ha.
  rewrite (Qle_bool_ext 0 _ _ H).
  reflexivity.
Qed.

(** The integer [rint] picks is within one half of its argument. *)
Lemma rint_nearest (s : Q) :
  (Qabs (inject_Z (Float.rint s) - s) <= 1 # 2)%Q.
Proof.
  unfold Float.rint.
  pose proof (Qfloor_le s) as Hlo. pose proof (Qlt_floor s) as Hhi.
  rewrite inject_Z_plus in Hhi. change (inject_Z 1) with 1%Q in Hhi.
  destruct (2 * (s - inject_Z (Qfloor s)) ?= 1)%Q eqn:E.
  - apply Qeq_alt in E.
    destruct (Z.even (Qfloor s));
      [|rewrite inject_Z_plus; change (inject_Z 1) with 1%Q];
      apply Qabs_Qle_condition; split; lra.
  - apply Qlt_alt in E.
    apply Qabs_Qle_condition; split; lra.
  - apply Qgt_alt in E. rewrite inject_Z_plus.
    change (inject_Z 1) with 1%Q.
    apply Qabs_Qle_condition; split; lra.
Qed.

Lemma pow2_pos e : (0 < Float.pow2 e)%Q.
Proof.
  unfold Float.pow2. destruct (Z.leb_spec 0 e).
  - rewrite <- (Zlt_Qlt 0). apply Z.pow_pos_nonneg; lia.
  - apply Qinv_lt_0_compat. rewrite <- (Zlt_Qlt 0).
    apply Z.pow_pos_nonneg; lia.
Qed.

(** [round] picks a multiple of the spacing at [x] that is within half
    that spacing of [x]. *)
Lemma round_nearest prec emin x :
  let q := Z.max (Float.ilog2 (Qabs x) - prec + 1) emin in
  exists m : Z,
    (Float.round prec emin x == inject_Z m * Float.pow2 q)%Q
    /\ (Qabs (Float.round prec emin x - x) <= Float.pow2 q * (1 # 2))%Q.
Proof.
  intros q. pose proof (pow2_pos q) as Hq. unfold Float.round. fold q.
  destruct (Qeq_bool x 0) eqn:E0.
  - apply Qeq_bool_iff in E0. exists 0. split; [ring|].
    setoid_rewrite E0. change (Qabs (0 - 0)) with 0%Q. lra.
  - pose proof (rint_nearest (Qabs x / Float.pow2 q)) as Hnear.
    set (m := Float.rint (Qabs x / Float.pow2 q)) in *.
    apply Qabs_Qle_condition in Hnear. destruct Hnear as [Hlo Hhi].
    assert (Hx : (Qabs x == Qabs x / Float.pow2 q * Float.pow2 q)%Q)
      by (field; lra).
    set (s := (Qabs x / Float.pow2 q)%Q) in *.
    destruct (Qle_bool 0 x) eqn:Es.
    + apply Qle_bool_iff in Es. exists m.
      rewrite Qred_correct. split; [reflexivity|].
      rewrite (Qabs_pos x Es) in Hx.
      apply Qabs_Qle_condition. split; nra.
    + assert (x < 0)%Q as Hneg.
      { apply Qnot_le_lt. intros H. apply Qle_bool_iff in H. congruence. }
      exists (- m). rewrite Qred_correct. split; [reflexivity|].
      rewrite (Qabs_neg x) in Hx by lra.
      rewrite inject_Z_opp.
      apply Qabs_Qle_condition. split; nra.
Qed.

Lemma round32_of x y : (x == y)%Q -> Float32.round x = Float32.round y.
Proof. apply round_comp. Qed.

Lemma round64_of x y : (x == y)%Q -> Float64.round x = Float64.round y.
Proof. apply round_comp. Qed.

(** Rounding on small inputs: values float32 has, values it has not, a
    tie that goes to the even mantissa, the least subnormal, and the
    first value past the largest float. *)
Example float32_examples :
  Float32.round 1 = 1%Q
  /\ Float32.round 16777217 = 16777216%Q
  /\ Float32.round (5000037 # 100) = (12800095 # 256)%Q
  /\ Float32.round (16777217 # 16777216) = 1%Q
  /\ Float32.round (16777219 # 16777216) = (4194305 # 4194304)%Q
  /\ Float32.round (5 # 1000) = (5368709 # 1073741824)%Q
  /\ Float32.round (3 # 2 ^ 151) = (1 # 2 ^ 149)%Q
  /\ Float32.round (1 # 2 ^ 150) = 0%Q
  /\ Float32.finite (inject_Z (2 ^ 128 - 2 ^ 103 - 1))
  /\ ~ Float32.finite (inject_Z (2 ^ 128 - 2 ^ 103))
  /\ Float64.round (1 # 10)
     = (3602879701896397 # 36028797018963968)%Q.
Proof.
  repeat (split; [vm_compute; reflexivity|]).
  split; [vm_compute; discriminate | vm_compute; reflexivity].
Qed.

End FloatFacts.

(** ** DDPG: the target networks *)

Section SoftUpdateFacts.

Import DDPG.

(** Without rounding the value of the update does lie strictly between
    the two. *)
Lemma soft_update_between (tau p t : Q) :
  (0 < tau)%Q -> (tau < 1)%Q -> between p t (tau * p + (1 - tau) * t)%Q.
Proof.
  intros H0 H1. unfold between.
  split; [|split]; intros Hpt; split; nra.
Qed.

Lemma soft_update_lookup tau (P T : list Q) j p t :
  P !! j = Some p -> T !! j = Some t ->
  soft_update tau P T !! j = Some (soft_update_entry tau p t).
Proof.
  intros HP HT. unfold soft_update.
  rewrite lookup_zip_with, HP. simpl. rewrite HT. reflexivity.
Qed.

Lemma zip_soft_update_shapes tau (live target : list (list Q)) :
  same_shapes live target ->
  same_shapes (zip_with (soft_update tau) live target) target.
Proof.
  unfold same_shapes. induction 1 as [|P T live target Hlen _ IH]; simpl.
  - constructor.
  - constructor; [|exact IH].
    unfold soft_update. rewrite length_zip_with. lia.
Qed.

Lemma zip_soft_update_entry tau (live target : list (list Q)) i j P T p t :
  live !! i = Some P -> target !! i = Some T ->
  P !! j = Some p -> T !! j = Some t ->
  exists T',
    zip_with (soft_update tau) live target !! i = Some T'
    /\ T' !! j = Some (soft_update_entry tau p t).
Proof.
  intros HP HT Hp Ht. exists (soft_update tau P T).
  split; [rewrite lookup_zip_with, HP; simpl; now rewrite HT|].
  now apply soft_update_lookup.
Qed.

Lemma zip_soft_update_tracks tau (live target : list (list Q)) :
  same_shapes live target ->
  tracks tau live target (zip_with (soft_update tau) live target).
Proof.
  intros Hshapes. split; [now apply zip_soft_update_shapes|].
  intros i j T t HT Ht.
  destruct (Forall2_lookup_r _ _ _ _ _ Hshapes HT) as (P & HP & Hlen).
  destruct (lookup_lt_is_Some_2 P j) as [p Hp].
  { rewrite Hlen. eapply lookup_lt_Some; eauto. }
  destruct (zip_soft_update_entry tau live target i j P T p t HP HT Hp Ht)
    as (T' & HT' & Ht').
  exists P, p, T', (soft_update_entry tau p t). auto 10.
Qed.

(** The update at the two ends of [tau], on float32 values. *)
Lemma soft_update_ends tau p t :
  Float32.representable p -> Float32.representable t ->
  ((tau == 1)%Q -> (soft_update_entry tau p t == p)%Q)
  /\ ((tau == 0)%Q -> (soft_update_entry tau p t == t)%Q).
Proof.
  intros [Hp _] [Ht _]. unfold soft_update_entry.
  assert (Hzero : Float32.round 0 = 0%Q) by reflexivity.
  split; intros Htau.
  - rewrite (round32_of tau 1 Htau).
    rewrite (round64_of (1 - tau) 0) by (rewrite Htau; reflexivity).
    change (Float32.round 1) with 1%Q.
    change (Float64.round 0) with 0%Q. rewrite Hzero.
    rewrite (round32_of (1 * p) p) by ring.
    rewrite (round32_of (0 * t) 0) by ring. rewrite Hzero.
    rewrite (round32_of (Float32.round p + 0) p) by (rewrite Hp; ring).
    exact Hp.
  - rewrite (round32_of tau 0 Htau).
    rewrite (round64_of (1 - tau) 1) by (rewrite Htau; reflexivity).
    change (Float64.round 1) with 1%Q.
    change (Float32.round 1) with 1%Q. rewrite Hzero.
    rewrite (round32_of (0 * p) 0) by ring. rewrite Hzero.
    rewrite (round32_of (1 * t) t) by ring.
    rewrite (round32_of (0 + Float32.round t) t) by (rewrite Ht; ring).
    exact Ht.
Qed.

Lemma zip_soft_update_takes_ends tau (live target : list (list Q)) :
  takes_ends tau live target (zip_with (soft_update tau) live target).
Proof.
  intros i j P T p t HP HT Hp Ht.
  destruct (zip_soft_update_entry tau live target i j P T p t HP HT Hp Ht)
    as (T' & HT' & Ht').
  exists T', (soft_update_entry tau p t).
  split; [exact HT'|]. split; [exact Ht'|]. apply soft_update_ends.
Qed.

Lemma Critic_assign_parameters n (live : Critic) tau :
  Critic_parameters
    (Critic_assign n
       (zip_with (soft_update tau) (Critic_parameters live)
          (Critic_parameters n)))
  = zip_with (soft_update tau) (Critic_parameters live) (Critic_parameters n).
Proof. reflexivity. Qed.

Lemma Actor_assign_parameters n (live : Actor) tau :
  Actor_parameters
    (Actor_assign n
       (zip_with (soft_update tau) (Actor_parameters live)
          (Actor_parameters n)))
  = zip_with (soft_update tau) (Actor_parameters live) (Actor_parameters n).
Proof. reflexivity. Qed.

Section Train.

Variable linear : Linear -> rows -> rows.
Variable prelu : tensor -> rows -> rows.
Variable tanh : rows -> rows.
Variable optimizer : Type.
Variable critic_step :
  optimizer -> Critic -> rows -> rows -> rows -> Critic * optimizer.
Variable actor_step :
  optimizer -> Actor -> Critic -> rows -> Actor * optimizer.

Local Abbreviation train :=
  (DDPG.train linear prelu tanh optimizer critic_step actor_step).

(** [train] returns whenever the batch can be drawn. *)
Lemma train_returns self buf ind b :
  ReplayBuffer.sample buf ind = Ret b ->
  exists self', train self buf ind = Ret self'.
Proof.
  intros Hb. unfold DDPG.train. rewrite Hb, bind_of_Ret.
  destruct (critic_step _ _ _ _ _) as [critic' copt'].
  destruct (actor_step _ _ _ _) as [actor' aopt'].
  eauto.
Qed.

(** C5, as the code has it.  Every call of [train] that returns, whatever
    [total_it] and [policy_freq] are, ends with the soft update of both
    target networks, where the optimizer steps have kept the shapes of
    the parameters: the targets keep their shapes, and every entry is the
    float32 value of [tau * live + (1 - tau) * previous], with [live] the
    parameter of the network just trained and the two products and the
    sum each rounded to the nearest float32. *)
Theorem train_soft_update (self : DDPG.t optimizer)
  (buf : ReplayBuffer.t) (ind : list nat) (self' : DDPG.t optimizer) :
  train self buf ind = Ret self' ->
  same_shapes (Critic_parameters (critic self'))
    (Critic_parameters (critic_target self)) ->
  same_shapes (Actor_parameters (actor self'))
    (Actor_parameters (actor_target self)) ->
  tracks (tau self) (Critic_parameters (critic self'))
    (Critic_parameters (critic_target self))
    (Critic_parameters (critic_target self'))
  /\ tracks (tau self) (Actor_parameters (actor self'))
       (Actor_parameters (actor_target self))
       (Actor_parameters (actor_target self'))
  /\ total_it self' = total_it self + 1.
Proof.
  unfold DDPG.train. intros H. bind_inv H as b Hb.
  destruct (critic_step _ _ _ _ _) as [critic' copt'].
  destruct (actor_step _ _ _ _) as [actor' aopt'].
  injection H as <-.
  cbn [critic critic_target actor actor_target total_it].
  intros Hcritic Hactor.
  split; [|split; [|reflexivity]].
  - exact (zip_soft_update_tracks (tau self) (Critic_parameters critic')
             (Critic_parameters (critic_target self)) Hcritic).
  - exact (zip_soft_update_tracks (tau self) (Actor_parameters actor')
             (Actor_parameters (actor_target self)) Hactor).
Qed.

End Train.

(** C1, on the code.  The target of [train] is
    [reward + not_done * discount * critic_target(next_state, a)], with no
    noise added, but [a] is the target actor applied to the sampled
    [state], where the claim has [next_state].  On a batch whose state is
    1 and whose next state is 2, with layers that add up their inputs,
    the code arrives at 1140/100 and the claim at 2090/100. *)
Theorem train_target_action_from_state :
  (forall linear prelu tanh optimizer (self : DDPG.t optimizer) b,
     target_Q linear prelu tanh optimizer self b
     = tadd (ReplayBuffer.b_reward b)
         (tmul (scale_r (ReplayBuffer.b_not_done b) (discount self))
            (Critic_forward linear prelu (critic_target self)
               (ReplayBuffer.b_next_state b)
               (Actor_forward linear prelu tanh (actor_target self)
                  (ReplayBuffer.b_state b)))))
  /\ target_Q Fixture.linear Fixture.prelu Fixture.tanh unit Fixture.agent
       Fixture.one_batch = [[(1140 # 100)%Q]]
  /\ target_Q_claimed Fixture.linear Fixture.prelu Fixture.tanh unit
       Fixture.agent Fixture.one_batch = [[(2090 # 100)%Q]]
  /\ target_Q Fixture.linear Fixture.prelu Fixture.tanh unit Fixture.agent
       Fixture.one_batch
     <> target_Q_claimed Fixture.linear Fixture.prelu Fixture.tanh unit
          Fixture.agent Fixture.one_batch.
Proof.
  split; [reflexivity|]. split; [reflexivity|]. split; [reflexivity|].
  vm_compute. discriminate.
Qed.

End SoftUpdateFacts.

Section SoftUpdateRuns.

Import Fixture DDPG.

(** Rounding takes the update onto either end: with a [tau] of one half
    onto the live weight 1, with the default [tau] of 0.005 back onto the
    target weight next above 1. *)
Example soft_update_lands_on_an_end :
  soft_update_entry (1 # 2) 1 above_one = 1%Q
  /\ soft_update_entry (Float64.round (5 # 1000)) 1 above_one = above_one.
Proof. split; vm_compute; reflexivity. Qed.

(** C5, as the specification words it, fails.  [half_agent] has a [tau]
    of one half, live weights of 1 and target weights of the float32
    value next above 1.  The exact value of the update lies midway
    between two float32 values and is rounded to the even one, which is
    1: the target lands on the live weight, not strictly between it and
    the previous target, and is not [tau * live + (1 - tau) * previous]
    either. *)
Lemma soft_update_claim_fails :
  ~ (forall (self : DDPG.t unit) (buf : ReplayBuffer.t) (ind : list nat)
            (self' : DDPG.t unit),
       DDPG.train linear prelu tanh unit critic_step actor_step self buf ind
       = Ret self' ->
       tracks_claimed (tau self) (Critic_parameters (critic self'))
         (Critic_parameters (critic_target self))
         (Critic_parameters (critic_target self'))
       /\ tracks_claimed (tau self) (Actor_parameters (actor self'))
            (Actor_parameters (actor_target self))
            (Actor_parameters (actor_target self'))).
Proof.
  intros Hclaim.
  assert (Htrain :
    DDPG.train linear prelu tanh unit critic_step actor_step half_agent
      buffer1 [0%nat] = Ret half_agent1) by (vm_compute; reflexivity).
  destruct (Hclaim _ _ _ _ Htrain) as (Hcritic & _).
  destruct (Hcritic 0%nat 0%nat [1%Q] [above_one] 1%Q above_one eq_refl
              eq_refl eq_refl eq_refl)
    as (T' & t' & HT' & Ht' & _ & Hbetween).
  vm_compute in HT'. injection HT' as <-.
  vm_compute in Ht'. injection Ht' as <-.
  destruct (Hbetween eq_refl eq_refl) as (Hlt & _).
  destruct (Hlt eq_refl) as (Hbad & _).
  vm_compute in Hbad. discriminate.
Qed.

End SoftUpdateRuns.

(** ** The training loop: the done flag of a stored transition *)

Section LoopFacts.

Variable price_data : string -> string -> option (list Q).
Variable get_new_holdings :
  State.t -> list Q -> list Q -> outcome (list Q * Q).
Variable to_numpy : State.t -> list Q.
Variable linear : DDPG.Linear -> DDPG.rows -> DDPG.rows.
Variable prelu : DDPG.tensor -> DDPG.rows -> DDPG.rows.
Variable tanh : DDPG.rows -> DDPG.rows.
Variable optimizer : Type.
Variable critic_step :
  optimizer -> DDPG.Critic -> DDPG.rows -> DDPG.rows -> DDPG.rows ->
  DDPG.Critic * optimizer.
Variable actor_step :
  optimizer -> DDPG.Actor -> DDPG.Critic -> DDPG.rows ->
  DDPG.Actor * optimizer.

Local Abbreviation iteration :=
  (Run.iteration price_data get_new_holdings to_numpy linear prelu tanh
     optimizer critic_step actor_step).
Local Abbreviation choose_action :=
  (Run.choose_action to_numpy linear prelu tanh optimizer).

(** C9, as the code has it.  In every iteration of the loop that runs to
    its end, the transition goes into the buffer at the write pointer with
    [not_done = 1 - done_bool], where [done_bool] is the done flag of the
    environment, as a float, while the step count of the episode is below
    [max_epochs], and zero from then on. *)
Theorem iteration_done_flag (t : Z) (c : Run.chance)
  (l l' : Run.locals optimizer) :
  iteration t c l = Ret l' ->
  exists action st reward done env' m s a n,
    choose_action t c l = Ret action
    /\ StockEnv.step price_data get_new_holdings (Run.env l) action
       = Ret (st, reward, done, env')
    /\ StockEnv.max_epochs env' = Some m
    /\ ReplayBuffer.entry (Run.replay_buffer l')
         (ReplayBuffer.ptr (Run.replay_buffer l))
       = Some (s, a, n, reward,
               (1 - Run.done_bool done (Run.episode_timesteps l + 1) m)%Q)
    /\ Run.done_bool done (Run.episode_timesteps l + 1) m
       = (if Run.episode_timesteps l + 1 <? m
          then float_of_bool done else 0%Q).
Proof.
  unfold Run.iteration. intros H.
  bind_inv H as action Haction.
  bind_inv H as stepped Hstep.
  destruct stepped as [[[st reward] done] env'].
  bind_inv H as m Hm. apply getattr_Ret in Hm.
  bind_inv H as st2 Hst2.
  bind_inv H as buf Hadd.
  bind_inv H as policy' Hpolicy.
  apply add_Ret in Hadd as (_ & (s & a & n & _ & _ & _ & Hentry) & _).
  exists action, st, reward, done, env', m, s, a, n.
  split; [exact Haction|]. split; [exact Hstep|]. split; [exact Hm|].
  split; [|reflexivity].
  destruct done.
  - bind_inv H as again Hreset. destruct again as [st3 env3].
    injection H as <-. exact Hentry.
  - injection H as <-. exact Hentry.
Qed.

End LoopFacts.

Section LoopRuns.

Import Fixture.

Local Abbreviation run_iteration :=
  (Run.iteration price_data get_new_holdings to_numpy linear prelu tanh
     unit critic_step actor_step).

(** The first iteration over [weekend_env] leads from [locals0] to
    [locals1]. *)
Example first_iteration : run_iteration 0 chance0 locals0 = Ret locals1.
Proof. vm_compute. reflexivity. Qed.

(** C9, as the specification words it, fails.  In the second iteration
    over [weekend_env] the step leads from Friday at closing to Monday at
    opening, epoch 6 of 6, so the environment reports done; this is step 2
    of the episode, short of [max_epochs = 6]; and the transition is
    stored with [not_done = 0], the flag kept, where the claim has it
    zeroed. *)
Lemma done_flag_claim_fails :
  ~ (forall (t : Z) (c : Run.chance) (l l' : Run.locals unit),
       run_iteration t c l = Ret l' ->
       exists action st reward done env' m s a n,
         Run.choose_action to_numpy linear prelu tanh unit t c l = Ret action
         /\ StockEnv.step price_data get_new_holdings (Run.env l) action
            = Ret (st, reward, done, env')
         /\ StockEnv.max_epochs env' = Some m
         /\ ReplayBuffer.entry (Run.replay_buffer l')
              (ReplayBuffer.ptr (Run.replay_buffer l))
            = Some (s, a, n, reward,
                    (1 - Run.done_bool_claimed done
                           (Run.episode_timesteps l + 1) m)%Q)).
Proof.
  intros Hclaim.
  assert (exists l2,
             run_iteration 1 chance0 locals1 = Ret l2
             /\ ReplayBuffer.not_done (Run.replay_buffer l2) !! 1%nat
                = Some 0%Q) as (l2 & Hrun & Hstored).
  { eexists. split; vm_compute; reflexivity. }
  destruct (Hclaim 1 chance0 locals1 l2 Hrun)
    as (action & st & reward & done & env' & m & s & a & n
        & Haction & Hstep & Hm & Hentry).
  vm_compute in Haction. injection Haction as <-.
  vm_compute in Hstep. injection Hstep as <- <- <- <-.
  vm_compute in Hm. injection Hm as <-.
  unfold ReplayBuffer.entry in Hentry.
  change (ReplayBuffer.ptr (Run.replay_buffer locals1)) with 1%nat in Hentry.
  rewrite Hstored in Hentry.
  destruct (ReplayBuffer.state (Run.replay_buffer l2) !! 1%nat);
    [|discriminate].
  destruct (ReplayBuffer.action (Run.replay_buffer l2) !! 1%nat);
    [|discriminate].
  destruct (ReplayBuffer.next_state (Run.replay_buffer l2) !! 1%nat);
    [|discriminate].
  destruct (ReplayBuffer.reward (Run.replay_buffer l2) !! 1%nat);
    [|discriminate].
  vm_compute in Hentry. discriminate.
Qed.

End LoopRuns.

(** ** The theorems at work on the small market *)

Section Witnesses.

Import Fixture.

Lemma check_invalid_sound dates d e n from :
  StockEnv.check_invalid dates d e from n = true ->
  StockEnv.all_invalid dates d e from (from + Z.of_nat n).
Proof.
  revert from. induction n as [|n IH]; intros from H j Hj; [lia|].
  simpl in H. apply andb_true_iff in H as [Hhere Hrest].
  destruct (Z.eq_dec j from) as [->|Hne].
  - destruct (StockEnv.date_string d (e + from)) as [s|]; [|discriminate].
    exists s. split; [reflexivity|]. now apply negb_true_iff.
  - apply (IH (from + 1) Hrest). lia.
Defined.

Lemma add_ring_buffer_witness :
  (0 < 4)%nat
  /\ Forall (ReplayBuffer.fits 2 1)
       [transition 1; transition 2; transition 3; transition 4]
  /\ ReplayBuffer.fits 2 1 (transition 5)
  /\ exists b b',
       ReplayBuffer.adds (ReplayBuffer.__init__ 2 1 4)
         [transition 1; transition 2; transition 3; transition 4] = Ret b
       /\ ReplayBuffer.add_transition b (transition 5) = Ret b'
       /\ ReplayBuffer.entry b' (ReplayBuffer.ptr b)
          = Some (ReplayBuffer.stored (transition 5))
       /\ ReplayBuffer.ptr b = 0%nat
       /\ ReplayBuffer.size b' = 4%nat
       /\ ReplayBuffer.entry b 0 = Some (ReplayBuffer.stored (transition 1))
       /\ ReplayBuffer.entry b' 0 = Some (ReplayBuffer.stored (transition 5)).
Proof.
  assert (Hfits : forall n, ReplayBuffer.fits 2 1 (transition n))
    by (intros n; repeat split).
  split; [lia|]. split; [repeat constructor|]. split; [apply Hfits|].
  destruct (add_ring_buffer 2 1 4
              [transition 1; transition 2; transition 3; transition 4]
              (transition 5))
    as (b & b' & Hb & Hb' & Hwritten & _ & Hptr & _ & Hsize & Hsize' & _
        & _ & Hfirst & Hlast).
  - lia.
  - repeat constructor.
  - apply Hfits.
  - exists b, b'.
    split; [exact Hb|]. split; [exact Hb'|]. split; [exact Hwritten|].
    split; [exact Hptr|].
    split; [rewrite Hsize', Hsize; reflexivity|].
    split; [apply Hfirst; [reflexivity | simpl; lia]|].
    apply Hlast. reflexivity.
Defined.

Lemma step_reward_witness :
  StockEnv.reset price_data no_draws env0 false = Ret (state0, env0)
  /\ StockEnv.follows price_data get_new_holdings env0 env1
  /\ StockEnv.step price_data get_new_holdings env1 [0%Q]
     = Ret (state2, 0%Q, false, env2)
  /\ exists V0 new_date new_time new_prices values,
       State.calculate_portfolio_value price_data state0 = Ret V0
       /\ StockEnv.get_date_and_time env2 = Ret (new_date, new_time)
       /\ StockEnv.state env2 = Some state2
       /\ State.get_stock_prices price_data state2 new_date new_time
          = Ret new_prices
       /\ Np.mul (State.holdings state2) new_prices = Ret values
       /\ 0%Q = (State.cash state2 + Np.sum values - V0)%Q.
Proof.
  assert (Hreset :
    StockEnv.reset price_data no_draws env0 false = Ret (state0, env0))
    by (vm_compute; reflexivity).
  assert (Hfirst :
    StockEnv.step price_data get_new_holdings env0 [5%Q]
    = Ret (state1, 10%Q, false, env1)) by (vm_compute; reflexivity).
  assert (Hfollows : StockEnv.follows price_data get_new_holdings env0 env1)
    by (eapply StockEnv.follows_step;
        [apply StockEnv.follows_here | exact Hfirst]).
  assert (Hstep :
    StockEnv.step price_data get_new_holdings env1 [0%Q]
    = Ret (state2, 0%Q, false, env2)) by (vm_compute; reflexivity).
  split; [exact Hreset|]. split; [exact Hfollows|]. split; [exact Hstep|].
  exact (step_reward price_data get_new_holdings no_draws env0 false state0
           env0 env1 [0%Q] state2 0%Q false env2 Hreset Hfollows Hstep).
Defined.

Lemma is_done_max_epochs_witness :
  StockEnv.epochs env2 = Some 2 /\ StockEnv.max_epochs env2 = Some 18
  /\ (exists b, StockEnv.is_done env2 = Ret b /\ (b = true <-> 2 >= 18))
  /\ StockEnv.initialize_date env0 "01-02-2020" "01-11-2020"
     = Ret (StockEnv.PyNone, env0)
  /\ exists d1 d2,
       StockEnv.parse_date "01-02-2020" = Ret d1
       /\ StockEnv.parse_date "01-11-2020" = Ret d2
       /\ StockEnv.max_epochs env0
          = Some (2 * Datetime.days_between d2 d1).
Proof.
  destruct is_done_max_epochs as (Hdone & Hmax & _).
  assert (Hinit :
    StockEnv.initialize_date env0 "01-02-2020" "01-11-2020"
    = Ret (StockEnv.PyNone, env0)) by (vm_compute; reflexivity).
  split; [reflexivity|]. split; [reflexivity|].
  split; [apply (Hdone env2 2 18); reflexivity|].
  split; [exact Hinit|].
  exact (Hmax env0 "01-02-2020" "01-11-2020" env0 Hinit).
Defined.

Lemma train_soft_update_witness :
  DDPG.train linear prelu tanh unit critic_step actor_step half_agent
    buffer1 [0%nat] = Ret half_agent1
  /\ DDPG.same_shapes (DDPG.Critic_parameters (DDPG.critic half_agent1))
       (DDPG.Critic_parameters (DDPG.critic_target half_agent))
  /\ DDPG.same_shapes (DDPG.Actor_parameters (DDPG.actor half_agent1))
       (DDPG.Actor_parameters (DDPG.actor_target half_agent))
  /\ DDPG.tracks (DDPG.tau half_agent)
       (DDPG.Critic_parameters (DDPG.critic half_agent1))
       (DDPG.Critic_parameters (DDPG.critic_target half_agent))
       (DDPG.Critic_parameters (DDPG.critic_target half_agent1))
  /\ DDPG.tracks (DDPG.tau half_agent)
       (DDPG.Actor_parameters (DDPG.actor half_agent1))
       (DDPG.Actor_parameters (DDPG.actor_target half_agent))
       (DDPG.Actor_parameters (DDPG.actor_target half_agent1))
  /\ DDPG.in_floats (1 # 2) 1 above_one
  /\ DDPG.soft_update_entry (1 # 2) 1 above_one = 1%Q
  /\ DDPG.total_it half_agent1 = 1.
Proof.
  assert (Htrain :
    DDPG.train linear prelu tanh unit critic_step actor_step half_agent
      buffer1 [0%nat] = Ret half_agent1) by (vm_compute; reflexivity).
  assert (Hcs :
    DDPG.same_shapes (DDPG.Critic_parameters (DDPG.critic half_agent1))
      (DDPG.Critic_parameters (DDPG.critic_target half_agent)))
    by (repeat constructor).
  assert (Has :
    DDPG.same_shapes (DDPG.Actor_parameters (DDPG.actor half_agent1))
      (DDPG.Actor_parameters (DDPG.actor_target half_agent)))
    by (repeat constructor).
  destruct (train_soft_update linear prelu tanh unit critic_step actor_step
              half_agent buffer1 [0%nat] half_agent1 Htrain Hcs Has)
    as (Hcritic & Hactor & Hit).
  split; [exact Htrain|]. split; [exact Hcs|]. split; [exact Has|].
  split; [exact Hcritic|]. split; [exact Hactor|].
  split; [|split; [vm_compute; reflexivity | exact Hit]].
  unfold DDPG.in_floats, Float64.representable, Float32.representable,
    Float.representable.
  repeat split; vm_compute; reflexivity.
Defined.

Lemma increment_date_advances_witness :
  StockEnv.increment_date friday_env = Ret (StockEnv.set_epochs friday_env 6)
  /\ (exists e e' date time,
        StockEnv.epochs friday_env = Some e
        /\ StockEnv.epochs (StockEnv.set_epochs friday_env 6) = Some e'
        /\ e < e'
        /\ StockEnv.get_date_and_time (StockEnv.set_epochs friday_env 6)
           = Ret (date, time)
        /\ StockEnv.contains
             (StockEnv.valid_dates (StockEnv.set_epochs friday_env 6)) date
           = true)
  /\ StockEnv.all_invalid calendar friday 1 1 5
  /\ StockEnv.date_string friday (1 + 5) = Ret "2020-01-06"
  /\ StockEnv.all_invalid gap_calendar thursday 0 1 20
  /\ StockEnv.date_string thursday (0 + 20) = Ret "2020-01-12"
  /\ StockEnv.increment_date gap_env
     = Raise (Exception_ "2020-01-12 is out of range").
Proof.
  destruct (increment_date_advances friday_env) as (Hret & Hfinds & _).
  destruct (increment_date_advances gap_env) as (_ & _ & Hraise).
  assert (Hweek : StockEnv.all_invalid calendar friday 1 1 5)
    by (apply (check_invalid_sound calendar friday 1 4 1); reflexivity).
  assert (Hgap : StockEnv.all_invalid gap_calendar thursday 0 1 20)
    by (apply (check_invalid_sound gap_calendar thursday 0 19 1);
        reflexivity).
  assert (Hinc :
    StockEnv.increment_date friday_env
    = Ret (StockEnv.set_epochs friday_env 6)).
  { apply (Hfinds friday 1 5 "2020-01-06");
      [reflexivity | discriminate | reflexivity | lia | exact Hweek
      | reflexivity | reflexivity]. }
  split; [exact Hinc|]. split; [exact (Hret _ Hinc)|].
  split; [exact Hweek|]. split; [reflexivity|].
  split; [exact Hgap|]. split; [reflexivity|].
  apply (Hraise thursday 0 "2020-01-12");
    [reflexivity | discriminate | reflexivity | exact Hgap | reflexivity].
Defined.

Lemma increment_date_stops_before_20_witness :
  StockEnv.start_date_obj gap_env = Ret thursday
  /\ StockEnv.epochs gap_env = Some 0
  /\ StockEnv.all_invalid gap_calendar thursday 0 1 20
  /\ StockEnv.date_string thursday (0 + 20) = Ret "2020-01-12"
  /\ StockEnv.contains (StockEnv.valid_dates gap_env) "2020-01-12" = true
  /\ StockEnv.increment_date gap_env
     = Raise (Exception_ "2020-01-12 is out of range")
  /\ StockEnv.increment_date (StockEnv.with_valid_dates gap_env [])
     = (self' ← StockEnv.increment_date gap_env;
        Ret (StockEnv.with_valid_dates self' [])).
Proof.
  destruct (increment_date_stops_before_20 gap_env thursday 0 eq_refl eq_refl)
    as (Hsame & Hraise).
  assert (Hgap : StockEnv.all_invalid gap_calendar thursday 0 1 20)
    by (apply (check_invalid_sound gap_calendar thursday 0 19 1);
        reflexivity).
  split; [reflexivity|]. split; [reflexivity|]. split; [exact Hgap|].
  split; [reflexivity|]. split; [reflexivity|].
  split.
  - apply (Hraise "2020-01-12");
      [discriminate | exact Hgap | reflexivity | reflexivity].
  - apply Hsame. intros j s Hj Hs.
    destruct (Hgap j ltac:(lia)) as (s' & Hs' & Hbad).
    rewrite Hs in Hs'. injection Hs' as <-.
    simpl StockEnv.valid_dates. rewrite Hbad. reflexivity.
Defined.

Lemma dates_read_month_day_year_witness :
  StockEnv.initialize_date env0 "01-02-2020" "01-11-2020"
  = Ret (StockEnv.PyNone, env0)
  /\ StockEnv.month_day_year "01-02-2020" thursday
  /\ StockEnv.get_date_and_time (StockEnv.set_epochs env0 0)
     = Ret ("2020-01-02", "Open")
  /\ exists d1 d2,
       StockEnv.month_day_year "01-02-2020" d1
       /\ StockEnv.month_day_year "01-11-2020" d2
       /\ StockEnv.max_epochs env0
          = Some (2 * (Datetime.ymd2ord (Datetime.year d2)
                         (Datetime.month d2) (Datetime.day d2)
                       - Datetime.ymd2ord (Datetime.year d1)
                           (Datetime.month d1) (Datetime.day d1))).
Proof.
  assert (Hinit :
    StockEnv.initialize_date env0 "01-02-2020" "01-11-2020"
    = Ret (StockEnv.PyNone, env0)) by (vm_compute; reflexivity).
  destruct (dates_read_month_day_year env0 "01-02-2020" "01-11-2020" env0
              Hinit)
    as (d1 & d2 & H1 & H2 & _ & _ & _ & _ & Hmax & _ & _).
  split; [exact Hinit|].
  split; [exists "01", "02", "2020"; repeat split; reflexivity|].
  split; [reflexivity|].
  exists d1, d2. split; [exact H1|]. split; [exact H2|]. exact Hmax.
Defined.

Lemma iteration_done_flag_witness :
  Run.iteration price_data get_new_holdings to_numpy linear prelu tanh unit
    critic_step actor_step 1 chance0 locals1 = Ret locals2
  /\ exists action st reward done env' m s a n,
       Run.choose_action to_numpy linear prelu tanh unit 1 chance0 locals1
       = Ret action
       /\ StockEnv.step price_data get_new_holdings (Run.env locals1) action
          = Ret (st, reward, done, env')
       /\ StockEnv.max_epochs env' = Some m
       /\ ReplayBuffer.entry (Run.replay_buffer locals2)
            (ReplayBuffer.ptr (Run.replay_buffer locals1))
          = Some (s, a, n, reward,
                  (1 - Run.done_bool done (Run.episode_timesteps locals1 + 1)
                         m)%Q)
       /\ Run.done_bool done (Run.episode_timesteps locals1 + 1) m
          = (if Run.episode_timesteps locals1 + 1 <? m
             then float_of_bool done else 0%Q).
Proof.
  assert (Hrun :
    Run.iteration price_data get_new_holdings to_numpy linear prelu tanh
      unit critic_step actor_step 1 chance0 locals1 = Ret locals2)
    by (vm_compute; reflexivity).
  split; [exact Hrun|].
  exact (iteration_done_flag price_data get_new_holdings to_numpy linear
           prelu tanh unit critic_step actor_step 1 chance0 locals1 locals2
           Hrun).
Defined.

End Witnesses.

(** * Further properties of the code *)

(** ** StockEnv: where [increment_date] lands *)

Section IncrementDateLanding.

Import StockEnv.

Lemma search_first dates d e fuel incr adjusted k :
  date_string d (e + incr) = Ret adjusted ->
  search_valid_date fuel dates d e incr adjusted = Ret k ->
  incr <= k /\ (incr < 20 -> k < 20)
  /\ all_invalid dates d e incr k
  /\ exists s, date_string d (e + k) = Ret s /\ contains dates s = true.
Proof.
  revert incr adjusted.
  induction fuel as [|fuel IH]; intros incr adjusted Hadj H; simpl in H;
    destruct (contains dates adjusted) eqn:Hc; try discriminate.
  - injection H as <-. split; [lia|]. split; [lia|].
    split; [intros j Hj; lia | eauto].
  - injection H as <-. split; [lia|]. split; [lia|].
    split; [intros j Hj; lia | eauto].
  - bind_inv H as adj' Hadj'.
    destruct (Z.geb_spec (incr + 1) 20) as [|Hlt]; [discriminate|].
    destruct (IH _ _ Hadj' H) as (Hle & Hbound & Hinv & Hvalid).
    split; [lia|]. split; [lia|]. split; [|exact Hvalid].
    intros j Hj. destruct (Z.eq_dec j incr) as [->|Hne].
    + exists adjusted. auto.
    + apply Hinv. lia.
Qed.

Lemma increment_date_first self self' :
  increment_date self = Ret self' ->
  exists d e k s,
    start_date_obj self = Ret d /\ epochs self = Some e /\ 1 <= k <= 19
    /\ self' = set_epochs self (e + k)
    /\ all_invalid (valid_dates self) d e 1 k
    /\ date_string d (e + k) = Ret s
    /\ contains (valid_dates self) s = true.
Proof.
  unfold increment_date. intros H.
  bind_inv H as d Hd. bind_inv H as name Hname. bind_inv H as e He.
  bind_inv H as adj Hadj. bind_inv H as k Hk.
  injection H as <-. apply getattr_Ret in He.
  destruct (search_first _ _ _ _ _ _ _ Hadj Hk)
    as (Hle & Hbound & Hinv & s & Hs & Hvalid).
  exists d, e, k, s.
  split; [exact Hd|]. split; [exact He|]. split; [lia|].
  split; [reflexivity|]. auto.
Qed.

(** X1.  A call of [increment_date] that returns has added between 1 and
    19 to [epochs] and changed no other attribute; the increment is the
    first one whose date the calendar has: the date of that increment is
    in [valid_dates], and the date of no smaller one is. *)
Theorem increment_date_at_most_19 (self self' : t) :
  increment_date self = Ret self' ->
  exists d e k s,
    start_date_obj self = Ret d /\ epochs self = Some e
    /\ 1 <= k <= 19
    /\ self' = set_epochs self (e + k)
    /\ all_invalid (valid_dates self) d e 1 k
    /\ date_string d (e + k) = Ret s
    /\ contains (valid_dates self) s = true.
Proof.
  intros H.
  apply increment_date_first in H
    as (d & e & k & s & Hd & He & Hk & Hself & Hinv & Hs & Hvalid).
  exists d, e, k, s. auto 10.
Qed.

(** Two increments that make an odd epoch and the even one before it are
    on the same day. *)
Lemma same_day d n :
  n mod 2 = 1 -> date_string d (n - 1) = date_string d n.
Proof.
  intros Hodd. unfold date_string.
  replace ((n - 1) / 2) with (n / 2)
    by (Z.to_euclidean_division_equations; lia).
  reflexivity.
Qed.

Lemma increment_date_parity self self' e e' :
  increment_date self = Ret self' ->
  epochs self = Some e -> epochs self' = Some e' ->
  e' mod 2 = 1 -> e mod 2 = 0 /\ e' = e + 1.
Proof.
  intros H He He' Hodd.
  apply increment_date_first in H
    as (d & e0 & k & s & Hd & He0 & Hk & -> & Hinv & Hs & Hvalid).
  rewrite He in He0. injection He0 as <-.
  simpl in He'. injection He' as <-.
  destruct (Z.eq_dec k 1) as [->|Hne].
  - split; [|reflexivity]. Z.to_euclidean_division_equations; lia.
  - exfalso.
    destruct (Hinv (k - 1) ltac:(lia)) as (s' & Hs' & Hbad).
    replace (e + (k - 1)) with (e + k - 1) in Hs' by lia.
    rewrite (same_day d (e + k) Hodd), Hs in Hs'.
    injection Hs' as <-. congruence.
Qed.

(** X2.  [increment_date] lands on a closing epoch (an odd one) only by
    going from the opening of a day to the closing of that same day: in
    every other case it lands on an opening, so the opening of a trading
    day is never skipped. *)
Theorem increment_date_lands_on_open (self self' : t) (e e' : Z) :
  increment_date self = Ret self' ->
  epochs self = Some e -> epochs self' = Some e' ->
  e' mod 2 = 1 -> e mod 2 = 0 /\ e' = e + 1.
Proof. apply increment_date_parity. Qed.

End IncrementDateLanding.

(** ** StockEnv: how far an episode can go *)

Section EpisodeLength.

Import StockEnv.

Variable price_data : string -> string -> option (list Q).
Variable get_new_holdings :
  State.t -> list Q -> list Q -> outcome (list Q * Q).

Local Abbreviation step := (StockEnv.step price_data get_new_holdings).
Local Abbreviation steps := (StockEnv.steps price_data get_new_holdings).

(** One [step] that returns, on the attributes of the environment. *)
Lemma step_epochs self action st reward done self' :
  step self action = Ret (st, reward, done, self') ->
  exists e k m,
    epochs self = Some e /\ 1 <= k <= 19 /\ epochs self' = Some (e + k)
    /\ max_epochs self = Some m /\ max_epochs self' = Some m
    /\ done = (e + k >=? m)
    /\ start_date self' = start_date self
    /\ end_date self' = end_date self
    /\ valid_dates self' = valid_dates self
    /\ starting_amount self' = starting_amount self.
Proof.
  unfold StockEnv.step. intros H.
  bind_inv H as now Hnow. destruct now as [current_date current_time].
  bind_inv H as st0 Hst. bind_inv H as old_prices Hold.
  bind_inv H as bought Hbought. destruct bought as [holdings money].
  bind_inv H as self1 Hinc.
  bind_inv H as after Hafter. destruct after as [new_date new_time].
  bind_inv H as prices Hprices. bind_inv H as r Hr. bind_inv H as dn Hdn.
  injection H as <- <- <- <-.
  apply increment_date_first in Hinc
    as (d & e & k & s & Hd & He & Hk & -> & _).
  unfold is_done in Hdn. simpl in Hdn.
  destruct (max_epochs self) as [m|] eqn:Hm; [|discriminate].
  simpl in Hdn. injection Hdn as <-.
  exists e, k, m. simpl. auto 12.
Qed.

(** X3.  Every [step] that returns moves [epochs] on by between 1 and 19
    and leaves [max_epochs] alone.  So after [n] steps in a row the epoch
    is at least [n] further, and the last of them reports done as soon as
    [n] reaches [max_epochs - epochs]: an episode has no more steps than
    that before it is done. *)
Theorem steps_reach_done (self self' : t) (actions : list (list Q))
  (last : option bool) (e m : Z) :
  epochs self = Some e -> max_epochs self = Some m ->
  actions <> [] ->
  steps self None actions = Ret (last, self') ->
  exists e' done,
    epochs self' = Some e' /\ max_epochs self' = Some m
    /\ e + Z.of_nat (length actions) <= e'
       <= e + 19 * Z.of_nat (length actions)
    /\ last = Some done /\ done = (e' >=? m)
    /\ (m - e <= Z.of_nat (length actions) -> done = true).
Proof.
  intros He Hm Hne H.
  assert (Hgen : forall actions self last0 e,
             epochs self = Some e -> max_epochs self = Some m ->
             steps self last0 actions = Ret (last, self') ->
             exists e',
               epochs self' = Some e' /\ max_epochs self' = Some m
               /\ e + Z.of_nat (length actions) <= e'
                  <= e + 19 * Z.of_nat (length actions)
               /\ (actions = [] -> last = last0)
               /\ (actions <> [] -> last = Some (e' >=? m))).
  { clear. intros actions.
    induction actions as [|action rest IH]; intros self last0 e He Hm H.
    - simpl in H. injection H as <- <-. exists e. simpl.
      split; [exact He|]. split; [exact Hm|]. split; [lia|].
      split; [reflexivity | congruence].
    - simpl in H. bind_inv H as r Hstep.
      destruct r as [[[st reward] done] self1].
      apply step_epochs in Hstep
        as (e0 & k & m0 & He0 & Hk & He1 & Hm0 & Hm1 & Hdone & _).
      rewrite He in He0. injection He0 as <-.
      rewrite Hm in Hm0. injection Hm0 as <-.
      destruct (IH _ _ _ He1 Hm1 H) as (e' & He' & Hm' & Hrange & Hnil & Hcons).
      exists e'. split; [exact He'|]. split; [exact Hm'|].
      split; [simpl length; lia|]. split; [discriminate|].
      intros _. destruct rest as [|a rest].
      + rewrite (Hnil eq_refl). simpl in H. injection H as _ <-.
        rewrite He1 in He'. injection He' as <-. now rewrite Hdone.
      + apply Hcons. discriminate. }
  destruct (Hgen actions self None e He Hm H)
    as (e' & He' & Hm' & Hrange & _ & Hlast).
  exists e', (e' >=? m).
  split; [exact He'|]. split; [exact Hm'|]. split; [exact Hrange|].
  split; [now apply Hlast|]. split; [reflexivity|].
  intros Hn. apply Z.geb_le. lia.
Qed.

End EpisodeLength.

(** ** StockEnv: what [initialize_date] and [reset] leave behind *)

Section DateRangeOutcomes.

Import StockEnv Datetime.

Lemma int_date_error s e : int s = Raise e -> date_error e.
Proof.
  unfold int.
  destruct (match strip (list_ascii_of_string s) with
            | [] => _ | c :: rest => _ end) as [negative digits].
  destruct (parse_digits 0 false digits); [discriminate|].
  intros [= <-]. left. eauto.
Qed.

Lemma comprehension_int_date_error toks e :
  comprehension int toks = Raise e -> date_error e.
Proof.
  induction toks as [|tok toks IH]; simpl; [discriminate|].
  intros H. apply bind_Raise in H as [H|(n & _ & H)];
    [eauto using int_date_error|].
  apply bind_Raise in H as [H|(ns & _ & H)]; [eauto | discriminate].
Qed.

Lemma date_of_tokens_date_error arr e :
  date_of_tokens arr = Raise e -> date_error e.
Proof.
  assert (Hget : forall i e, getitem arr i = Raise e -> date_error e).
  { intros i e0. unfold getitem. destruct (arr !! i); [discriminate|].
    intros [= <-]. right. left. reflexivity. }
  unfold date_of_tokens. intros H.
  apply bind_Raise in H as [H|(y & _ & H)]; [eauto|].
  apply bind_Raise in H as [H|(m & _ & H)]; [eauto|].
  apply bind_Raise in H as [H|(d & _ & H)]; [eauto|].
  unfold date_new in H.
  destruct (negb _) in H; [injection H as <-; right; right; reflexivity|].
  repeat (destruct (negb _) in H; [injection H as <-; left; eauto|]).
  discriminate.
Qed.

Lemma validate_tokens_date_error pairs valid e :
  validate_tokens pairs valid = Raise e -> date_error e.
Proof.
  revert valid. induction pairs as [|[x y] pairs IH]; intros valid; simpl.
  - discriminate.
  - destruct (isdigit x && isdigit y && valid); [|discriminate].
    intros H. apply bind_Raise in H as [H|(a & _ & H)];
      [eauto using int_date_error|].
    destruct (a >? 0); [|eauto].
    apply bind_Raise in H as [H|(b & _ & H)];
      [eauto using int_date_error | eauto].
Qed.

(** X4.  [initialize_date] ends in one of three ways.  It returns [False]
    and leaves the environment as it was; or it returns [None], having set
    [start_date] and [end_date] to the two strings and [max_epochs] to an
    even number that is not negative, and nothing else; or it raises a
    [ValueError], an [IndexError] or an [OverflowError]. *)
Theorem initialize_date_outcomes (self : t) (s1 s2 : string) :
  match initialize_date self s1 s2 with
  | Ret (PyBool b, self') => b = false /\ self' = self
  | Ret (PyNone, self') =>
      exists days, 0 <= days /\ self' = set_dates self (days * 2) s1 s2
  | Raise e => date_error e
  end.
Proof.
  destruct (initialize_date self s1 s2) as [[v self']|e] eqn:H.
  - destruct v as [|b].
    + apply initialize_date_accepts in H as (d1 & d2 & _ & _ & Hdays & ->).
      eauto.
    + unfold initialize_date in H. bind_inv H as r Hr.
      destruct r as [valid|b'].
      * bind_inv H as a1 H1. bind_inv H as a2 H2.
        bind_inv H as o1 Ho1. bind_inv H as o2 Ho2.
        destruct (negb _) in H; discriminate.
      * injection H as <- <-.
        split; [eapply validate_tokens_early; eauto | reflexivity].
  - unfold initialize_date in H.
    apply bind_Raise in H as [H|(r & _ & H)];
      [eauto using validate_tokens_date_error|].
    destruct r as [valid|b]; [|discriminate].
    apply bind_Raise in H as [H|(a1 & _ & H)];
      [eauto using comprehension_int_date_error|].
    apply bind_Raise in H as [H|(a2 & _ & H)];
      [eauto using comprehension_int_date_error|].
    apply bind_Raise in H as [H|(o1 & _ & H)];
      [eauto using date_of_tokens_date_error|].
    apply bind_Raise in H as [H|(o2 & _ & H)];
      [eauto using date_of_tokens_date_error|].
    destruct (negb _) in H; [|discriminate].
    injection H as <-. left. eauto.
Qed.

End DateRangeOutcomes.

(** ** StockEnv: the start of an episode and the value of the portfolio *)

Section EpisodeStart.

Import StockEnv.

Variable price_data : string -> string -> option (list Q).

(** A [reset] without random start that returns: where it has put the
    environment. *)
Lemma reset_opening (rnd : draws) (self : t) (init : bool)
  (st : State.t) (self' : t) :
  random_start self = false ->
  reset price_data rnd self init = Ret (st, self') ->
  exists e date,
    epochs self' = Some e /\ 0 <= e <= 18 /\ e mod 2 = 0
    /\ get_date_and_time self' = Ret (date, "Open")
    /\ contains (valid_dates self') date = true
    /\ state self' = Some st
    /\ State.current_date st = date /\ State.current_time st = "Open"
    /\ State.cash st = inject_Z (starting_amount_upper self)
    /\ State.holdings st
       = map inject_Z (repeat 0 (Z.to_nat (number_of_stocks self)))
    /\ max_epochs self' = max_epochs self
    /\ start_date self' = start_date self
    /\ (forall d s0,
          start_date_obj self = Ret d -> date_string d 0 = Ret s0 ->
          contains (valid_dates self) s0 = true -> e = 0).
Proof.
  intros Hrandom H. unfold StockEnv.reset in H. rewrite Hrandom in H.
  rewrite bind_of_Ret in H.
  bind_inv H as sd Hsd. bind_inv H as ed Hed. bind_inv H as self1 Hstart.
  bind_inv H as now Hnow. destruct now as [current_date current_time].
  bind_inv H as st1 Hst. bind_inv H as value Hvalue.
  injection H as <- <-.
  unfold initialize_starting_epoch in Hstart. rewrite Hrandom in Hstart.
  rewrite bind_of_Ret in Hstart.
  pose proof Hstart as Hinc.
  apply increment_date_first in Hinc
    as (d & e & k & s & Hd & He & Hk & -> & Hinv & Hs & Hvalid).
  simpl in He. injection He as <-.
  assert (Heven : (-1 + k) mod 2 = 0).
  { destruct (Z.eq_dec ((-1 + k) mod 2) 0) as [|Hodd]; [assumption|].
    assert ((-1 + k) mod 2 = 1) as Hone
        by (Z.to_euclidean_division_equations; lia).
    destruct (increment_date_parity _ _ (-1) (-1 + k) Hstart eq_refl
                eq_refl Hone) as [Hbad _].
    discriminate. }
  assert (Hclock :
    get_date_and_time (set_epochs (set_epochs self (-1)) (-1 + k))
    = Ret (s, "Open")).
  { rewrite (get_date_and_time_set_epochs _ d _ s Hd Hs).
    now rewrite Heven. }
  rewrite Hclock in Hnow. injection Hnow as <- <-.
  assert (State.current_date st1 = s /\ State.current_time st1 = "Open"
          /\ State.cash st1 = inject_Z (starting_amount_upper self)
          /\ State.holdings st1
             = map inject_Z (repeat 0 (Z.to_nat (number_of_stocks self))))
    as (Hdate & Htime & Hcash & Hholdings).
  { destruct init.
    - injection Hst as <-. auto.
    - bind_inv Hst as old Hold. injection Hst as <-. auto. }
  exists (-1 + k), s. simpl.
  split; [reflexivity|]. split; [lia|]. split; [exact Heven|].
  split; [exact Hclock|]. split; [exact Hvalid|].
  do 7 (split; [assumption || reflexivity|]).
  intros d0 s0 Hd0 Hs0 Hvalid0.
  change (start_date_obj (set_epochs self (-1))) with (start_date_obj self)
    in Hd.
  rewrite Hd0 in Hd. injection Hd as <-.
  destruct (Z.eq_dec k 1) as [->|Hne]; [reflexivity|].
  destruct (Hinv 1 ltac:(lia)) as (s1 & Hs1 & Hbad).
  change (-1 + 1) with 0 in Hs1. rewrite Hs0 in Hs1. injection Hs1 as <-.
  simpl in Hbad. congruence.
Qed.

(** X5.  A [reset] without random start that returns has put the
    environment on the opening of a trading day, at an even epoch from 0
    to 18: the start date itself when the calendar has it.  The state it
    hands back is the environment's, holds the upper starting amount and
    no shares, and carries that date; the date range is untouched. *)
Theorem reset_lands_on_opening (rnd : draws) (self : t) (init : bool)
  (st : State.t) (self' : t) :
  random_start self = false ->
  reset price_data rnd self init = Ret (st, self') ->
  exists e date,
    epochs self' = Some e /\ 0 <= e <= 18 /\ e mod 2 = 0
    /\ get_date_and_time self' = Ret (date, "Open")
    /\ contains (valid_dates self') date = true
    /\ state self' = Some st
    /\ State.current_date st = date /\ State.current_time st = "Open"
    /\ State.cash st = inject_Z (starting_amount_upper self)
    /\ State.holdings st
       = map inject_Z (repeat 0 (Z.to_nat (number_of_stocks self)))
    /\ max_epochs self' = max_epochs self
    /\ start_date self' = start_date self
    /\ (forall d s0,
          start_date_obj self = Ret d -> date_string d 0 = Ret s0 ->
          contains (valid_dates self) s0 = true -> e = 0).
Proof. apply reset_opening. Qed.

End EpisodeStart.

Section PortfolioValue.

Import StockEnv.

Variable price_data : string -> string -> option (list Q).
Variable get_new_holdings :
  State.t -> list Q -> list Q -> outcome (list Q * Q).

(** X6.  After a [step] that returns, [calculate_portfolio_value] of the
    environment returns too, and the reward of the step is that value
    minus [starting_amount]. *)
Theorem reward_is_value_gain (self : t) (action : list Q) (st' : State.t)
  (reward : Q) (done : bool) (self' : t) :
  step price_data get_new_holdings self action
  = Ret (st', reward, done, self') ->
  exists value,
    calculate_portfolio_value price_data self' = Ret value
    /\ reward = (value - starting_amount self')%Q.
Proof.
  intros H.
  apply (step_Ret price_data get_new_holdings) in H
    as (new_date & new_time & prices & values & _ & Hst & Hdate & Htime
        & Hprices & Hmul & -> & Hsame & _).
  exists (State.cash st' + Np.sum values)%Q.
  split; [|now rewrite Hsame].
  unfold calculate_portfolio_value. rewrite Hst. simpl.
  unfold State.calculate_portfolio_value.
  rewrite Hdate, Htime, Hprices. simpl. rewrite Hmul. reflexivity.
Qed.

End PortfolioValue.

(** ** StockEnv: which date strings the constructor takes *)

Section DateFormats.

Import StockEnv Datetime.

Lemma code_digit_char n : code (digit_char n) = 48 + n mod 10.
Proof.
  unfold code, digit_char.
  pose proof (Z.mod_pos_bound n 10 ltac:(lia)) as Hb.
  rewrite nat_ascii_embedding by lia. lia.
Qed.

Lemma digit_char_decimal n : is_decimal (digit_char n) = true.
Proof.
  unfold is_decimal. rewrite code_digit_char.
  pose proof (Z.mod_pos_bound n 10 ltac:(lia)) as Hb.
  apply andb_true_iff. split; apply Z.leb_le; lia.
Qed.

Lemma decimal_code c : is_decimal c = true -> 48 <= code c <= 57.
Proof.
  unfold is_decimal. rewrite andb_true_iff, !Z.leb_le. tauto.
Qed.

Lemma decimal_not_space c : is_decimal c = true -> is_space c = false.
Proof.
  intros H. apply decimal_code in H. unfold is_space.
  repeat match goal with
         | |- context [?a <=? ?b] => destruct (Z.leb_spec a b); try lia
         | |- context [?a =? ?b] => destruct (Z.eqb_spec a b); try lia
         end; reflexivity.
Qed.

Lemma decimal_is_digit c : is_decimal c = true -> is_digit_char c = true.
Proof. intros H. unfold is_digit_char. now rewrite H. Qed.

Lemma decimal_not_char c (other : ascii) :
  is_decimal c = true -> (code other < 48 \/ 57 < code other) ->
  Ascii.eqb c other = false.
Proof.
  intros H Hother. apply decimal_code in H.
  apply Ascii.eqb_neq. intros ->. lia.
Qed.

Lemma decimal_not_hyphen c : is_decimal c = true -> Ascii.eqb c "-" = false.
Proof. intros H. apply decimal_not_char; [exact H | left; reflexivity]. Qed.

Lemma decimal_not_plus c : is_decimal c = true -> Ascii.eqb c "+" = false.
Proof. intros H. apply decimal_not_char; [exact H | left; reflexivity]. Qed.

Lemma lstrip_decimal cs :
  Forall (fun c => is_decimal c = true) cs -> lstrip cs = cs.
Proof.
  destruct 1 as [|c cs Hc _]; simpl; [reflexivity|].
  now rewrite (decimal_not_space c Hc).
Qed.

Lemma strip_decimal cs :
  Forall (fun c => is_decimal c = true) cs -> strip cs = cs.
Proof.
  intros H. unfold strip. rewrite (lstrip_decimal cs H).
  rewrite lstrip_decimal by (apply Forall_rev; exact H).
  apply rev_involutive.
Qed.

(** The value of a run of digits, as [int] adds it up. *)
Lemma parse_digits_decimal cs acc after :
  Forall (fun c => is_decimal c = true) cs -> cs <> [] ->
  parse_digits acc after cs
  = Some (fold_left (fun a c => 10 * a + (code c - 48)) cs acc).
Proof.
  intros H. revert acc after.
  induction H as [|c cs Hc Hcs IH]; intros acc after Hne; [congruence|].
  simpl. rewrite Hc. destruct cs as [|c' cs]; [reflexivity|].
  apply IH. discriminate.
Qed.

Lemma int_decimal cs :
  Forall (fun c => is_decimal c = true) cs -> cs <> [] ->
  int (string_of_list_ascii cs)
  = Ret (fold_left (fun a c => 10 * a + (code c - 48)) cs 0).
Proof.
  intros H Hne. unfold int.
  rewrite list_ascii_of_string_of_list_ascii, (strip_decimal cs H).
  destruct H as [|c cs Hc Hcs]; [congruence|].
  rewrite (decimal_not_plus c Hc), (decimal_not_hyphen c Hc).
  now rewrite parse_digits_decimal by (auto; discriminate).
Qed.

Lemma isdigit_decimal cs :
  Forall (fun c => is_decimal c = true) cs -> cs <> [] ->
  isdigit (string_of_list_ascii cs) = true.
Proof.
  intros H Hne. unfold isdigit.
  destruct cs as [|c cs]; [congruence|].
  simpl. rewrite list_ascii_of_string_of_list_ascii.
  inversion_clear H as [|? ? Hc Hcs].
  rewrite (decimal_is_digit c Hc). simpl.
  apply List.forallb_forall. intros x Hx.
  rewrite Forall_forall in Hcs. apply decimal_is_digit, Hcs.
  now apply list_elem_of_In.
Qed.

(** A run of digits before a hyphen is a token of its own. *)
Lemma split_decimal_hyphen cs rest :
  Forall (fun c => is_decimal c = true) cs ->
  re_split_hyphen (string_of_list_ascii cs ++ String "-" rest)
  = string_of_list_ascii cs :: re_split_hyphen rest.
Proof.
  induction 1 as [|c cs Hc Hcs IH]; simpl; [reflexivity|].
  rewrite (decimal_not_hyphen c Hc), IH. reflexivity.
Qed.

Lemma split_decimal cs rest :
  Forall (fun c => is_decimal c = true) cs ->
  re_split_hyphen (string_of_list_ascii cs ++ "-" ++ rest)
  = string_of_list_ascii cs :: re_split_hyphen rest.
Proof. exact (split_decimal_hyphen cs rest). Qed.

Lemma split_decimal_last cs :
  Forall (fun c => is_decimal c = true) cs ->
  re_split_hyphen (string_of_list_ascii cs) = [string_of_list_ascii cs].
Proof.
  induction 1 as [|c cs Hc Hcs IH]; simpl; [reflexivity|].
  rewrite (decimal_not_hyphen c Hc), IH. reflexivity.
Qed.

Lemma two_digits_chars n :
  two_digits n = string_of_list_ascii [digit_char (n / 10); digit_char n].
Proof. reflexivity. Qed.

Lemma four_digits_chars n :
  four_digits n
  = string_of_list_ascii
      [digit_char (n / 1000); digit_char (n / 100); digit_char (n / 10);
       digit_char n].
Proof. reflexivity. Qed.

Lemma decimal_two n :
  Forall (fun c => is_decimal c = true) [digit_char (n / 10); digit_char n].
Proof. repeat constructor; apply digit_char_decimal. Qed.

Lemma decimal_four n :
  Forall (fun c => is_decimal c = true)
    [digit_char (n / 1000); digit_char (n / 100); digit_char (n / 10);
     digit_char n].
Proof. repeat constructor; apply digit_char_decimal. Qed.

Lemma int_two_digits n : 0 <= n <= 99 -> int (two_digits n) = Ret n.
Proof.
  intros Hn. rewrite two_digits_chars.
  rewrite int_decimal by (try apply decimal_two; discriminate).
  simpl. rewrite !code_digit_char. f_equal.
  Z.to_euclidean_division_equations; lia.
Qed.

Lemma int_four_digits n : 0 <= n <= 9999 -> int (four_digits n) = Ret n.
Proof.
  intros Hn. rewrite four_digits_chars.
  rewrite int_decimal
    by (try apply decimal_four; discriminate).
  simpl. rewrite !code_digit_char. f_equal.
  Z.to_euclidean_division_equations; lia.
Qed.

Lemma numeric_two_digits n : 1 <= n <= 99 -> numeric_token (two_digits n).
Proof.
  intros Hn. split.
  - rewrite two_digits_chars. apply isdigit_decimal;
      [apply decimal_two | discriminate].
  - exists n. split; [apply int_two_digits; lia | lia].
Qed.

Lemma numeric_four_digits n : 1 <= n <= 9999 -> numeric_token (four_digits n).
Proof.
  intros Hn. split.
  - rewrite four_digits_chars. apply isdigit_decimal;
      [apply decimal_four | discriminate].
  - exists n. split; [apply int_four_digits; lia | lia].
Qed.

Lemma split_format_mdy d :
  re_split_hyphen (format_mdy d)
  = [two_digits (month d); two_digits (day d); four_digits (year d)].
Proof.
  unfold format_mdy.
  rewrite !two_digits_chars, four_digits_chars.
  rewrite (split_decimal _ _ (decimal_two (month d))).
  rewrite (split_decimal _ _ (decimal_two (day d))).
  rewrite (split_decimal_last _ (decimal_four (year d))).
  reflexivity.
Qed.

Lemma split_isoformat d :
  re_split_hyphen (isoformat d)
  = [four_digits (year d); two_digits (month d); two_digits (day d)].
Proof.
  unfold isoformat.
  rewrite !two_digits_chars, four_digits_chars.
  rewrite (split_decimal _ _ (decimal_four (year d))).
  rewrite (split_decimal _ _ (decimal_two (month d))).
  rewrite (split_decimal_last _ (decimal_two (day d))).
  reflexivity.
Qed.

Lemma day_at_most_31 y m d :
  1 <= m <= 12 -> d <= days_in_month y m -> d <= 31.
Proof.
  intros Hm Hd. unfold days_in_month in Hd.
  destruct (_ && _) in Hd; [lia|].
  unfold table, DAYS_IN_MONTH in Hd.
  assert (m = 1 \/ m = 2 \/ m = 3 \/ m = 4 \/ m = 5 \/ m = 6 \/ m = 7
          \/ m = 8 \/ m = 9 \/ m = 10 \/ m = 11 \/ m = 12) as Hcases by lia.
  repeat (destruct Hcases as [->|Hcases]); try subst m; simpl in Hd; lia.
Qed.

Lemma validate_numeric xs ys :
  Forall numeric_token xs -> Forall numeric_token ys ->
  validate_tokens (zip xs ys) true = Ret (inl true).
Proof.
  intros Hxs. revert ys.
  induction Hxs as [|x xs [Hx (a & Ha & Hpos)] _ IH]; intros ys Hys;
    [reflexivity|].
  destruct Hys as [|y ys [Hy (b & Hb & Hposb)] Hys]; [reflexivity|].
  simpl. rewrite Hx, Hy, Ha. simpl.
  destruct (Z.gtb_spec a 0); [|lia].
  rewrite Hb. simpl. destruct (Z.gtb_spec b 0); [|lia].
  now apply IH.
Qed.

Lemma comprehension_numeric xs :
  Forall numeric_token xs ->
  exists ns, comprehension int xs = Ret ns /\ length ns = length xs.
Proof.
  induction 1 as [|x xs [_ (a & Ha & _)] _ (ns & Hns & Hlen)].
  - exists []. auto.
  - exists (a :: ns). simpl. rewrite Ha, Hns. simpl. auto.
Qed.

(** A date written MM-DD-YYYY is read back as the date it stands for. *)
Lemma parse_date_format_mdy d : valid_date d -> parse_date (format_mdy d) = Ret d.
Proof.
  intros (Hy & Hm & Hd). unfold MINYEAR, MAXYEAR in Hy.
  pose proof (day_at_most_31 _ _ _ Hm (proj2 Hd)) as Hday.
  unfold parse_date. rewrite split_format_mdy. simpl.
  rewrite !int_two_digits, int_four_digits by lia. simpl.
  unfold date_of_tokens. simpl. unfold date_new, fits_c_int, MINYEAR, MAXYEAR.
  repeat match goal with
         | |- context [?a <=? ?b] => destruct (Z.leb_spec a b); try lia
         end.
  simpl. now destruct d.
Qed.

(** X7.  Every pair of calendar dates written MM-DD-YYYY, the end not
    before the start, is accepted by [initialize_date]: it returns [None]
    and sets [max_epochs] to twice the number of days between them. *)
Theorem initialize_date_accepts_mdy (self : t) (d1 d2 : date) :
  valid_date d1 -> valid_date d2 -> toordinal d1 <= toordinal d2 ->
  initialize_date self (format_mdy d1) (format_mdy d2)
  = Ret (PyNone,
         set_dates self ((toordinal d2 - toordinal d1) * 2)
           (format_mdy d1) (format_mdy d2)).
Proof.
  intros H1 H2 Hle.
  assert (Htokens : forall d, valid_date d ->
            Forall numeric_token (re_split_hyphen (format_mdy d))).
  { intros d (Hy & Hm & Hd). unfold MINYEAR, MAXYEAR in Hy.
    pose proof (day_at_most_31 _ _ _ Hm (proj2 Hd)) as Hday.
    rewrite split_format_mdy.
    repeat constructor;
      (apply numeric_two_digits || apply numeric_four_digits); lia. }
  pose proof (parse_date_format_mdy d1 H1) as Hp1.
  pose proof (parse_date_format_mdy d2 H2) as Hp2.
  unfold parse_date in Hp1, Hp2.
  destruct (comprehension int (re_split_hyphen (format_mdy d1)))
    as [a1|] eqn:E1; [|discriminate].
  destruct (comprehension int (re_split_hyphen (format_mdy d2)))
    as [a2|] eqn:E2; [|discriminate].
  simpl in Hp1, Hp2.
  unfold initialize_date.
  rewrite (validate_numeric _ _ (Htokens d1 H1) (Htokens d2 H2)).
  rewrite bind_of_Ret, E1, bind_of_Ret, E2, bind_of_Ret.
  rewrite Hp1, bind_of_Ret, Hp2, bind_of_Ret.
  unfold days_between.
  destruct (Z.geb_spec (toordinal d2 - toordinal d1) 0); [|lia].
  reflexivity.
Qed.

(** X8.  The date strings that [get_date_and_time] makes, YYYY-MM-DD, are
    not taken back: for calendar dates from the year 13 on,
    [initialize_date] reads the year as a month and raises the
    [ValueError] of [datetime.date], not the one of its own date check. *)
Theorem initialize_date_rejects_iso (self : t) (d1 d2 : date) :
  valid_date d1 -> valid_date d2 -> 13 <= year d1 ->
  exists msg,
    initialize_date self (isoformat d1) (isoformat d2)
    = Raise (ValueError msg)
    /\ msg <> "Date is not valid".
Proof.
  intros H1 H2 Hyear. exists "month must be in 1..12".
  split; [|discriminate].
  assert (Htokens : forall d, valid_date d ->
            Forall numeric_token (re_split_hyphen (isoformat d))).
  { intros d (Hy & Hm & Hd). unfold MINYEAR, MAXYEAR in Hy.
    pose proof (day_at_most_31 _ _ _ Hm (proj2 Hd)) as Hday.
    rewrite split_isoformat.
    repeat constructor;
      (apply numeric_two_digits || apply numeric_four_digits); lia. }
  unfold initialize_date.
  rewrite (validate_numeric _ _ (Htokens d1 H1) (Htokens d2 H2)).
  rewrite bind_of_Ret, !split_isoformat.
  destruct H1 as (Hy1 & Hm1 & Hd1). destruct H2 as (Hy2 & Hm2 & Hd2).
  unfold MINYEAR, MAXYEAR in Hy1, Hy2.
  pose proof (day_at_most_31 _ _ _ Hm1 (proj2 Hd1)) as Hday1.
  pose proof (day_at_most_31 _ _ _ Hm2 (proj2 Hd2)) as Hday2.
  simpl comprehension.
  rewrite !int_two_digits, !int_four_digits by lia. simpl.
  unfold date_of_tokens. simpl. unfold date_new, fits_c_int, MINYEAR, MAXYEAR.
  repeat match goal with
         | |- context [?a <=? ?b] => destruct (Z.leb_spec a b); try lia
         end.
  all: reflexivity.
Qed.

(** X9.  A start date of fewer than three tokens, all of them positive
    numbers, gets past the loop of [initialize_date] and then fails on the
    missing token: the call raises [IndexError], not the error of the date
    check. *)
Theorem initialize_date_short_date (self : t) (s1 s2 : string) :
  Forall numeric_token (re_split_hyphen s1) ->
  Forall numeric_token (re_split_hyphen s2) ->
  (length (re_split_hyphen s1) < 3)%nat ->
  initialize_date self s1 s2 = Raise IndexError.
Proof.
  intros H1 H2 Hshort. unfold initialize_date.
  rewrite (validate_numeric _ _ H1 H2), bind_of_Ret.
  destruct (comprehension_numeric _ H1) as (n1 & -> & Hlen1).
  destruct (comprehension_numeric _ H2) as (n2 & -> & Hlen2).
  rewrite !bind_of_Ret.
  assert (date_of_tokens n1 = Raise IndexError) as ->; [|reflexivity].
  unfold date_of_tokens, getitem.
  rewrite (lookup_ge_None_2 n1 2) by lia. reflexivity.
Qed.

End DateFormats.

(** ** ReplayBuffer: what [add] refuses and what [sample] hands back *)

Section ReplayBufferSampling.

Import ReplayBuffer.

Lemma broadcast_to_lands width v :
  lands width v -> exists v', broadcast_to width v = Ret v'.
Proof.
  unfold broadcast_to. intros [H|H].
  - rewrite H, Nat.eqb_refl. eauto.
  - destruct (length v =? width)%nat; [eauto|].
    destruct v as [|x [|y v]]; try discriminate. eauto.
Qed.

Lemma broadcast_to_refused width v :
  ~ lands width v ->
  broadcast_to width v = Raise (ValueError "could not broadcast input array").
Proof.
  unfold broadcast_to, lands. intros H.
  destruct (Nat.eqb_spec (length v) width) as [E|_]; [tauto|].
  destruct v as [|x [|y v]]; try reflexivity.
  exfalso. apply H. right. reflexivity.
Qed.

Lemma row_of_width (w : nat) (arr : list (list Q)) i :
  (i < length arr)%nat -> Forall (fun row => length row = w) arr ->
  exists row, arr !! i = Some row /\ length row = w.
Proof.
  intros Hi Hw. destruct (lookup_lt_is_Some_2 arr i Hi) as [row E].
  exists row. split; [exact E|]. rewrite Forall_lookup in Hw. eauto.
Qed.

Lemma lands_dec width v : {lands width v} + {~ lands width v}.
Proof.
  unfold lands.
  destruct (Nat.eq_dec (length v) width); [left; tauto|].
  destruct (Nat.eq_dec (length v) 1%nat); [left; tauto | right; tauto].
Qed.

(** X10.  On a buffer of capacity zero every [add] raises [IndexError].
    On a buffer with room, [add] returns exactly when the state, the
    action and the next state each have the width of their array or a
    single entry; otherwise it raises a [ValueError], that of the
    assignment that cannot be broadcast. *)
Theorem add_outcomes (state_dim action_dim : nat) (self : t)
  (tr : transition) :
  add_transition (__init__ state_dim action_dim 0) tr = Raise IndexError
  /\ (shaped state_dim action_dim self ->
      (lands state_dim (t_state tr) /\ lands action_dim (t_action tr)
       /\ lands state_dim (t_next_state tr) ->
       exists self', add_transition self tr = Ret self')
      /\ (~ (lands state_dim (t_state tr) /\ lands action_dim (t_action tr)
             /\ lands state_dim (t_next_state tr)) ->
          exists msg, add_transition self tr = Raise (ValueError msg))).
Proof.
  split; [reflexivity|].
  intros [Ls La Ln Lr Ld Ws Wa Wn Hp Hs].
  destruct (row_of_width state_dim (next_state self) (ptr self)
              ltac:(lia) Wn) as (rn & En & Hn).
  destruct (row_of_width action_dim (action self) (ptr self)
              ltac:(lia) Wa) as (ra & Ea & Ha).
  destruct (row_of_width state_dim (ReplayBuffer.state self) (ptr self)
              ltac:(lia) Ws) as (rs & Es & Hs').
  unfold add_transition, add, set_row. rewrite En, Ea, Es, Hn, Ha, Hs'.
  split.
  - intros (Hst & Hac & Hnx).
    destruct (broadcast_to_lands _ _ Hnx) as [n' ->].
    destruct (broadcast_to_lands _ _ Hac) as [a' ->].
    destruct (broadcast_to_lands _ _ Hst) as [s' ->].
    simpl. rewrite !set_cell_in_range by lia. simpl. eauto.
  - intros Hnot. exists "could not broadcast input array".
    destruct (lands_dec state_dim (t_next_state tr)) as [Hnx|Hnx];
      [|now rewrite (broadcast_to_refused _ _ Hnx)].
    destruct (broadcast_to_lands _ _ Hnx) as [n' ->]. simpl.
    destruct (lands_dec action_dim (t_action tr)) as [Hac|Hac];
      [|now rewrite (broadcast_to_refused _ _ Hac)].
    destruct (broadcast_to_lands _ _ Hac) as [a' ->]. simpl.
    destruct (lands_dec state_dim (t_state tr)) as [Hst|Hst];
      [tauto | now rewrite (broadcast_to_refused _ _ Hst)].
Qed.

Lemma take_in_range {A} (arr : list A) ind :
  Forall (fun i => (i < length arr)%nat) ind ->
  exists rows,
    take arr ind = Ret rows /\ length rows = length ind
    /\ forall k i, ind !! k = Some i -> rows !! k = arr !! i.
Proof.
  unfold take.
  induction 1 as [|i ind Hi _ (rows & Hrows & Hlen & Hat)].
  - exists []. repeat split. intros k i Hk. discriminate.
  - destruct (lookup_lt_is_Some_2 arr i Hi) as [x Hx].
    assert (getitem arr i = Ret x) as Hg
        by (unfold getitem; now rewrite Hx).
    exists (x :: rows).
    change (comprehension (getitem arr) (i :: ind))
      with (y ← getitem arr i;
            ys ← comprehension (getitem arr) ind; Ret (y :: ys)).
    rewrite Hg, bind_of_Ret, Hrows, bind_of_Ret.
    split; [reflexivity|]. split; [simpl; now rewrite Hlen|].
    intros [|k] j Hk; simpl in *.
    + injection Hk as <-. now rewrite Hx.
    + now apply Hat.
Qed.

Lemma entry_Some self i s a n r d :
  entry self i = Some (s, a, n, r, d) ->
  ReplayBuffer.state self !! i = Some s /\ action self !! i = Some a
  /\ next_state self !! i = Some n /\ reward self !! i = Some r
  /\ not_done self !! i = Some d.
Proof.
  unfold entry.
  destruct (ReplayBuffer.state self !! i); [|discriminate].
  destruct (action self !! i); [|discriminate].
  destruct (next_state self !! i); [|discriminate].
  destruct (reward self !! i); [|discriminate].
  destruct (not_done self !! i); [|discriminate].
  simpl. intros [= -> -> -> -> ->]. auto.
Qed.

(** The last add, among [n], that wrote to slot [i]. *)
Lemma latest_write (cap n i : nat) :
  (0 < cap)%nat -> (i < Nat.min n cap)%nat ->
  exists j, (j < n)%nat /\ (j mod cap = i)%nat /\ (n <= j + cap)%nat.
Proof.
  intros Hcap Hi.
  exists (i + ((n - 1 - i) / cap) * cap)%nat.
  pose proof (Nat.div_mod_eq (n - 1 - i) cap) as Hdiv.
  pose proof (Nat.mod_upper_bound (n - 1 - i) cap ltac:(lia)) as Hmod.
  split; [nia|]. split; [|nia].
  rewrite Nat.Div0.mod_add. apply Nat.mod_small. lia.
Qed.

(** X11.  On a fresh buffer [sample] raises a [ValueError] when asked
    for a batch that is not empty, and returns five empty arrays when
    asked for an empty one.  After a run of adds of float64 values
    within the range of float32, for indices below [size], it returns
    five arrays with one row per index, and the row for index [i] is the
    float32 copy of what the latest add into slot [i] has written, one of
    the last [cap] transitions: every number rounded to the nearest
    float32. *)
Theorem sample_after_adds (state_dim action_dim cap : nat)
  (trs : list transition) (ind : list nat) :
  (0 < cap)%nat -> Forall (fits state_dim action_dim) trs -> trs <> [] ->
  Forall in_floats trs ->
  Forall (fun i => (i < Nat.min (length trs) cap)%nat) ind ->
  (ind <> [] ->
   exists msg,
     sample (__init__ state_dim action_dim cap) ind = Raise (ValueError msg))
  /\ sample (__init__ state_dim action_dim cap) []
     = Ret (mk_batch [] [] [] [] [])
  /\ exists b batch,
       adds (__init__ state_dim action_dim cap) trs = Ret b
       /\ sample b ind = Ret batch
       /\ length (b_state batch) = length ind
       /\ length (b_action batch) = length ind
       /\ length (b_next_state batch) = length ind
       /\ length (b_reward batch) = length ind
       /\ length (b_not_done batch) = length ind
       /\ forall k i, ind !! k = Some i ->
            exists j tr,
              trs !! j = Some tr /\ (j mod cap = i)%nat
              /\ (length trs <= j + cap)%nat
              /\ b_state batch !! k = Some (map Float32.round (t_state tr))
              /\ b_action batch !! k
                 = Some (map Float32.round (t_action tr))
              /\ b_next_state batch !! k
                 = Some (map Float32.round (t_next_state tr))
              /\ b_reward batch !! k = Some [Float32.round (t_reward tr)]
              /\ b_not_done batch !! k
                 = Some [Float32.round (1 - t_done tr)].
Proof.
  intros Hcap Hfit Hne _ Hind.
  split.
  { intros Hbatch. exists "low >= high". unfold sample.
    destruct ind as [|i ind]; [congruence | reflexivity]. }
  split; [reflexivity|].
  destruct (adds_ring state_dim action_dim cap trs Hcap Hfit)
    as (b & Hb & Hsh & Hmax & Hptr & Hsize & Hcontent).
  destruct Hsh as [Ls La Ln Lr Ld Ws Wa Wn Hp Hs].
  assert (Hin : forall (A : Type) (arr : list A),
             length arr = max_size b ->
             Forall (fun i => (i < length arr)%nat) ind).
  { intros A arr Hlen. eapply Forall_impl; [exact Hind|].
    simpl. intros i Hi. rewrite Hlen, Hmax.
    apply Nat.lt_le_trans with (Nat.min (length trs) cap);
      [exact Hi | apply Nat.le_min_r]. }
  destruct (take_in_range _ ind (Hin _ _ Ls)) as (ss & Hss & Lss & Ass).
  destruct (take_in_range _ ind (Hin _ _ La)) as (aa & Haa & Laa & Aaa).
  destruct (take_in_range _ ind (Hin _ _ Ln)) as (nn & Hnn & Lnn & Ann).
  destruct (take_in_range _ ind (Hin _ _ Lr)) as (rr & Hrr & Lrr & Arr).
  destruct (take_in_range _ ind (Hin _ _ Ld)) as (dd & Hdd & Ldd & Add).
  exists b. eexists. split; [exact Hb|].
  split.
  { unfold sample. rewrite Hsize.
    destruct (Nat.eqb_spec (Nat.min (length trs) cap) 0) as [E|_].
    - destruct trs as [|tr0 trs]; [congruence|].
      cbn [length] in E. lia.
    - rewrite Hss, Haa, Hnn, Hrr, Hdd. reflexivity. }
  simpl. unfold FloatTensor. rewrite !length_map.
  do 5 (split; [assumption|]).
  intros k i Hk.
  assert (i < Nat.min (length trs) cap)%nat as Hi.
  { rewrite Forall_lookup in Hind. eauto. }
  destruct (latest_write cap (length trs) i Hcap Hi) as (j & Hj & Hmod & Hlast).
  destruct (lookup_lt_is_Some_2 trs j Hj) as [tr Htr].
  exists j, tr. split; [exact Htr|]. split; [exact Hmod|].
  split; [exact Hlast|].
  pose proof (Hcontent j tr Htr Hlast) as Hentry. rewrite Hmod in Hentry.
  apply entry_Some in Hentry as (Es & Ea & En & Er & Ed).
  rewrite !list_lookup_fmap.
  rewrite (Ass k i Hk), (Aaa k i Hk), (Ann k i Hk), (Arr k i Hk),
    (Add k i Hk), Er, Ed, Es, Ea, En.
  auto.
Qed.

End ReplayBufferSampling.

(** ** DDPG: the ends of [tau], and what [save] and [load] keep *)

Section TargetGap.

Import DDPG.

Variable linear : Linear -> rows -> rows.
Variable prelu : tensor -> rows -> rows.
Variable tanh : rows -> rows.
Variable optimizer : Type.
Variable critic_step :
  optimizer -> Critic -> rows -> rows -> rows -> Critic * optimizer.
Variable actor_step :
  optimizer -> Actor -> Critic -> rows -> Actor * optimizer.

(** X12.  A [train] that returns has counted itself in [total_it] and
    has left [tau], [discount] and the [max_action] of the agent and of
    the target actor alone.  At the two ends of [tau] the soft update is
    exact: with [tau] one every float32 entry of a target network comes
    out equal to the entry of the network just trained, with [tau] zero
    equal to what it was. *)
Theorem train_at_ends_of_tau (self : DDPG.t optimizer)
  (buf : ReplayBuffer.t) (ind : list nat) (self' : DDPG.t optimizer) :
  DDPG.train linear prelu tanh optimizer critic_step actor_step self buf ind
  = Ret self' ->
  takes_ends (tau self) (Critic_parameters (critic self'))
    (Critic_parameters (critic_target self))
    (Critic_parameters (critic_target self'))
  /\ takes_ends (tau self) (Actor_parameters (actor self'))
       (Actor_parameters (actor_target self))
       (Actor_parameters (actor_target self'))
  /\ total_it self' = total_it self + 1
  /\ tau self' = tau self /\ discount self' = discount self
  /\ max_action self' = max_action self
  /\ a_max_action (actor_target self') = a_max_action (actor_target self).
Proof.
  unfold DDPG.train. intros H. bind_inv H as b Hb.
  destruct (critic_step _ _ _ _ _) as [critic' copt'].
  destruct (actor_step _ _ _ _) as [actor' aopt'].
  injection H as <-.
  split; [|split; [|auto 10]].
  - exact (zip_soft_update_takes_ends (tau self) (Critic_parameters critic')
             (Critic_parameters (critic_target self))).
  - exact (zip_soft_update_takes_ends (tau self) (Actor_parameters actor')
             (Actor_parameters (actor_target self))).
Qed.

End TargetGap.

Section SaveLoad.

Import DDPG.

Variable optimizer : Type.

Lemma append_eqb (f a b : string) :
  String.eqb (f ++ a) (f ++ b) = String.eqb a b.
Proof.
  induction f as [|c f IH]; simpl; [reflexivity|].
  now rewrite Ascii.eqb_refl.
Qed.

Lemma Critic_load_saved (n m : Critic) :
  same_shapes (Critic_parameters m) (Critic_parameters n) ->
  Critic_load_state_dict optimizer n (StateDict optimizer (Critic_state_dict m))
  = Loaded m.
Proof.
  destruct n as [[w1 b1] p1 [w2 b2] p2 [w3 b3]].
  destruct m as [[v1 c1] q1 [v2 c2] q2 [v3 c3]].
  unfold same_shapes, Critic_parameters. simpl. intros H.
  repeat match goal with
         | H : Forall2 _ (_ :: _) (_ :: _) |- _ =>
             apply Forall2_cons_1 in H; destruct H as [? H]
         end.
  unfold Critic_load_state_dict, load_entries. simpl.
  repeat match goal with
         | E : length ?x = length ?y |- _ =>
             rewrite E, Nat.eqb_refl; clear E; simpl
         end.
  reflexivity.
Qed.

Lemma Actor_load_saved (n m : Actor) :
  same_shapes (Actor_parameters m) (Actor_parameters n) ->
  Actor_load_state_dict optimizer n (StateDict optimizer (Actor_state_dict m))
  = Loaded (Actor_assign n (Actor_parameters m)).
Proof.
  destruct n as [[w1 b1] [w2 b2] [w3 b3] p1 p2 k].
  destruct m as [[v1 c1] [v2 c2] [v3 c3] q1 q2 k'].
  unfold same_shapes, Actor_parameters. simpl. intros H.
  repeat match goal with
         | H : Forall2 _ (_ :: _) (_ :: _) |- _ =>
             apply Forall2_cons_1 in H; destruct H as [? H]
         end.
  unfold Actor_load_state_dict, load_entries. simpl.
  repeat match goal with
         | E : length ?x = length ?y |- _ =>
             rewrite E, Nat.eqb_refl; clear E; simpl
         end.
  reflexivity.
Qed.

(** X13.  [load] after [save] under the same name, into an agent whose
    networks have the shapes of the saved ones: the networks get the saved
    parameters and the optimizers the saved states; both target networks
    become copies of the loaded networks, whatever the targets were when
    saving; [max_action] of the actor and [discount], [tau] and
    [total_it] stay those of the loading agent.  Without files [load]
    fails on the first one it looks for. *)
Theorem load_after_save (a b : DDPG.t optimizer) (filename : string)
  (fs : files optimizer) :
  same_shapes (Actor_parameters (actor a)) (Actor_parameters (actor b)) ->
  same_shapes (Critic_parameters (critic a)) (Critic_parameters (critic b)) ->
  load optimizer b filename [] = Failed FileNotFoundError
  /\ exists b',
       load optimizer b filename (save optimizer a filename fs) = Loaded b'
       /\ Actor_parameters (actor b') = Actor_parameters (actor a)
       /\ a_max_action (actor b') = a_max_action (actor b)
       /\ critic b' = critic a
       /\ actor_optimizer b' = actor_optimizer a
       /\ critic_optimizer b' = critic_optimizer a
       /\ actor_target b' = actor b'
       /\ critic_target b' = critic b'
       /\ discount b' = discount b /\ tau b' = tau b
       /\ total_it b' = total_it b.
Proof.
  intros Hactor Hcritic. split; [reflexivity|].
  eexists. split.
  - unfold load, save, torch_save. cbn [torch_load].
    rewrite !append_eqb. simpl String.eqb. cbn iota.
    cbn [mbind loaded_bind].
    rewrite (Critic_load_saved _ _ Hcritic).
    cbn [mbind loaded_bind optimizer_load_state_dict].
    rewrite (Actor_load_saved _ _ Hactor).
    cbn [mbind loaded_bind optimizer_load_state_dict].
    reflexivity.
  - simpl. destruct (actor a) as [[v1 c1] [v2 c2] [v3 c3] q1 q2 k'].
    simpl. auto 12.
Qed.

End SaveLoad.

(** ** StockEnv: what the constructor has checked *)

Section Constructor.

Import StockEnv Datetime.

Variable price_data : string -> string -> option (list Q).

Lemma randints_Ret a b n drawn :
  a <= b -> exists xs, randints a b n drawn = Ret xs.
Proof.
  intros Hab. revert drawn.
  induction n as [|n IH]; intros drawn; simpl; [eauto|].
  unfold randint. destruct (Z.leb_spec a b); [|lia]. simpl.
  destruct (IH (tl drawn)) as [xs ->]. simpl. eauto.
Qed.

(** A [reset] that returns has found the date range and a first stock,
    and has left every attribute but [epochs], [state] and
    [starting_amount] as it was. *)
Lemma reset_attributes rnd self init st self' :
  reset price_data rnd self init = Ret (st, self') ->
  stock_names self <> []
  /\ (exists sd ed e,
        start_date self = Some sd /\ end_date self = Some ed
        /\ epochs self' = Some e)
  /\ random_start self' = random_start self
  /\ valid_dates self' = valid_dates self
  /\ number_of_stocks self' = number_of_stocks self
  /\ stock_names self' = stock_names self
  /\ max_epochs self' = max_epochs self
  /\ start_date self' = start_date self
  /\ end_date self' = end_date self
  /\ starting_amount_lower self' = starting_amount_lower self
  /\ starting_amount_upper self' = starting_amount_upper self.
Proof.
  unfold StockEnv.reset. intros H.
  bind_inv H as start Hstart. destruct start as [money shares].
  bind_inv H as sd Hsd. bind_inv H as ed Hed. bind_inv H as self2 Hepoch.
  bind_inv H as now Hnow. destruct now as [current_date current_time].
  bind_inv H as st1 Hst. bind_inv H as value Hvalue.
  injection H as <- <-.
  apply getattr_Ret in Hsd, Hed.
  unfold initialize_starting_epoch in Hepoch.
  bind_inv Hepoch as self1 Hself1.
  assert (exists e0, self1 = set_epochs self e0) as [e0 ->].
  { destruct (random_start self).
    - bind_inv Hself1 as a1 Ha1. bind_inv Hself1 as a2 Ha2.
      bind_inv Hself1 as o1 Ho1. bind_inv Hself1 as o2 Ho2.
      bind_inv Hself1 as e He. injection Hself1 as <-. eauto.
    - injection Hself1 as <-. eauto. }
  assert (stock_names self <> []) as Hnames.
  { unfold increment_date in Hepoch.
    bind_inv Hepoch as d Hd. bind_inv Hepoch as name Hname.
    apply getitem_Ret in Hname. simpl in Hname.
    intros Hnil. rewrite Hnil in Hname. discriminate. }
  apply increment_date_first in Hepoch
    as (d & e & k & s & _ & _ & _ & -> & _).
  simpl. split; [exact Hnames|].
  split; [exists sd, ed, (e + k); auto|]. auto 12.
Qed.

Lemma initialize_date_refuses self s1 s2 b self' other :
  initialize_date self s1 s2 = Ret (PyBool b, self') ->
  initialize_date other s1 s2 = Ret (PyBool b, other).
Proof.
  unfold initialize_date. intros H. bind_inv H as r Hr. rewrite Hr.
  simpl. destruct r as [valid|b'].
  - bind_inv H as a1 H1. bind_inv H as a2 H2.
    bind_inv H as o1 Ho1. bind_inv H as o2 Ho2.
    destruct (negb _) in H; discriminate.
  - injection H as <- _. reflexivity.
Qed.

(** What the constructor has done when it returns. *)
Lemma constructor_Ret csv rnd names s1 s2 lower upper random self :
  __init__ price_data csv rnd names s1 s2 lower upper random = Ret self ->
  names <> []
  /\ exists d1 d2 e st,
       parse_date s1 = Ret d1 /\ parse_date s2 = Ret d2
       /\ toordinal d1 <= toordinal d2
       /\ max_epochs self = Some ((toordinal d2 - toordinal d1) * 2)
       /\ start_date self = Some s1 /\ end_date self = Some s2
       /\ valid_dates self = csv /\ stock_names self = names
       /\ number_of_stocks self = Z.of_nat (length names)
       /\ random_start self = random
       /\ starting_amount_lower self = lower
       /\ starting_amount_upper self = upper
       /\ epochs self = Some e /\ state self = Some st
       /\ State.calculate_portfolio_value price_data st
          = Ret (starting_amount self).
Proof.
  intros H. unfold __init__ in H.
  bind_inv H as r Hinit. destruct r as [v self1].
  bind_inv H as r Hreset. destruct r as [st self2].
  injection H as <-.
  pose proof (reset_Ret price_data _ _ _ _ _ Hreset) as (Hstate & Hvalue).
  apply reset_attributes in Hreset
    as (Hnames & (sd & ed & e & Hsd & Hed & He) & Hr & Hv & Hn & Hs & Hm
        & Hs1 & Hs2 & Hlo & Hup).
  destruct v as [|b].
  - apply initialize_date_accepts in Hinit
      as (d1 & d2 & Hd1 & Hd2 & Hdays & ->).
    simpl in *. split; [exact Hnames|].
    exists d1, d2, e, st. unfold days_between in Hdays.
    split; [exact Hd1|]. split; [exact Hd2|]. split; [lia|].
    auto 15.
  - apply (initialize_date_refuses _ _ _ _ _
             (mk random csv (Z.of_nat (length names)) names None None None
                 0 0 0%Q None None)) in Hinit as Hsame.
    rewrite Hinit in Hsame. injection Hsame as ->.
    simpl in Hsd. discriminate.
Qed.

(** X14.  The constructor drops what [initialize_date] returns, yet an
    environment that it has constructed has a checked date range: both
    strings parse as dates, the end not before the start, and
    [max_epochs] is twice the days between them; there is at least one
    stock; the calendar, the names and the starting amounts are the
    arguments; and [starting_amount] is the value of the portfolio the
    state starts with.  When [initialize_date] returns [False], the
    constructor raises [AttributeError] on [start_date], unless a random
    start with an empty range of amounts has raised before. *)
Theorem constructor_outcomes (csv : list string) (rnd : draws)
  (names : list string) (s1 s2 : string) (lower upper : Z) (random : bool) :
  (forall self,
     __init__ price_data csv rnd names s1 s2 lower upper random = Ret self ->
     names <> []
     /\ exists d1 d2 e st,
          parse_date s1 = Ret d1 /\ parse_date s2 = Ret d2
          /\ toordinal d1 <= toordinal d2
          /\ max_epochs self = Some ((toordinal d2 - toordinal d1) * 2)
          /\ start_date self = Some s1 /\ end_date self = Some s2
          /\ valid_dates self = csv /\ stock_names self = names
          /\ number_of_stocks self = Z.of_nat (length names)
          /\ random_start self = random
          /\ starting_amount_lower self = lower
          /\ starting_amount_upper self = upper
          /\ epochs self = Some e /\ state self = Some st
          /\ State.calculate_portfolio_value price_data st
             = Ret (starting_amount self))
  /\ (forall other b other',
        initialize_date other s1 s2 = Ret (PyBool b, other') ->
        random = false \/ lower <= upper ->
        __init__ price_data csv rnd names s1 s2 lower upper random
        = Raise (AttributeError "start_date")).
Proof.
  split; [intros self; apply constructor_Ret|].
  intros other b other' Hinit Hrange. unfold __init__.
  rewrite (initialize_date_refuses _ _ _ _ _
             (mk random csv (Z.of_nat (length names)) names None None None
                 0 0 0%Q None None) Hinit).
  rewrite bind_of_Ret. unfold StockEnv.reset. simpl random_start.
  destruct random.
  - destruct Hrange as [|Hrange]; [discriminate|].
    simpl. unfold randint at 1.
    destruct (Z.leb_spec lower upper); [|lia]. simpl.
    destruct (randints_Ret 0 10 (Z.to_nat (Z.of_nat (length names)))
                (drawn_shares rnd) ltac:(lia)) as [xs ->].
    reflexivity.
  - reflexivity.
Qed.

End Constructor.

(** ** The training loop: what an iteration stores, and how often it
    trains *)

Section LoopBookkeeping.

Import ReplayBuffer.

Variable price_data : string -> string -> option (list Q).
Variable get_new_holdings :
  State.t -> list Q -> list Q -> outcome (list Q * Q).
Variable to_numpy : State.t -> list Q.
Variable linear : DDPG.Linear -> DDPG.rows -> DDPG.rows.
Variable prelu : DDPG.tensor -> DDPG.rows -> DDPG.rows.
Variable tanh : DDPG.rows -> DDPG.rows.
Variable optimizer : Type.
Variable critic_step :
  optimizer -> DDPG.Critic -> DDPG.rows -> DDPG.rows -> DDPG.rows ->
  DDPG.Critic * optimizer.
Variable actor_step :
  optimizer -> DDPG.Actor -> DDPG.Critic -> DDPG.rows ->
  DDPG.Actor * optimizer.

Local Abbreviation iteration :=
  (Run.iteration price_data get_new_holdings to_numpy linear prelu tanh
     optimizer critic_step actor_step).
Local Abbreviation iterations :=
  (Run.iterations price_data get_new_holdings to_numpy linear prelu tanh
     optimizer critic_step actor_step).
Local Abbreviation choose_action :=
  (Run.choose_action to_numpy linear prelu tanh optimizer).
Local Abbreviation train :=
  (DDPG.train linear prelu tanh optimizer critic_step actor_step).

(** One [add] that returns: the rows it has written, from its arguments. *)
Lemma add_rows self s a n r d self' :
  add self s a n r d = Ret self' ->
  exists rs rn s' a' n',
    ReplayBuffer.state self !! ptr self = Some rs
    /\ next_state self !! ptr self = Some rn
    /\ broadcast_to (length rs) s = Ret s'
    /\ broadcast_to (length rn) n = Ret n'
    /\ entry self' (ptr self) = Some (s', a', n', r, (1 - d)%Q).
Proof.
  unfold add. intros H.
  bind_inv H. bind_inv H. bind_inv H. bind_inv H. bind_inv H.
  injection H as <-.
  apply set_row_Ret in Hv as (rn & n' & En & Bn & ->).
  apply set_row_Ret in Hv0 as (ra & a' & Ea & Ba & ->).
  apply set_row_Ret in Hv1 as (rs & s' & Es & Bs & ->).
  apply set_cell_Ret in Hv2 as (Lr & ->).
  apply set_cell_Ret in Hv3 as (Ld & ->).
  exists rs, rn, s', a', n'.
  do 4 (split; [assumption|]).
  unfold entry. simpl.
  rewrite !list_lookup_insert_eq by (eauto using lookup_lt_Some).
  reflexivity.
Qed.

(** One iteration that returns, taken apart. *)
Lemma iteration_Ret t c l l' :
  iteration t c l = Ret l' ->
  exists action st reward done env' m buf policy',
    choose_action t c l = Ret action
    /\ StockEnv.step price_data get_new_holdings (Run.env l) action
       = Ret (st, reward, done, env')
    /\ StockEnv.max_epochs env' = Some m
    /\ add (Run.replay_buffer l) (to_numpy st) action (to_numpy st) reward
         (Run.done_bool done (Run.episode_timesteps l + 1) m)
       = Ret buf
    /\ (if t >=? Run.START_TIMESTEPS then train (Run.policy l) buf (Run.train_ind c)
        else Ret (Run.policy l)) = Ret policy'
    /\ Run.replay_buffer l' = buf /\ Run.policy l' = policy'
    /\ Run.done l' = false
    /\ Run.episode_num l'
       = (if done then Run.episode_num l + 1 else Run.episode_num l)
    /\ Run.episode_timesteps l'
       = (if done then 0 else Run.episode_timesteps l + 1).
Proof.
  unfold Run.iteration. intros H.
  bind_inv H as action Haction.
  bind_inv H as stepped Hstep.
  destruct stepped as [[[st reward] done] env'].
  bind_inv H as m Hm. apply getattr_Ret in Hm.
  bind_inv H as st2 Hst2. apply getattr_Ret in Hst2.
  bind_inv H as buf Hadd.
  bind_inv H as policy' Hpolicy.
  pose proof (step_Ret _ _ _ _ _ _ _ _ Hstep)
    as (? & ? & ? & ? & _ & Hstate & _).
  rewrite Hstate in Hst2. injection Hst2 as <-.
  exists action, st, reward, done, env', m, buf, policy'.
  do 5 (split; [assumption|]).
  destruct done.
  - bind_inv H as again Hreset. destruct again as [st3 env3].
    injection H as <-. simpl. auto 10.
  - injection H as <-. simpl. auto 10.
Qed.

(** X15.  The loop keeps one state object: [state] and [next_state] name
    the state of the environment, which [step] has already advanced when
    the transition is stored.  So an iteration writes the same row, the
    state after the step, into [state] and into [next_state] of the
    buffer; the state the action was chosen in is not stored. *)
Theorem iteration_stores_state_twice (state_dim action_dim : nat) (t : Z)
  (c : Run.chance) (l l' : Run.locals optimizer) :
  shaped state_dim action_dim (Run.replay_buffer l) ->
  iteration t c l = Ret l' ->
  exists action st reward done env' row a d,
    choose_action t c l = Ret action
    /\ StockEnv.step price_data get_new_holdings (Run.env l) action
       = Ret (st, reward, done, env')
    /\ StockEnv.state env' = Some st
    /\ broadcast_to state_dim (to_numpy st) = Ret row
    /\ (length (to_numpy st) = state_dim -> row = to_numpy st)
    /\ entry (Run.replay_buffer l') (ptr (Run.replay_buffer l))
       = Some (row, a, row, reward, d).
Proof.
  intros Hshaped H.
  apply iteration_Ret in H
    as (action & st & reward & done & env' & m & buf & policy' & Haction
        & Hstep & Hm & Hadd & _ & <- & _).
  pose proof (step_Ret _ _ _ _ _ _ _ _ Hstep)
    as (? & ? & ? & ? & _ & Hstate & _).
  apply add_rows in Hadd
    as (rs & rn & s' & a' & n' & Es & En & Bs & Bn & Hentry).
  destruct Hshaped as [_ _ _ _ _ Ws _ Wn _ _].
  rewrite Forall_lookup in Ws, Wn.
  rewrite (Ws _ _ Es) in Bs. rewrite (Wn _ _ En) in Bn.
  rewrite Bs in Bn. injection Bn as <-.
  exists action, st, reward, done, env', s', a'. eexists.
  do 4 (split; [assumption|]).
  split; [|exact Hentry].
  intros Hlen. rewrite (broadcast_to_exact _ _ Hlen) in Bs. congruence.
Qed.

Lemma train_total_it self buf ind self' :
  train self buf ind = Ret self' ->
  DDPG.total_it self' = DDPG.total_it self + 1.
Proof.
  unfold DDPG.train. intros H. bind_inv H as b Hb.
  destruct (critic_step _ _ _ _ _) as [critic' copt'].
  destruct (actor_step _ _ _ _) as [actor' aopt'].
  injection H as <-. reflexivity.
Qed.

(** X16.  The iterations before [START_TIMESTEPS] leave the policy as it
    is; every iteration from there on trains it once.  So over the
    iterations [t], ..., [t + n - 1], [total_it] grows by the number of
    those that are not below [START_TIMESTEPS]. *)
Theorem iterations_train_count (t : Z) (cs : list Run.chance)
  (l l' : Run.locals optimizer) :
  iterations t cs l = Ret l' ->
  DDPG.total_it (Run.policy l')
  = DDPG.total_it (Run.policy l)
    + Z.max 0 (Z.min (Z.of_nat (length cs))
                 (t + Z.of_nat (length cs) - Run.START_TIMESTEPS))
  /\ (t + Z.of_nat (length cs) <= Run.START_TIMESTEPS ->
      Run.policy l' = Run.policy l).
Proof.
  revert t l. induction cs as [|c cs IH]; intros t l H.
  - simpl in H. injection H as <-. simpl. split; [lia | reflexivity].
  - simpl in H. bind_inv H as l1 Hl1.
    apply iteration_Ret in Hl1
      as (action & st & reward & done & env' & m & buf & policy' & _ & _ & _
          & _ & Hpolicy & _ & Hp & _).
    destruct (IH _ _ H) as (Hcount & Hsame).
    rewrite Hcount, Hp. cbn [length]. unfold Run.START_TIMESTEPS in *.
    destruct (Z.geb_spec t 2500) as [Hge|Hlt].
    + apply train_total_it in Hpolicy. rewrite Hpolicy.
      split; [lia|]. intros Hwarm. lia.
    + injection Hpolicy as <-. split; [lia|].
      intros Hwarm. rewrite Hsame by lia. exact Hp.
Qed.

(** X17.  Every iteration stores one transition, whether or not the
    episode ends in it: over [n] iterations the write pointer of the
    buffer moves on by [n], around the capacity, and [size] grows by [n]
    up to the capacity. *)
Theorem iterations_fill_buffer (t : Z) (cs : list Run.chance)
  (l l' : Run.locals optimizer) :
  (ptr (Run.replay_buffer l) < max_size (Run.replay_buffer l))%nat ->
  (size (Run.replay_buffer l) <= max_size (Run.replay_buffer l))%nat ->
  iterations t cs l = Ret l' ->
  max_size (Run.replay_buffer l') = max_size (Run.replay_buffer l)
  /\ ptr (Run.replay_buffer l')
     = ((ptr (Run.replay_buffer l) + length cs)
        mod max_size (Run.replay_buffer l))%nat
  /\ size (Run.replay_buffer l')
     = Nat.min (size (Run.replay_buffer l) + length cs)
         (max_size (Run.replay_buffer l)).
Proof.
  revert t l. induction cs as [|c cs IH]; intros t l Hptr Hsize H.
  - simpl in H. injection H as <-.
    rewrite !Nat.add_0_r, Nat.mod_small by exact Hptr.
    split; [reflexivity|]. split; [reflexivity | lia].
  - simpl in H. bind_inv H as l1 Hl1.
    apply iteration_Ret in Hl1
      as (action & st & reward & done & env' & m & buf & policy' & _ & _ & _
          & Hadd & _ & Hbuf & _).
    apply add_Ret in Hadd as (_ & _ & _ & _ & Hp & Hs & Hm).
    rewrite <- Hbuf in Hp, Hs, Hm.
    assert (0 < max_size (Run.replay_buffer l))%nat as Hcap by lia.
    destruct (IH _ _ ltac:(rewrite Hp, Hm; apply Nat.mod_upper_bound; lia)
                ltac:(rewrite Hs, Hm; lia) H) as (Hm' & Hp' & Hs').
    rewrite Hm', Hp', Hs', Hp, Hs, Hm. cbn [length].
    split; [reflexivity|]. split.
    + rewrite Nat.Div0.add_mod_idemp_l. f_equal. lia.
    + lia.
Qed.

Lemma clip_within lo hi xs :
  (lo <= hi)%Q ->
  Forall (fun x => (lo <= x)%Q /\ (x <= hi)%Q) (Np.clip lo hi xs).
Proof.
  intros Hle. unfold Np.clip. apply Forall_map, Forall_forall.
  intros x _. simpl.
  destruct (Qle_bool x lo) eqn:E1.
  - split; [apply Qle_refl | exact Hle].
  - destruct (Qle_bool hi x) eqn:E2.
    + split; [exact Hle | apply Qle_refl].
    + split.
      * apply Qlt_le_weak, Qnot_le_lt. rewrite <- Qle_bool_iff. congruence.
      * apply Qlt_le_weak, Qnot_le_lt. rewrite <- Qle_bool_iff. congruence.
Qed.

Lemma int_of_float_within (k : Z) (x : Q) :
  (inject_Z (- k) <= x)%Q -> (x <= inject_Z k)%Q ->
  - k <= StockEnv.int_of_float x <= k.
Proof.
  unfold Qle, StockEnv.int_of_float. destruct x as [n d]. simpl.
  rewrite !Z.mul_1_r. intros Hlo Hhi. split.
  - transitivity ((- k * Z.pos d) ÷ Z.pos d).
    + rewrite Z.quot_mul; lia.
    + apply Z.quot_le_mono; lia.
  - transitivity ((k * Z.pos d) ÷ Z.pos d).
    + apply Z.quot_le_mono; lia.
    + rewrite Z.quot_mul; lia.
Qed.

(** X18.  From [START_TIMESTEPS] on, whatever the actor puts out and
    whatever the noise, the action that goes into [step] and into the
    buffer is a vector of whole numbers from [-MAX_LIMIT] to
    [MAX_LIMIT]. *)
Theorem choose_action_whole_and_bounded (t : Z) (c : Run.chance)
  (l : Run.locals optimizer) (action : list Q) :
  Run.START_TIMESTEPS <= t ->
  choose_action t c l = Ret action ->
  Forall (fun x => exists z : Z,
            x = inject_Z z /\ - Run.MAX_LIMIT <= z <= Run.MAX_LIMIT) action.
Proof.
  intros Ht H. unfold Run.choose_action in H.
  destruct (Z.ltb_spec t Run.START_TIMESTEPS) as [|_]; [lia|].
  bind_inv H as st Hst. bind_inv H as a Ha. injection H as <-.
  apply Forall_map.
  eapply Forall_impl;
    [apply (clip_within (inject_Z (- Run.MAX_LIMIT)) (inject_Z Run.MAX_LIMIT));
     discriminate|].
  simpl. intros x [Hlo Hhi]. eexists. split; [reflexivity|].
  now apply int_of_float_within.
Qed.

End LoopBookkeeping.

(** ** [test]: the loop ends, and what the frame holds *)

Section TestLoop.

Import StockEnv Datetime.

Variable price_data : string -> string -> option (list Q).
Variable get_new_holdings :
  State.t -> list Q -> list Q -> outcome (list Q * Q).
Variable to_numpy : State.t -> list Q.
Variable linear : DDPG.Linear -> DDPG.rows -> DDPG.rows.
Variable prelu : DDPG.tensor -> DDPG.rows -> DDPG.rows.
Variable tanh : DDPG.rows -> DDPG.rows.
Variable optimizer : Type.
Variable critic_step :
  optimizer -> DDPG.Critic -> DDPG.rows -> DDPG.rows -> DDPG.rows ->
  DDPG.Critic * optimizer.
Variable actor_step :
  optimizer -> DDPG.Actor -> DDPG.Critic -> DDPG.rows ->
  DDPG.Actor * optimizer.
Variable round2 : Q -> Q.

Local Abbreviation append_portfolio_value :=
  (Run.append_portfolio_value price_data round2).
Local Abbreviation test_round :=
  (Run.test_round price_data get_new_holdings to_numpy linear prelu tanh
     optimizer critic_step actor_step round2).
Local Abbreviation test_loop :=
  (Run.test_loop price_data get_new_holdings to_numpy linear prelu tanh
     optimizer critic_step actor_step round2).
Local Abbreviation test :=
  (Run.test price_data get_new_holdings to_numpy linear prelu tanh
     optimizer critic_step actor_step round2).

Lemma append_portfolio_value_Ret df env df' :
  append_portfolio_value df env = Ret df' ->
  exists value date time,
    calculate_portfolio_value price_data env = Ret value
    /\ get_date_and_time env = Ret (date, time)
    /\ df' = (df ++ [((date ++ " "
                       ++ (if String.eqb time "Open" then "09:30AM"
                           else "04:00PM"))%string,
                      round2 value)])%list.
Proof.
  unfold Run.append_portfolio_value. intros H.
  bind_inv H as value Hvalue. bind_inv H as now Hnow.
  destruct now as [date time]. injection H as <-.
  exists value, date, time. auto.
Qed.

(** One round of the loop that returns. *)
Lemma test_round_Ret c l l' :
  test_round c l = Ret l' ->
  exists e k m row,
    epochs (Run.test_env l) = Some e /\ 1 <= k <= 19
    /\ epochs (Run.test_env l') = Some (e + k)
    /\ max_epochs (Run.test_env l) = Some m
    /\ max_epochs (Run.test_env l') = Some m
    /\ Run.test_done l' = (e + k >=? m)
    /\ Run.test_df l' = (Run.test_df l ++ [row])%list
    /\ DDPG.total_it (Run.test_policy l')
       = DDPG.total_it (Run.test_policy l) + 1.
Proof.
  unfold Run.test_round. intros H.
  bind_inv H as st Hst. bind_inv H as a Ha.
  bind_inv H as stepped Hstep.
  destruct stepped as [[[next_state reward] done] env'].
  bind_inv H as st2 Hst2. bind_inv H as buf Hadd.
  bind_inv H as policy' Hpolicy. bind_inv H as df' Hdf.
  injection H as <-. simpl.
  apply step_epochs in Hstep
    as (e & k & m & He & Hk & He' & Hm & Hm' & Hdone & _).
  apply append_portfolio_value_Ret in Hdf
    as (value & date & time & _ & _ & ->).
  apply train_total_it in Hpolicy.
  exists e, k, m. eexists.
  split; [exact He|]. split; [exact Hk|]. split; [exact He'|].
  split; [exact Hm|]. split; [exact Hm'|]. split; [exact Hdone|].
  split; [reflexivity | exact Hpolicy].
Qed.

(** The loop from any point on: it comes to an end within the rounds
    that are left to [max_epochs], and a round adds a row and trains
    once. *)
Lemma test_loop_ends cs : forall l e m,
  epochs (Run.test_env l) = Some e ->
  max_epochs (Run.test_env l) = Some m ->
  (Run.test_done l = false -> Z.max 1 (m - e) <= Z.of_nat (length cs)) ->
  (Run.test_done l = true -> m <= e) ->
  exists r,
    test_loop cs l = Some r
    /\ forall l', r = Ret l' ->
         Run.test_done l' = true
         /\ exists rows e',
              Run.test_df l' = (Run.test_df l ++ rows)%list
              /\ (Run.test_done l = false ->
                  1 <= Z.of_nat (length rows) <= Z.max 1 (m - e))
              /\ (Run.test_done l = true -> rows = [])
              /\ DDPG.total_it (Run.test_policy l')
                 = DDPG.total_it (Run.test_policy l)
                   + Z.of_nat (length rows)
              /\ epochs (Run.test_env l') = Some e' /\ m <= e'
              /\ max_epochs (Run.test_env l') = Some m.
Proof.
  induction cs as [|c cs IH]; intros l e m He Hm Hfuel Hdone.
  - destruct (Run.test_done l) eqn:Hd.
    + exists (Ret l). simpl. rewrite Hd. split; [reflexivity|].
      intros l' [= <-]. split; [exact Hd|]. exists [], e.
      rewrite app_nil_r. simpl.
      split; [reflexivity|]. split; [discriminate|].
      split; [reflexivity|]. split; [lia|]. auto.
    + specialize (Hfuel eq_refl). simpl in Hfuel. lia.
  - destruct (Run.test_done l) eqn:Hd.
    + exists (Ret l). simpl. rewrite Hd. split; [reflexivity|].
      intros l' [= <-]. split; [exact Hd|]. exists [], e.
      rewrite app_nil_r. simpl.
      split; [reflexivity|]. split; [discriminate|].
      split; [reflexivity|]. split; [lia|]. auto.
    + specialize (Hfuel eq_refl). cbn [length] in Hfuel.
      simpl. rewrite Hd.
      destruct (test_round c l) as [l1|err] eqn:Hround;
        [|exists (Raise err); split; [reflexivity | discriminate]].
      apply test_round_Ret in Hround
        as (e0 & k & m0 & row & He0 & Hk & He1 & Hm0 & Hm1 & Hd1 & Hdf1
            & Hit1).
      rewrite He in He0. injection He0 as <-.
      rewrite Hm in Hm0. injection Hm0 as <-.
      destruct (IH l1 (e + k) m He1 Hm1) as (r & Hr & Hafter).
      * rewrite Hd1. intros Hnot.
        destruct (Z.geb_spec (e + k) m); [discriminate | lia].
      * rewrite Hd1. intros Hyes.
        destruct (Z.geb_spec (e + k) m); [lia | discriminate].
      * exists r. split; [exact Hr|].
        intros l' Hl'. destruct (Hafter l' Hl')
          as (Hdone' & rows & e' & Hdf & Hsome & Hnone & Hit & He' & Hle
              & Hm').
        split; [exact Hdone'|]. exists (row :: rows), e'.
        split; [rewrite Hdf, Hdf1, <- app_assoc; reflexivity|].
        split.
        { intros _. cbn [length]. split; [lia|].
          destruct (Run.test_done l1) eqn:Hd1'.
          - rewrite (Hnone eq_refl). simpl. lia.
          - specialize (Hsome eq_refl). symmetry in Hd1.
            destruct (Z.geb_spec (e + k) m); [discriminate | lia]. }
        split; [discriminate|].
        split; [rewrite Hit, Hit1; cbn [length]; lia|]. auto.
Qed.

(** X19.  [test] comes to an end: when the two date strings parse, its
    loop needs no more rounds than twice the days between the dates, and
    one round when the dates are the same.  When nothing has raised, the
    frame it writes starts with a row for the opening of a trading day,
    followed by one row per round, the policy has been trained once per
    round, and the environment is at or past [max_epochs]. *)
Theorem test_ends (csv : list string) (rnd : draws) (names : list string)
  (s1 s2 : string) (policy : DDPG.t optimizer) (buf : ReplayBuffer.t)
  (cs : list Run.chance) (d1 d2 : date) :
  parse_date s1 = Ret d1 -> parse_date s2 = Ret d2 ->
  Z.max 1 ((toordinal d2 - toordinal d1) * 2) <= Z.of_nat (length cs) ->
  exists r,
    test csv rnd names s1 s2 policy buf cs = Some r
    /\ forall l, r = Ret l ->
         Run.test_done l = true
         /\ exists date value rows e,
              Run.test_df l = (date ++ " 09:30AM", value)%string :: rows
              /\ contains csv date = true
              /\ 1 <= Z.of_nat (length rows)
                 <= Z.max 1 ((toordinal d2 - toordinal d1) * 2)
              /\ DDPG.total_it (Run.test_policy l)
                 = DDPG.total_it policy + Z.of_nat (length rows)
              /\ epochs (Run.test_env l) = Some e
              /\ (toordinal d2 - toordinal d1) * 2 <= e.
Proof.
  intros Hd1 Hd2 Hfuel. unfold Run.test.
  destruct (__init__ price_data csv rnd names s1 s2 10000 50000 false)
    as [env|err] eqn:Hinit;
    [|exists (Raise err); split; [reflexivity | discriminate]].
  apply constructor_Ret in Hinit
    as (_ & d1' & d2' & e0 & st0 & Hd1' & Hd2' & _ & Hm & _ & _ & Hcsv & _
        & _ & Hrandom & _).
  rewrite Hd1 in Hd1'. injection Hd1' as <-.
  rewrite Hd2 in Hd2'. injection Hd2' as <-.
  rewrite bind_of_Ret.
  destruct (reset price_data rnd env false) as [[st env1]|err] eqn:Hreset;
    [|exists (Raise err); split; [reflexivity | discriminate]].
  rewrite bind_of_Ret.
  pose proof (reset_attributes _ _ _ _ _ _ Hreset)
    as (_ & _ & _ & Hcsv1 & _).
  apply reset_opening in Hreset
    as (e & date & He & Hrange & _ & Hnow & Hvalid & _ & _ & _ & _ & _ & Hm1
        & _); [|exact Hrandom].
  destruct (append_portfolio_value [] env1) as [df|err] eqn:Hdf;
    [|exists (Raise err); split; [reflexivity | discriminate]].
  rewrite bind_of_Ret.
  apply append_portfolio_value_Ret in Hdf
    as (value & date' & time & _ & Hnow' & ->).
  rewrite Hnow in Hnow'. injection Hnow' as <- <-.
  rewrite Hm in Hm1. rewrite Hcsv1, Hcsv in Hvalid.
  destruct (test_loop_ends cs
              (Run.mk_test optimizer env1 policy buf false 0%Q
                 ([] ++ [((date ++ " " ++ "09:30AM")%string, round2 value)])%list)
              e ((toordinal d2 - toordinal d1) * 2) He Hm1) as (r & Hr & Hafter).
  - intros _. lia.
  - discriminate.
  - exists r. split; [exact Hr|].
    intros l Hl. destruct (Hafter l Hl)
      as (Hdone & rows & e' & Hdf & Hsome & _ & Hit & He' & Hle & _).
    split; [exact Hdone|]. exists date, (round2 value), rows, e'.
    simpl in Hdf, Hsome, Hit. specialize (Hsome eq_refl).
    split; [exact Hdf|]. split; [exact Hvalid|]. split; [lia|].
    split; [exact Hit|]. split; [exact He' | exact Hle].
Qed.

End TestLoop.

(** ** The actor: the range of its actions *)

Section ActorRange.

Import DDPG.

Variable linear : Linear -> rows -> rows.
Variable prelu : tensor -> rows -> rows.
Variable tanh : rows -> rows.
Variable optimizer : Type.

(** Every entry of a batch lies between [lo] and [hi]. *)
Local Abbreviation within lo hi :=
  (Forall (Forall (fun v : Q => (lo <= v)%Q /\ (v <= hi)%Q))).

Lemma scale_within (k : Q) (x : rows) :
  (0 <= k)%Q -> within (- (1))%Q 1%Q x -> within (- k)%Q k (scale k x).
Proof.
  intros Hk Hx. unfold scale.
  apply Forall_map. eapply Forall_impl; [exact Hx|].
  simpl. intros row Hrow.
  apply Forall_map. eapply Forall_impl; [exact Hrow|].
  simpl. intros v [Hlo Hhi]. split; nra.
Qed.

(** X20.  With a [tanh] that stays between -1 and 1, as the one of the
    library does, and a [max_action] that is not negative, every entry of
    what the actor puts out, and so of what [select_action] returns, lies
    between [-max_action] and [max_action], whatever the weights and the
    state. *)
Theorem select_action_within_max_action (self : DDPG.t optimizer)
  (state : rows) :
  (forall x, within (- (1))%Q 1%Q (tanh x)) ->
  (0 <= a_max_action (actor self))%Q ->
  within (- a_max_action (actor self))%Q (a_max_action (actor self))
    (select_action linear prelu tanh optimizer self state).
Proof.
  intros Htanh Hmax. unfold select_action, Actor_forward.
  apply scale_within; auto.
Qed.

End ActorRange.

(** ** The further properties at work on the small market *)

Section FurtherWitnesses.

Import Fixture.

Lemma increment_date_at_most_19_witness :
  StockEnv.increment_date friday_env = Ret (StockEnv.set_epochs friday_env 6)
  /\ exists d e k s,
       StockEnv.start_date_obj friday_env = Ret d
       /\ StockEnv.epochs friday_env = Some e
       /\ 1 <= k <= 19
       /\ StockEnv.set_epochs friday_env 6
          = StockEnv.set_epochs friday_env (e + k)
       /\ StockEnv.all_invalid (StockEnv.valid_dates friday_env) d e 1 k
       /\ StockEnv.date_string d (e + k) = Ret s
       /\ StockEnv.contains (StockEnv.valid_dates friday_env) s = true.
Proof.
  assert (Hinc :
    StockEnv.increment_date friday_env
    = Ret (StockEnv.set_epochs friday_env 6)) by (vm_compute; reflexivity).
  split; [exact Hinc|].
  exact (increment_date_at_most_19 friday_env
           (StockEnv.set_epochs friday_env 6) Hinc).
Defined.

Lemma increment_date_lands_on_open_witness :
  StockEnv.increment_date env0 = Ret (StockEnv.set_epochs env0 1)
  /\ StockEnv.epochs env0 = Some 0
  /\ StockEnv.epochs (StockEnv.set_epochs env0 1) = Some 1
  /\ 1 mod 2 = 1
  /\ 0 mod 2 = 0 /\ 1 = 0 + 1.
Proof.
  assert (Hinc :
    StockEnv.increment_date env0 = Ret (StockEnv.set_epochs env0 1))
    by (vm_compute; reflexivity).
  split; [exact Hinc|]. split; [reflexivity|]. split; [reflexivity|].
  split; [reflexivity|].
  exact (increment_date_lands_on_open env0 (StockEnv.set_epochs env0 1) 0 1
           Hinc eq_refl eq_refl eq_refl).
Defined.

Lemma steps_reach_done_witness :
  StockEnv.epochs weekend_env = Some 0
  /\ StockEnv.max_epochs weekend_env = Some 6
  /\ [[5%Q]; [0%Q]] <> []
  /\ StockEnv.steps price_data get_new_holdings weekend_env None
       [[5%Q]; [0%Q]] = Ret (Some true, weekend_end)
  /\ exists e' done,
       StockEnv.epochs weekend_end = Some e'
       /\ StockEnv.max_epochs weekend_end = Some 6
       /\ 0 + 2 <= e' <= 0 + 19 * 2
       /\ Some true = Some done /\ done = (e' >=? 6)
       /\ (6 - 0 <= 2 -> done = true).
Proof.
  assert (Hsteps :
    StockEnv.steps price_data get_new_holdings weekend_env None
      [[5%Q]; [0%Q]] = Ret (Some true, weekend_end))
    by (vm_compute; reflexivity).
  assert (Hne : [[5%Q]; [0%Q]] <> []) by discriminate.
  split; [reflexivity|]. split; [reflexivity|]. split; [exact Hne|].
  split; [exact Hsteps|].
  exact (steps_reach_done price_data get_new_holdings weekend_env
           weekend_end [[5%Q]; [0%Q]] (Some true) 0 6 eq_refl eq_refl Hne
           Hsteps).
Defined.

Lemma reset_lands_on_opening_witness :
  StockEnv.random_start env0 = false
  /\ StockEnv.reset price_data no_draws env0 false = Ret (state0, env0)
  /\ exists e date,
       StockEnv.epochs env0 = Some e /\ 0 <= e <= 18 /\ e mod 2 = 0
       /\ StockEnv.get_date_and_time env0 = Ret (date, "Open")
       /\ StockEnv.contains (StockEnv.valid_dates env0) date = true
       /\ State.cash state0 = 10000%Q.
Proof.
  assert (Hreset :
    StockEnv.reset price_data no_draws env0 false = Ret (state0, env0))
    by (vm_compute; reflexivity).
  split; [reflexivity|]. split; [exact Hreset|].
  destruct (reset_lands_on_opening price_data no_draws env0 false state0
              env0 eq_refl Hreset)
    as (e & date & He & Hrange & Heven & Hnow & Hvalid & _ & _ & _ & Hcash
        & _).
  exists e, date. auto 10.
Defined.

Lemma reward_is_value_gain_witness :
  StockEnv.step price_data get_new_holdings env0 [5%Q]
  = Ret (state1, 10%Q, false, env1)
  /\ exists value,
       StockEnv.calculate_portfolio_value price_data env1 = Ret value
       /\ 10%Q = (value - StockEnv.starting_amount env1)%Q.
Proof.
  assert (Hstep :
    StockEnv.step price_data get_new_holdings env0 [5%Q]
    = Ret (state1, 10%Q, false, env1)) by (vm_compute; reflexivity).
  split; [exact Hstep|].
  exact (reward_is_value_gain price_data get_new_holdings env0 [5%Q] state1
           10%Q false env1 Hstep).
Defined.

Lemma valid_thursday : StockEnv.valid_date thursday.
Proof. repeat split; apply Z.leb_le; reflexivity. Defined.

Lemma valid_friday : StockEnv.valid_date friday.
Proof. repeat split; apply Z.leb_le; reflexivity. Defined.

Lemma initialize_date_accepts_mdy_witness :
  StockEnv.valid_date thursday /\ StockEnv.valid_date friday
  /\ Datetime.toordinal thursday <= Datetime.toordinal friday
  /\ StockEnv.initialize_date env0 "01-02-2020" "01-03-2020"
     = Ret (StockEnv.PyNone,
            StockEnv.set_dates env0 2 "01-02-2020" "01-03-2020").
Proof.
  assert (Hle : Datetime.toordinal thursday <= Datetime.toordinal friday)
    by (apply Z.leb_le; reflexivity).
  split; [exact valid_thursday|]. split; [exact valid_friday|].
  split; [exact Hle|].
  exact (initialize_date_accepts_mdy env0 thursday friday valid_thursday
           valid_friday Hle).
Defined.

Lemma initialize_date_rejects_iso_witness :
  StockEnv.valid_date thursday /\ StockEnv.valid_date friday
  /\ 13 <= Datetime.year thursday
  /\ exists msg,
       StockEnv.initialize_date env0 "2020-01-02" "2020-01-03"
       = Raise (ValueError msg)
       /\ msg <> "Date is not valid".
Proof.
  assert (Hyear : 13 <= Datetime.year thursday)
    by (apply Z.leb_le; reflexivity).
  split; [exact valid_thursday|]. split; [exact valid_friday|].
  split; [exact Hyear|].
  exact (initialize_date_rejects_iso env0 thursday friday valid_thursday
           valid_friday Hyear).
Defined.

Lemma initialize_date_short_date_witness :
  Forall StockEnv.numeric_token (re_split_hyphen "01-2020")
  /\ Forall StockEnv.numeric_token (re_split_hyphen "01-11-2020")
  /\ (length (re_split_hyphen "01-2020") < 3)%nat
  /\ StockEnv.initialize_date env0 "01-2020" "01-11-2020" = Raise IndexError.
Proof.
  assert (H1 : Forall StockEnv.numeric_token (re_split_hyphen "01-2020")).
  { repeat constructor; eexists; (split; [reflexivity|]);
      apply Z.ltb_lt; reflexivity. }
  assert (H2 : Forall StockEnv.numeric_token (re_split_hyphen "01-11-2020")).
  { repeat constructor; eexists; (split; [reflexivity|]);
      apply Z.ltb_lt; reflexivity. }
  assert (Hshort : (length (re_split_hyphen "01-2020") < 3)%nat)
    by (apply Nat.ltb_lt; reflexivity).
  split; [exact H1|]. split; [exact H2|]. split; [exact Hshort|].
  exact (initialize_date_short_date env0 "01-2020" "01-11-2020" H1 H2 Hshort).
Defined.

Lemma add_outcomes_witness :
  ReplayBuffer.shaped 2 1 buffer0
  /\ (exists self', ReplayBuffer.add_transition buffer0 (transition 1)
                    = Ret self')
  /\ exists msg,
       ReplayBuffer.add_transition buffer0 wide_transition
       = Raise (ValueError msg).
Proof.
  assert (Hshaped : ReplayBuffer.shaped 2 1 buffer0)
    by (apply init_shaped; apply Nat.ltb_lt; reflexivity).
  destruct (add_outcomes 2 1 buffer0 (transition 1)) as (_ & Hroom).
  destruct (Hroom Hshaped) as (Hlands & _).
  destruct (add_outcomes 2 1 buffer0 wide_transition) as (_ & Hroom').
  destruct (Hroom' Hshaped) as (_ & Hrefused).
  split; [exact Hshaped|]. split.
  - apply Hlands. split; [left; reflexivity|].
    split; left; reflexivity.
  - apply Hrefused. intros [[H|H] _]; discriminate.
Defined.

Lemma sample_after_adds_witness :
  (0 < 4)%nat
  /\ Forall (ReplayBuffer.fits 2 1) [transition 1; wide_reward]
  /\ [transition 1; wide_reward] <> []
  /\ Forall ReplayBuffer.in_floats [transition 1; wide_reward]
  /\ Forall (fun i => (i < Nat.min 2 4)%nat) [1%nat; 0%nat]
  /\ exists b batch,
       ReplayBuffer.adds (ReplayBuffer.__init__ 2 1 4)
         [transition 1; wide_reward] = Ret b
       /\ ReplayBuffer.sample b [1%nat; 0%nat] = Ret batch
       /\ length (ReplayBuffer.b_state batch) = 2%nat
       /\ ReplayBuffer.b_reward batch !! 0%nat = Some [16777216%Q]
       /\ ReplayBuffer.b_state batch !! 0%nat
          = Some [(12800095 # 256)%Q; 0%Q].
Proof.
  assert (Hcap : (0 < 4)%nat) by (apply Nat.ltb_lt; reflexivity).
  assert (Hfits : Forall (ReplayBuffer.fits 2 1)
                    [transition 1; wide_reward])
    by (repeat constructor).
  assert (Hne : [transition 1; wide_reward] <> []) by discriminate.
  assert (Hrange : Forall ReplayBuffer.in_floats
                     [transition 1; wide_reward]).
  { unfold ReplayBuffer.in_floats, ReplayBuffer.float_in_range,
      Float64.representable, Float.representable.
    repeat constructor; vm_compute; reflexivity. }
  assert (Hind : Forall (fun i => (i < Nat.min 2 4)%nat) [1%nat; 0%nat])
    by (repeat constructor; apply Nat.ltb_lt; reflexivity).
  split; [exact Hcap|]. split; [exact Hfits|]. split; [exact Hne|].
  split; [exact Hrange|]. split; [exact Hind|].
  destruct (sample_after_adds 2 1 4 [transition 1; wide_reward]
              [1%nat; 0%nat] Hcap Hfits Hne Hrange Hind)
    as (_ & _ & b & batch & Hb & Hbatch & Hlen & _ & _ & _ & _ & Hrows).
  destruct (Hrows 0%nat 1%nat eq_refl)
    as (j & tr & Htr & Hmod & _ & Hstate & _ & _ & Hreward & _).
  destruct j as [|[|j]]; [discriminate Hmod | | discriminate Htr].
  injection Htr as <-.
  exists b, batch. split; [exact Hb|]. split; [exact Hbatch|].
  split; [exact Hlen|]. split; [exact Hreward | exact Hstate].
Defined.

Lemma train_at_ends_of_tau_witness :
  DDPG.train linear prelu tanh unit critic_step actor_step copying_agent
    buffer1 [0%nat] = Ret copying_agent1
  /\ DDPG.tau copying_agent = 1%Q
  /\ Float32.representable 1 /\ Float32.representable 0
  /\ DDPG.total_it copying_agent1 = 1
  /\ exists T' t',
       DDPG.Critic_parameters (DDPG.critic_target copying_agent1) !! 0%nat
       = Some T'
       /\ T' !! 0%nat = Some t' /\ (t' == 1)%Q.
Proof.
  assert (Htrain :
    DDPG.train linear prelu tanh unit critic_step actor_step copying_agent
      buffer1 [0%nat] = Ret copying_agent1) by (vm_compute; reflexivity).
  assert (Hone : Float32.representable 1)
    by (split; vm_compute; reflexivity).
  assert (Hzero : Float32.representable 0)
    by (split; vm_compute; reflexivity).
  destruct (train_at_ends_of_tau linear prelu tanh unit critic_step
              actor_step copying_agent buffer1 [0%nat] copying_agent1
              Htrain)
    as (Hcritic & _ & Hit & _).
  destruct (Hcritic 0%nat 0%nat [1%Q] [0%Q] 1%Q 0%Q eq_refl eq_refl eq_refl
              eq_refl) as (T' & t' & HT' & Ht' & Hends).
  destruct (Hends Hone Hzero) as (Hcopy & _).
  split; [exact Htrain|]. split; [reflexivity|]. split; [exact Hone|].
  split; [exact Hzero|]. split; [exact Hit|].
  exists T', t'. split; [exact HT'|]. split; [exact Ht'|].
  apply Hcopy. reflexivity.
Defined.

Lemma load_after_save_witness :
  DDPG.same_shapes (DDPG.Actor_parameters (DDPG.actor other_agent))
    (DDPG.Actor_parameters (DDPG.actor agent))
  /\ DDPG.same_shapes (DDPG.Critic_parameters (DDPG.critic other_agent))
       (DDPG.Critic_parameters (DDPG.critic agent))
  /\ exists b',
       DDPG.load unit agent "results/initial_policy"
         (DDPG.save unit other_agent "results/initial_policy" [])
       = DDPG.Loaded b'
       /\ DDPG.critic b' = target_critic
       /\ DDPG.critic_target b' = target_critic
       /\ DDPG.total_it b' = 0.
Proof.
  assert (Hactor :
    DDPG.same_shapes (DDPG.Actor_parameters (DDPG.actor other_agent))
      (DDPG.Actor_parameters (DDPG.actor agent)))
    by (repeat constructor).
  assert (Hcritic :
    DDPG.same_shapes (DDPG.Critic_parameters (DDPG.critic other_agent))
      (DDPG.Critic_parameters (DDPG.critic agent)))
    by (repeat constructor).
  split; [exact Hactor|]. split; [exact Hcritic|].
  destruct (load_after_save unit other_agent agent "results/initial_policy"
              [] Hactor Hcritic)
    as (_ & b' & Hload & _ & _ & Hc & _ & _ & _ & Hct & _ & _ & Hit).
  exists b'. split; [exact Hload|]. split; [exact Hc|].
  split; [rewrite Hct; exact Hc | exact Hit].
Defined.

Lemma constructor_outcomes_witness :
  StockEnv.__init__ price_data calendar no_draws ["SPY"] "01-02-2020"
    "01-11-2020" 10000 10000 false = Ret env0
  /\ StockEnv.max_epochs env0 = Some 18
  /\ StockEnv.initialize_date env0 "ab-01-2020" "01-11-2020"
     = Ret (StockEnv.PyBool false, env0)
  /\ StockEnv.__init__ price_data calendar no_draws ["SPY"] "ab-01-2020"
       "01-11-2020" 10000 10000 false
     = Raise (AttributeError "start_date").
Proof.
  assert (Hinit :
    StockEnv.__init__ price_data calendar no_draws ["SPY"] "01-02-2020"
      "01-11-2020" 10000 10000 false = Ret env0)
    by (vm_compute; reflexivity).
  assert (Hfalse :
    StockEnv.initialize_date env0 "ab-01-2020" "01-11-2020"
    = Ret (StockEnv.PyBool false, env0)) by (vm_compute; reflexivity).
  destruct (constructor_outcomes price_data calendar no_draws ["SPY"]
              "01-02-2020" "01-11-2020" 10000 10000 false) as (Hbuilt & _).
  destruct (Hbuilt env0 Hinit)
    as (_ & d1 & d2 & e & st & _ & _ & _ & Hmax & _).
  destruct (constructor_outcomes price_data calendar no_draws ["SPY"]
              "ab-01-2020" "01-11-2020" 10000 10000 false) as (_ & Hraises).
  split; [exact Hinit|]. split; [reflexivity|]. split; [exact Hfalse|].
  exact (Hraises env0 false env0 Hfalse (or_introl eq_refl)).
Defined.

Lemma iteration_stores_state_twice_witness :
  ReplayBuffer.shaped 2 1 (Run.replay_buffer locals0)
  /\ Run.iteration price_data get_new_holdings to_numpy linear prelu tanh
       unit critic_step actor_step 0 chance0 locals0 = Ret locals1
  /\ exists row a reward d,
       ReplayBuffer.entry (Run.replay_buffer locals1) 0
       = Some (row, a, row, reward, d).
Proof.
  assert (Hshaped : ReplayBuffer.shaped 2 1 (Run.replay_buffer locals0))
    by (apply init_shaped; apply Nat.ltb_lt; reflexivity).
  assert (Hrun :
    Run.iteration price_data get_new_holdings to_numpy linear prelu tanh
      unit critic_step actor_step 0 chance0 locals0 = Ret locals1)
    by (vm_compute; reflexivity).
  split; [exact Hshaped|]. split; [exact Hrun|].
  destruct (iteration_stores_state_twice price_data get_new_holdings
              to_numpy linear prelu tanh unit critic_step actor_step 2 1 0
              chance0 locals0 locals1 Hshaped Hrun)
    as (action & st & reward & done & env' & row & a & d & _ & _ & _ & _ & _
        & Hentry).
  exists row, a, reward, d. exact Hentry.
Defined.

Lemma iterations_train_count_witness :
  Run.iterations price_data get_new_holdings to_numpy linear prelu tanh
    unit critic_step actor_step 2499 [chance0; chance0] locals0
  = Ret locals_trained
  /\ DDPG.total_it (Run.policy locals_trained)
     = DDPG.total_it (Run.policy locals0) + 1
  /\ Run.iterations price_data get_new_holdings to_numpy linear prelu tanh
       unit critic_step actor_step 0 [chance0; chance0] locals0
     = Ret locals2
  /\ 0 + 2 <= Run.START_TIMESTEPS
  /\ Run.policy locals2 = Run.policy locals0.
Proof.
  assert (Hrun :
    Run.iterations price_data get_new_holdings to_numpy linear prelu tanh
      unit critic_step actor_step 2499 [chance0; chance0] locals0
    = Ret locals_trained) by (vm_compute; reflexivity).
  assert (Hwarm :
    Run.iterations price_data get_new_holdings to_numpy linear prelu tanh
      unit critic_step actor_step 0 [chance0; chance0] locals0
    = Ret locals2) by (vm_compute; reflexivity).
  assert (Hearly : 0 + 2 <= Run.START_TIMESTEPS)
    by (apply Z.leb_le; reflexivity).
  destruct (iterations_train_count price_data get_new_holdings to_numpy
              linear prelu tanh unit critic_step actor_step 2499
              [chance0; chance0] locals0 locals_trained Hrun)
    as (Hcount & _).
  destruct (iterations_train_count price_data get_new_holdings to_numpy
              linear prelu tanh unit critic_step actor_step 0
              [chance0; chance0] locals0 locals2 Hwarm)
    as (_ & Hsame).
  split; [exact Hrun|]. split; [exact Hcount|]. split; [exact Hwarm|].
  split; [exact Hearly|]. exact (Hsame Hearly).
Defined.

Lemma iterations_fill_buffer_witness :
  (ReplayBuffer.ptr (Run.replay_buffer locals0)
   < ReplayBuffer.max_size (Run.replay_buffer locals0))%nat
  /\ (ReplayBuffer.size (Run.replay_buffer locals0)
      <= ReplayBuffer.max_size (Run.replay_buffer locals0))%nat
  /\ Run.iterations price_data get_new_holdings to_numpy linear prelu tanh
       unit critic_step actor_step 2499 [chance0; chance0] locals0
     = Ret locals_trained
  /\ ReplayBuffer.max_size (Run.replay_buffer locals_trained) = 4%nat
  /\ ReplayBuffer.ptr (Run.replay_buffer locals_trained) = 2%nat
  /\ ReplayBuffer.size (Run.replay_buffer locals_trained) = 2%nat.
Proof.
  assert (Hptr :
    (ReplayBuffer.ptr (Run.replay_buffer locals0)
     < ReplayBuffer.max_size (Run.replay_buffer locals0))%nat)
    by (apply Nat.ltb_lt; reflexivity).
  assert (Hsize :
    (ReplayBuffer.size (Run.replay_buffer locals0)
     <= ReplayBuffer.max_size (Run.replay_buffer locals0))%nat)
    by (apply Nat.leb_le; reflexivity).
  assert (Hrun :
    Run.iterations price_data get_new_holdings to_numpy linear prelu tanh
      unit critic_step actor_step 2499 [chance0; chance0] locals0
    = Ret locals_trained) by (vm_compute; reflexivity).
  split; [exact Hptr|]. split; [exact Hsize|]. split; [exact Hrun|].
  exact (iterations_fill_buffer price_data get_new_holdings to_numpy linear
           prelu tanh unit critic_step actor_step 2499 [chance0; chance0]
           locals0 locals_trained Hptr Hsize Hrun).
Defined.

Lemma choose_action_whole_and_bounded_witness :
  Run.START_TIMESTEPS <= 2500
  /\ Run.choose_action to_numpy linear prelu tanh unit 2500 chance0 locals1
     = Ret [10%Q]
  /\ Forall (fun x => exists z : Z,
               x = inject_Z z /\ - Run.MAX_LIMIT <= z <= Run.MAX_LIMIT)
       [10%Q].
Proof.
  assert (Hlate : Run.START_TIMESTEPS <= 2500)
    by (apply Z.leb_le; reflexivity).
  assert (Hchoose :
    Run.choose_action to_numpy linear prelu tanh unit 2500 chance0 locals1
    = Ret [10%Q]) by (vm_compute; reflexivity).
  split; [exact Hlate|]. split; [exact Hchoose|].
  exact (choose_action_whole_and_bounded to_numpy linear prelu tanh unit
           2500 chance0 locals1 [10%Q] Hlate Hchoose).
Defined.

Lemma test_ends_witness :
  StockEnv.parse_date "01-03-2020" = Ret friday
  /\ StockEnv.parse_date "01-06-2020" = Ret (Datetime.mk_date 2020 1 6)
  /\ Z.max 1 ((Datetime.toordinal (Datetime.mk_date 2020 1 6)
               - Datetime.toordinal friday) * 2)
     <= Z.of_nat (length (repeat chance0 6))
  /\ exists l,
       Run.test price_data get_new_holdings to_numpy linear prelu tanh unit
         critic_step actor_step round2 calendar no_draws ["SPY"]
         "01-03-2020" "01-06-2020" agent buffer0 (repeat chance0 6)
       = Some (Ret l)
       /\ Run.test_done l = true
       /\ exists date value rows,
            Run.test_df l = (date ++ " 09:30AM", value)%string :: rows
            /\ 1 <= Z.of_nat (length rows) <= 6
            /\ DDPG.total_it (Run.test_policy l)
               = DDPG.total_it agent + Z.of_nat (length rows).
Proof.
  assert (Hfuel :
    Z.max 1 ((Datetime.toordinal (Datetime.mk_date 2020 1 6)
              - Datetime.toordinal friday) * 2)
    <= Z.of_nat (length (repeat chance0 6)))
    by (apply Z.leb_le; reflexivity).
  split; [reflexivity|]. split; [reflexivity|]. split; [exact Hfuel|].
  destruct (test_ends price_data get_new_holdings to_numpy linear prelu tanh
              unit critic_step actor_step round2 calendar no_draws ["SPY"]
              "01-03-2020" "01-06-2020" agent buffer0 (repeat chance0 6)
              friday (Datetime.mk_date 2020 1 6) eq_refl eq_refl Hfuel)
    as (r & Hr & Hafter).
  assert (Hruns :
    exists l,
      Run.test price_data get_new_holdings to_numpy linear prelu tanh unit
        critic_step actor_step round2 calendar no_draws ["SPY"]
        "01-03-2020" "01-06-2020" agent buffer0 (repeat chance0 6)
      = Some (Ret l)) by (eexists; vm_compute; reflexivity).
  destruct Hruns as (l & Hl).
  rewrite Hl in Hr. injection Hr as <-.
  destruct (Hafter l eq_refl)
    as (Hdone & date & value & rows & e & Hdf & _ & Hrows & Hit & _).
  exists l. split; [exact Hl|]. split; [exact Hdone|].
  exists date, value, rows. auto.
Defined.

Lemma squash_within (x : DDPG.rows) :
  Forall (Forall (fun v : Q => (- (1) <= v)%Q /\ (v <= 1)%Q)) (squash x).
Proof.
  unfold squash. apply Forall_map, Forall_forall. intros row _.
  apply clip_within. discriminate.
Defined.

Lemma select_action_within_max_action_witness :
  (forall x,
     Forall (Forall (fun v : Q => (- (1) <= v)%Q /\ (v <= 1)%Q)) (squash x))
  /\ (0 <= DDPG.a_max_action (DDPG.actor agent))%Q
  /\ Forall (Forall (fun v : Q => (- (10) <= v)%Q /\ (v <= 10)%Q))
       (DDPG.select_action linear prelu squash unit agent [[1%Q; 2%Q]]).
Proof.
  assert (Hmax : (0 <= DDPG.a_max_action (DDPG.actor agent))%Q)
    by discriminate.
  split; [exact squash_within|]. split; [exact Hmax|].
  exact (select_action_within_max_action linear prelu squash unit agent
           [[1%Q; 2%Q]] squash_within Hmax).
Defined.

End FurtherWitnesses.
